(** * gen_msix_xml.py: the MSIX manifest and installer generator

    A shallow embedding of [src/gen_msix_xml.py].  The script is one linear
    pass: load the JSON manifest, resolve the code-signing certificate
    subject, stage the two logo files, build the package manifest and the
    installer descriptor as ElementTree documents, write them, and pad the
    installer descriptor to 4096 bytes.

    Python values are embedded as they are at run time: a [str] is a list
    of code points, [bytes] a list of bytes, a JSON document a [pyval].
    Exceptions are values of [exn]; statements that touch the file system
    or the console run in the monad [M] over a [World]. *)

From Stdlib Require Import ZArith NArith Lia ZifyBool String Ascii List.
From Stdlib Require Import Init.Byte PrimFloat Sorting.Sorted.
From stdpp Require Import base option list gmap.

Open Scope Z_scope.
Set Warnings "-register-all".

(** ** Text *)

(** A Python [str]: its code points. *)
Definition str := list N.

(** A Python [bytes] object. *)
Definition bytes := list byte.

(** A string literal of the script (all of them are ASCII). *)
Definition lit (s : string) : str :=
  List.map N_of_ascii (list_ascii_of_string s).

Arguments lit s%_string_scope.

Definition LF : N := 10.
Definition CR : N := 13.

Definition str_eqb (a b : str) : bool := bool_decide (a = b).

(** [c in s] for a one-character [c]. *)
Definition str_contains (c : N) (s : str) : bool := bool_decide (c ∈ s).

(** [str.splitlines()]: the line boundaries of CPython's unicode type. *)
Definition is_linebreak (c : N) : bool :=
  ((10 <=? c) && (c <=? 13) || (28 <=? c) && (c <=? 30) ||
   (c =? 133) || (c =? 8232) || (c =? 8233))%N.

Fixpoint splitlines_from (line s : str) {struct s} : list str :=
  match s with
  | [] => match line with [] => [] | _ => [line] end
  | c :: t =>
      if is_linebreak c then
        line :: match t with
                | c' :: t' =>
                    if ((c =? CR) && (c' =? LF))%N
                    then splitlines_from [] t'
                    else splitlines_from [] t
                | [] => []
                end
      else splitlines_from (line ++ [c]) t
  end.

Definition str_splitlines (s : str) : list str := splitlines_from [] s.

(** [str.isspace()] on one character, as [str.strip()] uses it. *)
Definition is_space (c : N) : bool :=
  ((9 <=? c) && (c <=? 13) || (28 <=? c) && (c <=? 32) ||
   (c =? 133) || (c =? 160) || (c =? 5760) ||
   (8192 <=? c) && (c <=? 8202) || (c =? 8232) || (c =? 8233) ||
   (c =? 8239) || (c =? 8287) || (c =? 12288))%N.

Fixpoint str_lstrip (s : str) : str :=
  match s with
  | c :: t => if is_space c then str_lstrip t else s
  | [] => []
  end.

Definition str_strip (s : str) : str := rev (str_lstrip (rev (str_lstrip s))).

(** [sep.join(parts)]. *)
Fixpoint str_join (sep : str) (parts : list str) : str :=
  match parts with
  | [] => []
  | [p] => p
  | p :: rest => p ++ sep ++ str_join sep rest
  end.

(** [s.split(c)] for a one-character separator: never empty, and two
    separators in a row give an empty field. *)
Fixpoint str_split_from (c : N) (field s : str) : list str :=
  match s with
  | [] => [field]
  | x :: t => if (x =? c)%N then field :: str_split_from c [] t
              else str_split_from c (field ++ [x]) t
  end.

Definition str_split (c : N) (s : str) : list str := str_split_from c [] s.

(** [l[-1]]: [None] stands for the IndexError of an empty list. *)
Definition last_item {A} (l : list A) : option A := last l.

(** [str(n)] for an [int]. *)
Fixpoint digits_of (fuel : nat) (n : N) (acc : str) : str :=
  match fuel with
  | O => acc
  | S f =>
      let acc' := (48 + n mod 10)%N :: acc in
      if (n <? 10)%N then acc' else digits_of f (n / 10)%N acc'
  end.

Definition str_of_N (n : N) : str := digits_of (S (N.to_nat (N.log2 n))) n [].

Definition str_of_Z (z : Z) : str :=
  if z <? 0 then 45%N :: str_of_N (Z.to_N (- z)) else str_of_N (Z.to_N z).

(** [needle in haystack] for strings. *)
Fixpoint has_prefix (p s : str) : bool :=
  match p, s with
  | [], _ => true
  | a :: p', b :: s' => (a =? b)%N && has_prefix p' s'
  | _ :: _, [] => false
  end.

Fixpoint str_in (needle hay : str) : bool :=
  has_prefix needle hay ||
  match hay with
  | [] => false
  | _ :: t => str_in needle t
  end.

(** ** UTF-8 *)

Definition is_cont (b : N) : bool := ((128 <=? b) && (b <=? 191))%N.

(** [bytes.decode("utf-8")] in strict mode on the byte values: [None] is
    the UnicodeDecodeError.  Overlong forms, surrogates and values past
    U+10FFFF are refused, as the codec does. *)
Fixpoint utf8_decode_N (bs : list N) {struct bs} : option str :=
  match bs with
  | [] => Some []
  | b0 :: r0 =>
      if (b0 <? 128)%N then cons b0 <$> utf8_decode_N r0
      else match r0 with
      | [] => None
      | b1 :: r1 =>
          if ((194 <=? b0) && (b0 <=? 223))%N then
            if is_cont b1
            then cons ((b0 - 192) * 64 + (b1 - 128))%N <$> utf8_decode_N r1
            else None
          else match r1 with
          | [] => None
          | b2 :: r2 =>
              if ((224 <=? b0) && (b0 <=? 239))%N then
                if is_cont b1 && is_cont b2 &&
                   (negb (b0 =? 224) || (160 <=? b1))%N &&
                   (negb (b0 =? 237) || (b1 <=? 159))%N
                then cons ((b0 - 224) * 4096 + (b1 - 128) * 64 + (b2 - 128))%N
                       <$> utf8_decode_N r2
                else None
              else match r2 with
              | [] => None
              | b3 :: r3 =>
                  if ((240 <=? b0) && (b0 <=? 244))%N then
                    if is_cont b1 && is_cont b2 && is_cont b3 &&
                       (negb (b0 =? 240) || (144 <=? b1))%N &&
                       (negb (b0 =? 244) || (b1 <=? 143))%N
                    then cons ((b0 - 240) * 262144 + (b1 - 128) * 4096 +
                               (b2 - 128) * 64 + (b3 - 128))%N
                           <$> utf8_decode_N r3
                    else None
                  else None
              end
          end
      end
  end.

Definition utf8_decode (bs : bytes) : option str :=
  utf8_decode_N (List.map Byte.to_N bs).

(** The UTF-8 form of one code point (a scalar value). *)
Definition utf8_encode_cp (c : N) : list N :=
  if (c <? 128)%N then [c]
  else if (c <? 2048)%N then [192 + c / 64; 128 + c mod 64]%N
  else if (c <? 65536)%N then
    [224 + c / 4096; 128 + (c / 64) mod 64; 128 + c mod 64]%N
  else [240 + c / 262144; 128 + (c / 4096) mod 64;
        128 + (c / 64) mod 64; 128 + c mod 64]%N.

Definition byte_of_N (n : N) : byte :=
  match Byte.of_N n with Some b => b | None => x00 end.

Definition utf8_encode (s : str) : bytes :=
  List.map byte_of_N (flat_map utf8_encode_cp s).

(** A code point that UTF-8 can carry: below U+110000, not a surrogate. *)
Definition is_scalar (c : N) : bool :=
  ((c <? 55296) || (57343 <? c) && (c <? 1114112))%N.

(** ** Python values and exceptions *)

(** What [json.load] returns, and what the script passes around untyped:
    the dataclasses of the script declare field types but do not check
    them.  A [dict] keeps its insertion order. *)
Inductive pyval :=
| PNone
| PBool (b : bool)
| PInt (z : Z)
| PFloat (f : PrimFloat.float)
| PStr (s : str)
| PList (l : list pyval)
| PDict (d : list (str * pyval)).

Inductive exn :=
| AssertionError (msg : str)
| KeyError (key : str)
| TypeError
| AttributeError
| ValueError
| IndexError
| CalledProcessError (returncode : Z)
| UnicodeDecodeError
| FileNotFoundError
| FileExistsError
| IsADirectoryError
| NotADirectoryError
| SameFileError.

Inductive result (A : Type) :=
| Ok (a : A)
| Raise (e : exn).

Arguments Ok {A} a.
Arguments Raise {A} e.

#[global] Instance result_ret : MRet result := fun _ a => Ok a.
#[global] Instance result_bind : MBind result := fun _ _ f m =>
  match m with Ok a => f a | Raise e => Raise e end.

Declare Scope py_scope.
Delimit Scope py_scope with py.
Notation "x <- m ;; k" := (mbind (fun x => k) m)
  (at level 100, m at next level, right associativity) : py_scope.
Notation "m ;; k" := (mbind (fun _ => k) m)
  (at level 100, right associativity) : py_scope.
Open Scope py_scope.

(** [bool(v)]. *)
Definition truthy (v : pyval) : bool :=
  match v with
  | PNone => false
  | PBool b => b
  | PInt z => negb (z =? 0)
  | PFloat f => negb (PrimFloat.eqb f PrimFloat.zero)
  | PStr s => match s with [] => false | _ => true end
  | PList l => match l with [] => false | _ => true end
  | PDict d => match d with [] => false | _ => true end
  end.

Fixpoint assoc {V} (k : str) (d : list (str * V)) : option V :=
  match d with
  | [] => None
  | (k', v) :: rest => if str_eqb k' k then Some v else assoc k rest
  end.

(** [v[key]] for a string key: a KeyError on a dict without the key, a
    TypeError on anything that is not a dict. *)
Definition getitem (v : pyval) (key : str) : result pyval :=
  match v with
  | PDict d => match assoc key d with
               | Some x => Ok x
               | None => Raise (KeyError key)
               end
  | _ => Raise TypeError
  end.

(** [v.split(".")[-1]]: only a [str] has the method. *)
Definition split_last (sep : N) (v : pyval) : result pyval :=
  match v with
  | PStr s => match last_item (str_split sep s) with
              | Some seg => Ok (PStr seg)
              | None => Raise IndexError
              end
  | _ => Raise AttributeError
  end.

(** ** ElementTree *)

(** An [xml.etree.ElementTree.Element] with everything below it. *)
Inductive Element := mkElement {
  tag : str;
  attrib : list (str * pyval);
  text : pyval;
  tail : pyval;
  children : list Element
}.

(** Elements are objects: [SubElement] appends the new element to its
    parent and hands back a reference through which the script goes on
    setting attributes.  The builder keeps the elements of one document
    in allocation order; a reference is an index. *)
Record Node := mkNode {
  n_tag : str;
  n_attrib : list (str * pyval);
  n_text : pyval;
  n_children : list nat
}.

Definition ET (A : Type) : Type := list Node -> result (A * list Node).

#[global] Instance ET_ret : MRet ET := fun _ a h => Ok (a, h).
#[global] Instance ET_bind : MBind ET := fun _ _ f m h =>
  match m h with Ok (a, h') => f a h' | Raise e => Raise e end.

Definition et_lift {A} (r : result A) : ET A := fun h =>
  match r with Ok a => Ok (a, h) | Raise e => Raise e end.

(** [ET.Element(tag)]. *)
Definition new_Element (t : str) : ET nat := fun h =>
  Ok (length h, h ++ [mkNode t [] PNone []]).

Definition update_node (i : nat) (f : Node -> Node) : ET unit := fun h =>
  Ok (tt, alter f i h).

(** [ET.SubElement(parent, tag)]. *)
Definition SubElement (parent : nat) (t : str) : ET nat :=
  child <- new_Element t ;;
  update_node parent (fun n =>
    mkNode (n_tag n) (n_attrib n) (n_text n) (n_children n ++ [child])) ;;
  mret child.

(** [d[key] = value] on the attribute dict: an existing key keeps its
    place, a new one goes last. *)
Fixpoint attrib_set (key : str) (value : pyval) (d : list (str * pyval))
  : list (str * pyval) :=
  match d with
  | [] => [(key, value)]
  | (k, v) :: rest =>
      if str_eqb k key then (k, value) :: rest
      else (k, v) :: attrib_set key value rest
  end.

(** [elem.set(key, value)]. *)
Definition set_attr (elem : nat) (key : str) (value : pyval) : ET unit :=
  update_node elem (fun n =>
    mkNode (n_tag n) (attrib_set key value (n_attrib n)) (n_text n)
           (n_children n)).

(** [elem.text = value]. *)
Definition set_text (elem : nat) (value : pyval) : ET unit :=
  update_node elem (fun n =>
    mkNode (n_tag n) (n_attrib n) value (n_children n)).

(** The document below a reference.  A child is allocated after its
    parent, so [length h] levels reach every element. *)
Fixpoint to_tree (fuel : nat) (h : list Node) (i : nat) : Element :=
  match fuel, h !! i with
  | S f, Some n =>
      mkElement (n_tag n) (n_attrib n) (n_text n) PNone
                (List.map (to_tree f h) (n_children n))
  | _, _ => mkElement [] [] PNone PNone []
  end.

(** Run a builder from no elements and return the document it built. *)
Definition build (m : ET nat) : result Element :=
  match m [] with
  | Ok (root, h) => Ok (to_tree (length h) h root)
  | Raise e => Raise e
  end.

(** [elem.find(tag)] and [elem.get(key)], to read a document back. *)
Definition et_find (t : str) (e : Element) : option Element :=
  List.find (fun c => str_eqb (tag c) t) (children e).

Definition et_findall (t : str) (e : Element) : list Element :=
  List.filter (fun c => str_eqb (tag c) t) (children e).

Definition et_get (key : str) (e : Element) : option pyval :=
  assoc key (attrib e).

(** [not v or not v.strip()], on a text or tail. *)
Definition blank (v : pyval) : result bool :=
  if truthy v then
    match v with
    | PStr s => Ok (str_eqb (str_strip s) [])
    | _ => Raise AttributeError
    end
  else Ok true.

Definition indentation (level : nat) : str :=
  LF :: List.concat (replicate level (lit "  ")).

Definition with_tail (e : Element) (t : pyval) : Element :=
  mkElement (tag e) (attrib e) (text e) t (children e).

(** [_indent_children] of [ET.indent], for an element with children. *)
Fixpoint indent_children (level : nat) (e : Element) : result Element :=
  let child_indentation := indentation (S level) in
  let fix go (cs : list Element) : result (list Element) :=
    match cs with
    | [] => Ok []
    | c :: rest =>
        c1 <- match children c with
              | [] => Ok c
              | _ => indent_children (S level) c
              end ;;
        b <- blank (tail c1) ;;
        let dedent := match rest with [] => true | _ => false end in
        let c2 :=
          if (b : bool) then
            with_tail c1 (PStr (if dedent then indentation level
                                else child_indentation))
          else c1 in
        rest' <- go rest ;;
        Ok (c2 :: rest')
    end in
  b <- blank (text e) ;;
  cs <- go (children e) ;;
  Ok (mkElement (tag e) (attrib e)
        (if (b : bool) then PStr child_indentation else text e) (tail e) cs).

(** [ET.indent(tree)] with the default two spaces. *)
Definition et_indent (e : Element) : result Element :=
  match children e with
  | [] => Ok e
  | _ => indent_children 0 e
  end.

(** ** Paths and the file system *)

(** A [pathlib] path is its [parts]: the root ["/"] first when the path
    is absolute, then the names.  Empty and ["."] components vanish when a
    path is parsed (POSIX flavour). *)
Definition Path := list str.

Definition SLASH : N := 47.
Definition DOT : N := 46.

Definition parse_path (s : str) : Path :=
  let names :=
    List.filter (fun c => negb (str_eqb c []) && negb (str_eqb c [DOT]))
                (str_split SLASH s) in
  match s with
  | c :: _ => if (c =? SLASH)%N then [SLASH] :: names else names
  | [] => names
  end.

(** [p / s]: an absolute right operand replaces the left one. *)
Definition path_join (p : Path) (s : str) : Path :=
  match parse_path s with
  | r :: rest => if str_eqb r [SLASH] then r :: rest else p ++ r :: rest
  | [] => p
  end.

(** [p.name]: the last part, or the empty string for a root or ["."]. *)
Definition path_name (p : Path) : str :=
  match last_item p with
  | Some n => if str_eqb n [SLASH] then [] else n
  | None => []
  end.

(** [p.parent]. *)
Definition path_parent (p : Path) : Path :=
  match p with
  | [r] => if str_eqb r [SLASH] then p else []
  | _ => removelast p
  end.

(** [str(p)]. *)
Definition path_str (p : Path) : str :=
  match p with
  | [] => [DOT]
  | r :: rest =>
      if str_eqb r [SLASH] then SLASH :: str_join [SLASH] rest
      else str_join [SLASH] p
  end.

Inductive node :=
| File (content : bytes)
| Dir.

(** What the script does to the outside, in order. *)
Inductive event :=
| EPrint (line : str)
| EMkdir (p : Path)
| ECopy (src dst : Path)
| EUnlink (p : Path)
| EWriteXml (p : Path) (doc : Element)
| EAppend (p : Path) (data : bytes).

Record World := mkWorld {
  files : gmap Path node;
  trace : list event
}.

(** The working directory and the root always exist.  A path is looked
    up as it is spelled: the file system has no links, and a [..]
    component is a name like any other. *)
Definition fs_node (fs : gmap Path node) (p : Path) : option node :=
  match p with
  | [] => Some Dir
  | [r] => if str_eqb r [SLASH] then Some Dir else fs !! p
  | _ => fs !! p
  end.

Definition exists_ (fs : gmap Path node) (p : Path) : bool :=
  match fs_node fs p with Some _ => true | None => false end.

Definition is_dir (fs : gmap Path node) (p : Path) : bool :=
  match fs_node fs p with Some Dir => true | _ => false end.

(** Statements with effects: the final world is kept when one raises. *)
Definition M (A : Type) : Type := World -> result A * World.

#[global] Instance M_ret : MRet M := fun _ a w => (Ok a, w).
#[global] Instance M_bind : MBind M := fun _ _ f m w =>
  match m w with
  | (Ok a, w') => f a w'
  | (Raise e, w') => (Raise e, w')
  end.

Definition lift {A} (r : result A) : M A := fun w => (r, w).

Definition raise {A} (e : exn) : M A := fun w => (Raise e, w).

Definition get_files : M (gmap Path node) := fun w => (Ok (files w), w).

Definition put_files (fs : gmap Path node) : M unit := fun w =>
  (Ok tt, mkWorld fs (trace w)).

Definition emit (e : event) : M unit := fun w =>
  (Ok tt, mkWorld (files w) (trace w ++ [e])).

Definition print (line : str) : M unit := emit (EPrint line).

(** [assert cond, msg]. *)
Definition assert_ (cond : bool) (msg : str) : M unit :=
  if cond then mret tt else raise (AssertionError msg).

(** Opening [p] for writing: the error it raises, if any. *)
Definition open_w_error (fs : gmap Path node) (p : Path) : option exn :=
  match fs_node fs p with
  | Some Dir => Some IsADirectoryError
  | Some (File _) => None
  | None =>
      match fs_node fs (path_parent p) with
      | Some Dir => None
      | Some (File _) => Some NotADirectoryError
      | None => Some FileNotFoundError
      end
  end.

(** [p.mkdir(exist_ok=True)]. *)
Definition mkdir_exist_ok (p : Path) : M unit :=
  fs <- get_files ;;
  match fs_node fs p with
  | Some Dir => mret tt
  | Some (File _) => raise FileExistsError
  | None =>
      match fs_node fs (path_parent p) with
      | Some Dir => put_files (<[p := Dir]> fs) ;; emit (EMkdir p)
      | Some (File _) => raise NotADirectoryError
      | None => raise FileNotFoundError
      end
  end.

(** [shutil.copy(src, dst)]: into [dst] when it is a directory. *)
Definition shutil_copy (src dst : Path) : M unit :=
  fs <- get_files ;;
  let target := if is_dir fs dst then dst ++ [path_name src] else dst in
  if bool_decide (src = target) && exists_ fs src then raise SameFileError else
  match fs_node fs src with
  | None => raise FileNotFoundError
  | Some Dir => raise IsADirectoryError
  | Some (File data) =>
      match open_w_error fs target with
      | Some e => raise e
      | None => put_files (<[target := File data]> fs) ;;
                emit (ECopy src target)
      end
  end.

(** [p.unlink(missing_ok=True)]. *)
Definition unlink_missing_ok (p : Path) : M unit :=
  fs <- get_files ;;
  match fs_node fs p with
  | None => mret tt
  | Some Dir => raise IsADirectoryError
  | Some (File _) => put_files (delete p fs) ;; emit (EUnlink p)
  end.

(** ** The run's inputs and the platform *)

(** [parsed_args]: the namespace [argparse] returns. *)
Record Args := mkArgs {
  destination_dir : str;
  app_version : str;
  manifest : str;
  logo_dir : str;
  cert_subject : option str;
  cert_path : option str;
  no_manifest : bool;
  gen_installer : bool
}.

(** What [subprocess.run(..., capture_output=True)] comes back with
    before [check=True] is applied: the exit status and the captured
    standard output, or the error of a process that did not start. *)
Inductive process :=
| Exited (returncode : Z) (stdout : bytes)
| NotStarted (e : exn).

(** The machine the script runs on: the manifest file as [json.load]
    reads it, and the answer of a child process to a command line. *)
Record Env := mkEnv {
  json_load : str -> result pyval;
  subprocess_run : list str -> process
}.

(** Library behaviour the script relies on and the model leaves open:
    the theorems hold whatever these functions are.
    - [py_repr]: [repr()] of the list of output lines, for the message of
      the failed assertion;
    - [py_format]: [str()] of an int, a float, a list or a dict: the text,
      or the exception [str()] raises (a ValueError for an int of more
      digits than the interpreter's limit allows);
    - [str_lower]: [str.lower()];
    - [urlparse_path]: [urlparse(u).path], as [PurePosixPath] takes it;
    - [et_write]: the text [ElementTree.write(..., encoding="utf-8",
      xml_declaration=True)] puts in the file, and the exception it ends
      with, if any. *)
Class Host := mkHost {
  py_repr : pyval -> str;
  py_format : pyval -> result str;
  str_lower : str -> str;
  urlparse_path : pyval -> result str;
  et_write : Element -> bytes * option exn
}.

(** [str(v)]. *)
Definition py_str `{Host} (v : pyval) : result str :=
  match v with
  | PNone => Ok (lit "None")
  | PBool true => Ok (lit "True")
  | PBool false => Ok (lit "False")
  | PStr s => Ok s
  | _ => py_format v
  end.

(** ** The dataclasses *)

Record AppLogo := mkAppLogo {
  logo_sq_44x44 : str;
  logo_sq_150x150 : str;
  bg_color : pyval
}.

Record CodeSigningCert := mkCodeSigningCert {
  publisher : str
}.

Record MsixApplication := mkMsixApplication {
  name : pyval;
  displayed_name : pyval;
  description : pyval;
  version : str;
  cert : CodeSigningCert;
  arch : pyval;
  logo : AppLogo;
  entrypoint : pyval;
  displayed_publisher : pyval;
  min_windows_version : pyval;
  max_windows_version_tested : pyval
}.

Record MsixInstaller := mkMsixInstaller {
  installer_version : pyval;
  installer_uri : pyval;
  appx_uri : pyval;
  hours_between_update_checks : pyval;
  show_prompt : pyval;
  update_blocks_activation : pyval;
  automatic_background_task : pyval;
  force_update_from_any_version : pyval
}.

(** ** The embedded PowerShell command *)

(** The text of [cert_code] (lines 79-86 of the script) for a store path. *)
Definition cert_code (cert_path : str) : str :=
  lit " \" ++ [LF] ++
  lit "        $certs = (Get-ChildItem -Path " ++ cert_path ++
  lit " -Recurse -CodeSigningCert)" ++ [LF] ++
  lit "        $filter_valid_certs = $certs | Where-Object { $_.NotBefore -lt (Get-Date) -and $_.NotAfter -gt (Get-Date) }" ++ [LF] ++
  lit "        $cert = ($filter_valid_certs | sort NotAfter)[-1]" ++ [LF] ++
  lit "        $cert.FriendlyName" ++ [LF] ++
  lit "        $cert.Thumbprint" ++ [LF] ++
  lit "        $cert.Subject" ++ [LF] ++
  lit "    ".

(** Line ends become semicolons: a PowerShell one-liner. *)
Definition pwsh_cmd (cert_path : str) : str :=
  str_join (lit ";") (List.map str_strip (str_splitlines (cert_code cert_path))).

Definition pwsh_argv (cert_path : str) : list str :=
  [lit "powershell.exe"; lit "-NoProfile"; lit "-NonInteractive";
   lit "-NoLogo"; lit "-Command"; pwsh_cmd cert_path].

(** ** The script *)

Section Script.

Context {host : Host}.

(** The module-level [parsed_args] and the machine, which the script's
    functions read as globals. *)
Variable parsed_args : Args.
Variable env : Env.

(** [hasattr(parsed_args, a) and parsed_args.a]: argparse always sets the
    attribute, to [None] when the option is absent. *)
Definition given (a : option str) : option str :=
  match a with
  | Some (c :: s) => Some (c :: s)
  | _ => None
  end.

(** [subprocess.run(argv, capture_output=True, check=True).stdout]. *)
Definition run_checked (argv : list str) : M bytes :=
  match subprocess_run env argv with
  | NotStarted e => raise e
  | Exited rc out => if rc =? 0 then mret out else raise (CalledProcessError rc)
  end.

(** Search for a code signing cert to use if not provided in the args. *)
Definition get_cert_subject : M str :=
  match given (cert_subject parsed_args) with
  | Some subject => mret subject
  | None =>
      let cert_path :=
        match given (cert_path parsed_args) with
        | Some p => p
        | None => lit "Cert:\LocalMachine\*"
        end in
      out <- run_checked (pwsh_argv cert_path) ;;
      match utf8_decode out with
      | None => raise UnicodeDecodeError
      | Some decoded =>
          let pwsh_cert_output := str_splitlines decoded in
          assert_ (length pwsh_cert_output =? 3)%nat
            (lit "Unexpected output from Powershell: " ++
             py_repr (PList (List.map PStr pwsh_cert_output))) ;;
          match pwsh_cert_output with
          | [cert_name; cert_thumbprint; cert_subject] =>
              print (lit "Using Code Signing Certificate:" ++ [LF] ++
                     lit " '" ++ cert_name ++ lit "': " ++ cert_thumbprint ++
                     [LF]) ;;
              mret cert_subject
          | _ => raise ValueError
          end
      end
  end.

(** The nested [check_and_copy_logo] of [setup_app_logos]. *)
Definition check_and_copy_logo (pkg_logos_dir logo_path : Path) : M str :=
  fs <- get_files ;;
  assert_ (exists_ fs logo_path)
    (lit "Expected Logo file not found: " ++ path_str logo_path) ;;
  shutil_copy logo_path pkg_logos_dir ;;
  mret (path_str (path_join (parse_path (lit "msix_assets"))
                            (path_name logo_path))).

(** Copy the logo files to the MSIX package directory. *)
Definition setup_app_logos (logo_dir : Path) (bg_color : pyval) : M AppLogo :=
  let pkg_logos_dir :=
    path_join (parse_path (destination_dir parsed_args)) (lit "msix_assets") in
  mkdir_exist_ok pkg_logos_dir ;;
  fs <- get_files ;;
  assert_ (exists_ fs logo_dir && is_dir fs logo_dir)
    (lit "Logo directory not found: " ++ path_str logo_dir) ;;
  let logo_sq_44x44 := path_join logo_dir (lit "logo_44x44.png") in
  let logo_sq_150x150 := path_join logo_dir (lit "logo_150x150.png") in
  l44 <- check_and_copy_logo pkg_logos_dir logo_sq_44x44 ;;
  l150 <- check_and_copy_logo pkg_logos_dir logo_sq_150x150 ;;
  mret (mkAppLogo l44 l150 bg_color).

Definition gen_appx_manifest (app_spec : MsixApplication) : result Element :=
  build (
    package <- new_Element (lit "Package") ;;
    set_attr package (lit "xmlns")
      (PStr (lit "http://schemas.microsoft.com/appx/manifest/foundation/windows10")) ;;
    set_attr package (lit "xmlns:uap")
      (PStr (lit "http://schemas.microsoft.com/appx/manifest/uap/windows10")) ;;
    set_attr package (lit "xmlns:uap10")
      (PStr (lit "http://schemas.microsoft.com/appx/manifest/uap/windows10/10")) ;;
    set_attr package (lit "xmlns:uap13")
      (PStr (lit "http://schemas.microsoft.com/appx/manifest/uap/windows10/13")) ;;
    set_attr package (lit "xmlns:rescap")
      (PStr (lit "http://schemas.microsoft.com/appx/manifest/foundation/windows10/restrictedcapabilities")) ;;
    set_attr package (lit "IgnorableNamespaces") (PStr (lit "uap13")) ;;

    identity <- SubElement package (lit "Identity") ;;
    set_attr identity (lit "Name") (name app_spec) ;;
    set_attr identity (lit "Version") (PStr (version app_spec)) ;;
    set_attr identity (lit "Publisher") (PStr (publisher (cert app_spec))) ;;
    set_attr identity (lit "ProcessorArchitecture") (arch app_spec) ;;

    properties <- SubElement package (lit "Properties") ;;
    e <- SubElement properties (lit "DisplayName") ;;
    set_text e (displayed_name app_spec) ;;
    e <- SubElement properties (lit "PublisherDisplayName") ;;
    set_text e (displayed_publisher app_spec) ;;
    e <- SubElement properties (lit "Description") ;;
    set_text e (description app_spec) ;;
    e <- SubElement properties (lit "Logo") ;;
    set_text e (PStr (logo_sq_150x150 (logo app_spec))) ;;

    resources <- SubElement package (lit "Resources") ;;
    e <- SubElement resources (lit "Resource") ;;
    set_attr e (lit "Language") (PStr (lit "en-us")) ;;

    dependencies <- SubElement package (lit "Dependencies") ;;
    target_fam <- SubElement dependencies (lit "TargetDeviceFamily") ;;
    set_attr target_fam (lit "Name") (PStr (lit "Windows.Desktop")) ;;
    set_attr target_fam (lit "MinVersion") (min_windows_version app_spec) ;;
    set_attr target_fam (lit "MaxVersionTested")
      (max_windows_version_tested app_spec) ;;

    capabilities <- SubElement package (lit "Capabilities") ;;
    e <- SubElement capabilities (lit "rescap:Capability") ;;
    set_attr e (lit "Name") (PStr (lit "runFullTrust")) ;;

    applications <- SubElement package (lit "Applications") ;;
    application <- SubElement applications (lit "Application") ;;
    id <- et_lift (split_last DOT (name app_spec)) ;;
    set_attr application (lit "Id") id ;;
    set_attr application (lit "Executable") (entrypoint app_spec) ;;
    set_attr application (lit "uap10:RuntimeBehavior")
      (PStr (lit "packagedClassicApp")) ;;
    set_attr application (lit "uap10:TrustLevel") (PStr (lit "mediumIL")) ;;

    visual_elements <- SubElement application (lit "uap:VisualElements") ;;
    set_attr visual_elements (lit "DisplayName") (displayed_name app_spec) ;;
    set_attr visual_elements (lit "Description") (description app_spec) ;;
    set_attr visual_elements (lit "Square150x150Logo")
      (PStr (logo_sq_150x150 (logo app_spec))) ;;
    set_attr visual_elements (lit "Square44x44Logo")
      (PStr (logo_sq_44x44 (logo app_spec))) ;;
    set_attr visual_elements (lit "BackgroundColor")
      (bg_color (logo app_spec)) ;;

    mret package).

Definition gen_appx_installer (app_spec : MsixApplication)
    (installer_spec : MsixInstaller) : result Element :=
  build (
    app_installer <- new_Element (lit "AppInstaller") ;;
    set_attr app_installer (lit "xmlns")
      (PStr (lit "http://schemas.microsoft.com/appx/appinstaller/2018")) ;;
    set_attr app_installer (lit "Version") (installer_version installer_spec) ;;
    set_attr app_installer (lit "Uri") (installer_uri installer_spec) ;;

    main_pkg <- SubElement app_installer (lit "MainPackage") ;;
    set_attr main_pkg (lit "Name") (name app_spec) ;;
    set_attr main_pkg (lit "Publisher") (PStr (publisher (cert app_spec))) ;;
    set_attr main_pkg (lit "Version") (PStr (app_version parsed_args)) ;;
    set_attr main_pkg (lit "Uri") (appx_uri installer_spec) ;;
    set_attr main_pkg (lit "ProcessorArchitecture") (arch app_spec) ;;

    update_settings <- SubElement app_installer (lit "UpdateSettings") ;;
    on_launch <- SubElement update_settings (lit "OnLaunch") ;;
    hours <- et_lift (py_str (hours_between_update_checks installer_spec)) ;;
    set_attr on_launch (lit "HoursBetweenUpdateChecks") (PStr hours) ;;
    prompt <- et_lift (py_str (show_prompt installer_spec)) ;;
    set_attr on_launch (lit "ShowPrompt") (PStr (str_lower prompt)) ;;
    blocks <- et_lift (py_str (update_blocks_activation installer_spec)) ;;
    set_attr on_launch (lit "UpdateBlocksActivation")
      (PStr (str_lower blocks)) ;;

    (if truthy (automatic_background_task installer_spec)
     then SubElement update_settings (lit "AutomaticBackgroundTask") ;; mret tt
     else mret tt) ;;

    (if truthy (force_update_from_any_version installer_spec)
     then e <- SubElement update_settings (lit "ForceUpdateFromAnyVersion") ;;
          set_text e (PStr (lit "true"))
     else mret tt) ;;

    mret app_installer).

(** [v[k1][k2]]. *)
Definition getitem2 (v : pyval) (k1 k2 : str) : result pyval :=
  inner <- getitem v k1 ;; getitem inner k2.

(** [v[k1][k2][k3]]. *)
Definition getitem3 (v : pyval) (k1 k2 k3 : str) : result pyval :=
  inner <- getitem2 v k1 k2 ;; getitem inner k3.

(** Lines 272-286: the keyword arguments are evaluated in the order they
    are written, so the certificate lookup and the logo staging run
    between the manifest lookups. *)
Definition load_app (appx_manifest : pyval) : M MsixApplication :=
  name_ <- lift (getitem2 appx_manifest (lit "Identity") (lit "Name")) ;;
  arch_ <- lift (getitem2 appx_manifest (lit "Identity") (lit "Arch")) ;;
  let version_ := app_version parsed_args in
  displayed_name_ <-
    lift (getitem2 appx_manifest (lit "Properties") (lit "DisplayName")) ;;
  description_ <-
    lift (getitem2 appx_manifest (lit "Properties") (lit "Description")) ;;
  displayed_publisher_ <-
    lift (getitem2 appx_manifest (lit "Properties")
                   (lit "PublisherDisplayName")) ;;
  entrypoint_ <-
    lift (getitem2 appx_manifest (lit "Application") (lit "EntryPoint")) ;;
  subject <- get_cert_subject ;;
  let cert_ := mkCodeSigningCert subject in
  bg <- lift (getitem2 appx_manifest (lit "VisualElements")
                       (lit "BackgroundColor")) ;;
  logo_ <- setup_app_logos (parse_path (logo_dir parsed_args)) bg ;;
  min_ <- lift (getitem2 appx_manifest (lit "Dependencies") (lit "MinVersion")) ;;
  max_ <- lift (getitem2 appx_manifest (lit "Dependencies")
                         (lit "MaxVersionTested")) ;;
  mret (mkMsixApplication name_ displayed_name_ description_ version_ cert_
          arch_ logo_ entrypoint_ displayed_publisher_ min_ max_).

(** Lines 289-298. *)
Definition load_installer (installer_manifest : pyval) : result MsixInstaller :=
  version_ <- getitem installer_manifest (lit "Version") ;;
  installer_uri_ <- getitem installer_manifest (lit "Uri") ;;
  appx_uri_ <- getitem2 installer_manifest (lit "MainPackage") (lit "Uri") ;;
  hours <- getitem3 installer_manifest (lit "UpdateSettings") (lit "OnLaunch")
                    (lit "HoursBetweenUpdateChecks") ;;
  show_prompt_ <- getitem3 installer_manifest (lit "UpdateSettings")
                           (lit "OnLaunch") (lit "ShowPrompt") ;;
  blocks <- getitem3 installer_manifest (lit "UpdateSettings") (lit "OnLaunch")
                     (lit "UpdateBlocksActivation") ;;
  background <- getitem2 installer_manifest (lit "UpdateSettings")
                         (lit "AutomaticBackgroundTask") ;;
  force <- getitem2 installer_manifest (lit "UpdateSettings")
                    (lit "ForceUpdateFromAnyVersion") ;;
  mret (mkMsixInstaller version_ installer_uri_ appx_uri_ hours show_prompt_
          blocks background force).

(** [tree.write(path, encoding="utf-8", xml_declaration=True)]: the file
    is opened (and emptied) before anything is serialized. *)
Definition tree_write (doc : Element) (p : Path) : M unit :=
  fs <- get_files ;;
  match open_w_error fs p with
  | Some e => raise e
  | None =>
      put_files (<[p := File (et_write doc).1]> fs) ;;
      emit (EWriteXml p doc) ;;
      match (et_write doc).2 with
      | Some e => raise e
      | None => mret tt
      end
  end.

(** Lines 303-308, the body of [if not parsed_args.no_manifest]. *)
Definition emit_appx_manifest (app : MsixApplication) (dest_dir : Path)
  : M unit :=
  root <- lift (gen_appx_manifest app) ;;
  tree <- lift (et_indent root) ;;
  tree_write tree (path_join dest_dir (lit "AppxManifest.xml")) ;;
  print (lit "Generated AppxManifest").

Definition file_pad_limit : Z := 4096.

(** Lines 326-338: pad the installer descriptor in append mode. *)
Definition pad_app_installer (app_installer_path : Path) : M unit :=
  fs <- get_files ;;
  match open_w_error fs app_installer_path with
  | Some e => raise e
  | None =>
      let data := match fs_node fs app_installer_path with
                  | Some (File d) => d
                  | _ => []
                  end in
      put_files (<[app_installer_path := File data]> fs) ;;
      let file_size := Z.of_nat (length data) in
      assert_ (file_size <? file_pad_limit)
        (lit "AppInstaller file size is larger than the " ++
         str_of_Z file_pad_limit ++ lit "B limit") ;;
      let padding :=
        x0a :: replicate (Z.to_nat ((file_pad_limit - 1) - file_size)) x20 in
      put_files (<[app_installer_path := File (data ++ padding)]> fs) ;;
      emit (EAppend app_installer_path padding)
  end.

(** [dest_dir / PurePosixPath(urlparse(uri).path).name]. *)
Definition installer_path (dest_dir : Path) (url_path : str) : Path :=
  path_join dest_dir (path_name (parse_path url_path)).

(** Lines 311-339, the body of [if parsed_args.gen_installer]. *)
Definition emit_app_installer (app : MsixApplication)
    (installer : MsixInstaller) (dest_dir : Path) : M unit :=
  root <- lift (gen_appx_installer app installer) ;;
  tree <- lift (et_indent root) ;;
  url_path <- lift (urlparse_path (installer_uri installer)) ;;
  let app_installer_path := installer_path dest_dir url_path in
  unlink_missing_ok app_installer_path ;;
  tree_write tree app_installer_path ;;
  pad_app_installer app_installer_path ;;
  print (lit "Generated AppInstaller").

(** Lines 60-298: read the manifest and build the two specs. *)
Definition load_specs : M (MsixApplication * MsixInstaller) :=
  manifest_ <- lift (json_load env (manifest parsed_args)) ;;
  print (lit "Generating MSIX files...") ;;
  appx_manifest <- lift (getitem manifest_ (lit "AppManifest")) ;;
  installer_manifest <- lift (getitem manifest_ (lit "AppInstaller")) ;;
  app <- load_app appx_manifest ;;
  installer <- lift (load_installer installer_manifest) ;;
  mret (app, installer).

(** Lines 300-341: write what was asked for. *)
Definition emit_documents (app : MsixApplication) (installer : MsixInstaller)
  : M unit :=
  let dest_dir := parse_path (destination_dir parsed_args) in
  fs <- get_files ;;
  assert_ (exists_ fs dest_dir && is_dir fs dest_dir)
    (lit "Destination directory " ++ path_str dest_dir ++
     lit " does not exist") ;;
  (if negb (no_manifest parsed_args)
   then emit_appx_manifest app dest_dir else mret tt) ;;
  (if gen_installer parsed_args
   then emit_app_installer app installer dest_dir else mret tt) ;;
  print (lit "Completed Successfully!" ++ [LF]).

(** The module-level statements, top to bottom. *)
Definition script : M unit :=
  specs <- load_specs ;;
  emit_documents (fst specs) (snd specs).

End Script.

(** One run of the script from a file system, with nothing done yet. *)
Definition run `{Host} (args : Args) (env : Env) (fs : gmap Path node)
  : result unit * World :=
  script args env (mkWorld fs []).

(** ** The certificate store

    What the script wants of a certificate of the store. *)

Record Certificate := mkCertificate {
  FriendlyName : str;
  Thumbprint : str;
  Subject : str;
  NotBefore : Z;
  NotAfter : Z
}.

(** ** The command, as PowerShell reads it

    The text of [cert_code] is a program of its own: PowerShell reads it,
    not Python.  This is the part of the PowerShell language the command
    is written in: how its text is cut into tokens, how the tokens nest,
    and what the statements do.  A text with anything else in it, and an
    error the command does not run into when a certificate is found, have
    no meaning here ([None]).  One error is on the command's way: its
    first statement is a lone backslash, which names no command;
    PowerShell reports that and goes on, and nothing is written. *)
Module PowerShell.

Inductive token :=
| TWord (w : str)
| TVariable (name : str)
| TMember (name : str)
| TOpen
| TClose
| TLBrace
| TRBrace
| TLBracket
| TRBracket
| TPipe
| TSemicolon
| TAssign.

Definition is_blank (c : N) : bool := ((c =? 32) || (c =? 9))%N.

Definition is_letter (c : N) : bool :=
  ((97 <=? c) && (c <=? 122) || (65 <=? c) && (c <=? 90))%N.

Definition is_digit (c : N) : bool := ((48 <=? c) && (c <=? 57))%N.

(** The characters of a variable or property name. *)
Definition is_name_char (c : N) : bool :=
  is_letter c || is_digit c || (c =? 95)%N.

(** The characters of a bare word that stand for themselves: letters,
    digits and [_ - . : * \ /].  Quotes, [$], the backtick and the other
    special characters are left out. *)
Definition is_word_char (c : N) : bool :=
  is_name_char c ||
  ((c =? 45) || (c =? 46) || (c =? 58) || (c =? 42) || (c =? 92) ||
   (c =? 47))%N.

(** A line end closes a statement as a semicolon does. *)
Definition punctuation (c : N) : option token :=
  if (c =? 40)%N then Some TOpen
  else if (c =? 41)%N then Some TClose
  else if (c =? 123)%N then Some TLBrace
  else if (c =? 125)%N then Some TRBrace
  else if (c =? 91)%N then Some TLBracket
  else if (c =? 93)%N then Some TRBracket
  else if (c =? 124)%N then Some TPipe
  else if ((c =? 59) || (c =? 10) || (c =? 13))%N then Some TSemicolon
  else if (c =? 61)%N then Some TAssign
  else None.

(** The token being read.  [Ended] is the place right after [)] or [\]],
    where a dot reads a property. *)
Inductive reading :=
| Idle
| Ended
| InWord (w : str)
| InVariable (name : str)
| InProperty (name : str).

Definition read (r : reading) : list token :=
  match r with
  | Idle | Ended => []
  | InWord w => [TWord w]
  | InVariable n => [TVariable n]
  | InProperty n => [TMember n]
  end.

Definition after (k : token) : reading :=
  match k with
  | TClose | TRBracket => Ended
  | _ => Idle
  end.

Fixpoint lex (r : reading) (s : str) : option (list token) :=
  match s with
  | [] => Some (read r)
  | c :: t =>
      if is_blank c then app (read r) <$> lex Idle t
      else match punctuation c with
      | Some k => (fun ts => read r ++ k :: ts) <$> lex (after k) t
      | None =>
          match r with
          | Idle =>
              if (c =? 36)%N then lex (InVariable []) t
              else if is_word_char c then lex (InWord [c]) t
              else None
          | Ended =>
              if (c =? 46)%N then lex (InProperty []) t
              else if (c =? 36)%N then lex (InVariable []) t
              else if is_word_char c then lex (InWord [c]) t
              else None
          | InWord w =>
              if is_word_char c then lex (InWord (w ++ [c])) t else None
          | InVariable n =>
              if is_name_char c then lex (InVariable (n ++ [c])) t
              else if (c =? 46)%N then cons (TVariable n) <$> lex (InProperty []) t
              else None
          | InProperty n =>
              if is_name_char c then lex (InProperty (n ++ [c])) t
              else if (c =? 46)%N then cons (TMember n) <$> lex (InProperty []) t
              else None
          end
      end
  end.

Inductive operator := OpLt | OpGt | OpAnd.

(** A command is its name, its words and at most one script block; a
    pipeline feeds its source to a command. *)
Inductive term :=
| Var (name : str)
| Member (e : term) (name : str)
| Index (e : term) (i : Z)
| Binary (op : operator) (a b : term)
| Command (name : str) (words : list str) (block : option term)
| Pipe (source stage : term).

Inductive statement :=
| Assign (name : str) (e : term)
| Write (e : term).

(** A decimal integer, with its sign. *)
Fixpoint digits_value (acc : Z) (s : str) : option Z :=
  match s with
  | [] => Some acc
  | c :: t => if is_digit c then digits_value (10 * acc + (Z.of_N c - 48)) t
              else None
  end.

Definition integer (s : str) : option Z :=
  match s with
  | [] => None
  | [c] => if is_digit c then digits_value 0 s else None
  | c :: t => if (c =? 45)%N then Z.opp <$> digits_value 0 t
              else digits_value 0 s
  end.

(** Comparison binds tighter than [-and]. *)
Definition comparison_operator (w : str) : option operator :=
  if str_eqb w (lit "-lt") then Some OpLt
  else if str_eqb w (lit "-gt") then Some OpGt
  else None.

(** [.name] and [[i]] after an operand. *)
Fixpoint parse_postfix (fuel : nat) (e : term) (ts : list token)
  : option (term * list token) :=
  match fuel with
  | O => None
  | S f =>
      match ts with
      | TMember name :: rest => parse_postfix f (Member e name) rest
      | TLBracket :: TWord w :: TRBracket :: rest =>
          match integer w with
          | Some i => parse_postfix f (Index e i) rest
          | None => None
          end
      | _ => Some (e, ts)
      end
  end.

(** The parser: one function for each level of the grammar, all of them
    on the number of tokens left to read. *)
Fixpoint parse_pipeline (fuel : nat) (ts : list token)
  : option (term * list token) :=
  match fuel with
  | O => None
  | S f =>
      match parse_element f ts with
      | Some (e, rest) => parse_stages f e rest
      | None => None
      end
  end

with parse_stages (fuel : nat) (source : term) (ts : list token)
  : option (term * list token) :=
  match fuel with
  | O => None
  | S f =>
      match ts with
      | TPipe :: rest =>
          match parse_element f rest with
          | Some (stage, rest') => parse_stages f (Pipe source stage) rest'
          | None => None
          end
      | _ => Some (source, ts)
      end
  end

with parse_element (fuel : nat) (ts : list token)
  : option (term * list token) :=
  match fuel with
  | O => None
  | S f =>
      match ts with
      | TWord name :: rest => parse_arguments f name [] None rest
      | _ => parse_logical f ts
      end
  end

with parse_arguments (fuel : nat) (name : str) (words : list str)
    (block : option term) (ts : list token) : option (term * list token) :=
  match fuel with
  | O => None
  | S f =>
      match ts with
      | TWord w :: rest => parse_arguments f name (words ++ [w]) block rest
      | TLBrace :: rest =>
          match block, parse_pipeline f rest with
          | None, Some (body, TRBrace :: rest') =>
              parse_arguments f name words (Some body) rest'
          | _, _ => None
          end
      | _ => Some (Command name words block, ts)
      end
  end

with parse_logical (fuel : nat) (ts : list token)
  : option (term * list token) :=
  match fuel with
  | O => None
  | S f =>
      match parse_comparison f ts with
      | Some (a, rest) => parse_conjuncts f a rest
      | None => None
      end
  end

with parse_conjuncts (fuel : nat) (a : term) (ts : list token)
  : option (term * list token) :=
  match fuel with
  | O => None
  | S f =>
      match ts with
      | TWord w :: rest =>
          if str_eqb w (lit "-and") then
            match parse_comparison f rest with
            | Some (b, rest') => parse_conjuncts f (Binary OpAnd a b) rest'
            | None => None
            end
          else None
      | _ => Some (a, ts)
      end
  end

with parse_comparison (fuel : nat) (ts : list token)
  : option (term * list token) :=
  match fuel with
  | O => None
  | S f =>
      match parse_operand f ts with
      | Some (a, TWord w :: rest) =>
          match comparison_operator w with
          | Some op =>
              match parse_operand f rest with
              | Some (b, rest') => Some (Binary op a b, rest')
              | None => None
              end
          | None => Some (a, TWord w :: rest)
          end
      | other => other
      end
  end

with parse_operand (fuel : nat) (ts : list token)
  : option (term * list token) :=
  match fuel with
  | O => None
  | S f =>
      match ts with
      | TVariable name :: rest => parse_postfix f (Var name) rest
      | TOpen :: rest =>
          match parse_pipeline f rest with
          | Some (e, TClose :: rest') => parse_postfix f e rest'
          | _ => None
          end
      | _ => None
      end
  end.

Definition parse_statement (fuel : nat) (ts : list token)
  : option (statement * list token) :=
  match ts with
  | TVariable name :: TAssign :: rest =>
      match parse_pipeline fuel rest with
      | Some (e, rest') => Some (Assign name e, rest')
      | None => None
      end
  | _ =>
      match parse_pipeline fuel ts with
      | Some (e, rest') => Some (Write e, rest')
      | None => None
      end
  end.

(** Statements, with semicolons between and after them. *)
Fixpoint parse_statements (fuel : nat) (ts : list token)
  : option (list statement) :=
  match fuel with
  | O => None
  | S f =>
      match ts with
      | [] => Some []
      | TSemicolon :: rest => parse_statements f rest
      | _ =>
          match parse_statement (10 * length ts) ts with
          | Some (st, []) => Some [st]
          | Some (st, TSemicolon :: rest) => cons st <$> parse_statements f rest
          | _ => None
          end
      end
  end.

Definition parse (ts : list token) : option (list statement) :=
  parse_statements (S (length ts)) ts.

(** What an expression yields: nothing ([$null]), one object or several,
    as a list. *)
Inductive value :=
| VBool (b : bool)
| VDate (t : Z)
| VText (s : str)
| VCert (c : Certificate).

Definition property (v : value) (name : str) : option value :=
  match v with
  | VCert c =>
      if str_eqb name (lit "FriendlyName") then Some (VText (FriendlyName c))
      else if str_eqb name (lit "Thumbprint") then Some (VText (Thumbprint c))
      else if str_eqb name (lit "Subject") then Some (VText (Subject c))
      else if str_eqb name (lit "NotBefore") then Some (VDate (NotBefore c))
      else if str_eqb name (lit "NotAfter") then Some (VDate (NotAfter c))
      else None
  | _ => None
  end.

Definition date_of (v : value) : option Z :=
  match v with VDate t => Some t | _ => None end.

Definition text_of (v : value) : option str :=
  match v with VText s => Some s | _ => None end.

Definition truth_of (l : list value) : option bool :=
  match l with [VBool b] => Some b | _ => None end.

Definition compare (op : operator) (a b : list value) : option value :=
  match a, b with
  | [VDate x], [VDate y] =>
      match op with
      | OpLt => Some (VBool (x <? y))
      | OpGt => Some (VBool (y <? x))
      | OpAnd => None
      end
  | _, _ => None
  end.

(** [l[i]]: from the end when [i] is negative, nothing out of range. *)
Definition item (l : list value) (i : Z) : list value :=
  let n := if i <? 0 then Z.of_nat (length l) + i else i in
  if n <? 0 then []
  else match l !! Z.to_nat n with Some v => [v] | None => [] end.

(** [-Path p -Recurse -CodeSigningCert], in any order; [p] is a word that
    does not read as a parameter. *)
Fixpoint store_query (words : list str) (path : option str)
    (recurse code_signing : bool) : option str :=
  match words with
  | [] => if recurse && code_signing then path else None
  | w :: rest =>
      if str_eqb w (lit "-Path") then
        match rest, path with
        | (c :: p) :: rest', None =>
            if (c =? 45)%N then None
            else store_query rest' (Some (c :: p)) recurse code_signing
        | _, _ => None
        end
      else if str_eqb w (lit "-Recurse") then
        store_query rest path true code_signing
      else if str_eqb w (lit "-CodeSigningCert") then
        store_query rest path recurse true
      else None
  end.

Definition lookup_variable (name : str) (vars : list (str * list value))
  : list value :=
  match assoc name vars with Some l => l | None => [] end.

Section Run.

(** The machine the command runs on:
    - [store p]: the certificates that
      [Get-ChildItem -Path p -Recurse -CodeSigningCert] finds;
    - [now]: the time [Get-Date] tells, the same all through the command;
    - [sort_by_key]: [Sort-Object] on objects paired with their keys. *)
Variable store : str -> list Certificate.
Variable now : Z.
Variable sort_by_key : list (Z * value) -> list (Z * value).

Fixpoint eval (vars : list (str * list value)) (e : term) {struct e}
  : option (list value) :=
  match e with
  | Var name => Some (lookup_variable name vars)
  | Member a name =>
      l <- eval vars a ;; mapM (fun v => property v name) l
  | Index a i =>
      l <- eval vars a ;;
      match l with [] => None | _ => Some (item l i) end
  | Binary OpAnd a b =>
      x <- eval vars a ;; p <- truth_of x ;;
      if (p : bool) then
        y <- eval vars b ;; q <- truth_of y ;; Some [VBool q]
      else Some [VBool false]
  | Binary op a b =>
      x <- eval vars a ;; y <- eval vars b ;;
      v <- compare op x y ;; Some [v]
  | Command name words block =>
      if str_eqb name (lit "Get-Date") then
        match words, block with
        | [], None => Some [VDate now]
        | _, _ => None
        end
      else if str_eqb name (lit "Get-ChildItem") then
        match block, store_query words None false false with
        | None, Some p => Some (List.map VCert (store p))
        | _, _ => None
        end
      else if str_eqb name [92%N] then
        match words, block with
        | [], None => Some []
        | _, _ => None
        end
      else None
  | Pipe source (Command name words block) =>
      input <- eval vars source ;;
      if str_eqb name (lit "Where-Object") then
        match words, block with
        | [], Some body =>
            kept <- mapM (fun v =>
                      r <- eval ((lit "_", [v]) :: vars) body ;;
                      p <- truth_of r ;; Some (p, v)) input ;;
            Some (List.map snd (List.filter fst kept))
        | _, _ => None
        end
      else if str_eqb name (lit "sort") || str_eqb name (lit "Sort-Object") then
        match words, block with
        | [key], None =>
            keyed <- mapM (fun v =>
                       k <- property v key ;; t <- date_of k ;; Some (t, v))
                     input ;;
            Some (List.map snd (sort_by_key keyed))
        | _, _ => None
        end
      else None
  | Pipe _ _ => None
  end.

(** A statement: the variables after it, and the lines it writes. *)
Definition exec (vars : list (str * list value)) (st : statement)
  : option (list (str * list value) * list str) :=
  match st with
  | Assign name e => l <- eval vars e ;; Some ((name, l) :: vars, [])
  | Write e => l <- eval vars e ;; lines <- mapM text_of l ;; Some (vars, lines)
  end.

Fixpoint exec_all (vars : list (str * list value)) (sts : list statement)
  : option (list str) :=
  match sts with
  | [] => Some []
  | st :: rest =>
      r <- exec vars st ;;
      lines <- exec_all (fst r) rest ;;
      Some (snd r ++ lines)
  end.

(** The lines a command text writes to its standard output. *)
Definition script_lines (cmd : str) : option (list str) :=
  ts <- lex Idle cmd ;; sts <- parse ts ;; exec_all [] sts.

End Run.

End PowerShell.

(** ** A concrete platform

    An executable stand-in for the library functions of [Host], to run the
    script on concrete inputs.  It follows CPython on documents whose
    attribute values and texts are strings and on URIs of the usual
    [scheme://host/path?query#fragment] shape; [repr] and [lower] are
    exact on the ASCII values the examples use ([repr] does not print the
    digits of a float). *)
Module Reference.

Fixpoint repr (v : pyval) : str :=
  match v with
  | PNone => lit "None"
  | PBool true => lit "True"
  | PBool false => lit "False"
  | PInt z => str_of_Z z
  | PFloat _ => lit "<float>"
  | PStr s => lit "'" ++ s ++ lit "'"
  | PList l => lit "[" ++ str_join (lit ", ") (List.map repr l) ++ lit "]"
  | PDict d =>
      lit "{" ++
      str_join (lit ", ")
        (List.map (fun kv => lit "'" ++ fst kv ++ lit "': " ++ repr (snd kv)) d)
      ++ lit "}"
  end.

Definition lower (s : str) : str :=
  List.map (fun c => if ((65 <=? c) && (c <=? 90))%N then (c + 32)%N else c) s.

(** The text before and after the first [c], as [s.split(c, 1)]. *)
Fixpoint cut_at (c : N) (s : str) : str * option str :=
  match s with
  | [] => ([], None)
  | x :: t =>
      if (x =? c)%N then ([], Some t)
      else let (a, b) := cut_at c t in (x :: a, b)
  end.

Definition is_scheme_char (c : N) : bool :=
  ((97 <=? c) && (c <=? 122) || (65 <=? c) && (c <=? 90) ||
   (48 <=? c) && (c <=? 57) || (c =? 43) || (c =? 45) || (c =? 46))%N.

Definition is_alpha (c : N) : bool :=
  ((97 <=? c) && (c <=? 122) || (65 <=? c) && (c <=? 90))%N.

(** The URL without its scheme. *)
Definition drop_scheme (url : str) : str :=
  match cut_at 58 url with
  | (c :: s, Some rest) =>
      if is_alpha c && forallb is_scheme_char s then rest else url
  | _ => url
  end.

(** The URL without its [//authority]. *)
Fixpoint drop_netloc_chars (s : str) : str :=
  match s with
  | [] => []
  | c :: t => if ((c =? 47) || (c =? 63) || (c =? 35))%N then s
              else drop_netloc_chars t
  end.

Definition drop_netloc (url : str) : str :=
  match url with
  | a :: b :: rest =>
      if ((a =? 47) && (b =? 47))%N then drop_netloc_chars rest else url
  | _ => url
  end.

(** The parameters of the last path segment go too ([;type=a]). *)
Definition drop_params (p : str) : str :=
  match last_item (str_split SLASH p) with
  | Some seg =>
      let keep := length p - length seg + length (fst (cut_at 59 seg)) in
      take keep p
  | None => p
  end%nat.

Definition url_path (u : pyval) : result str :=
  match u with
  | PStr url =>
      let rest := drop_netloc (drop_scheme url) in
      let no_fragment := fst (cut_at 35 rest) in
      let no_query := fst (cut_at 63 no_fragment) in
      Ok (drop_params no_query)
  | _ => if truthy u then Raise AttributeError else Raise TypeError
  end.

(** [str()] of an int under the default limit of 4300 digits; the other
    values as [repr] has them. *)
Definition format (v : pyval) : result str :=
  match v with
  | PInt z =>
      if (4300 <? length (str_of_N (Z.abs_N z)))%nat then Raise ValueError
      else Ok (str_of_Z z)
  | _ => Ok (repr v)
  end.

(** [_escape_cdata] and [_escape_attrib]. *)
Definition escape_cdata (s : str) : str :=
  flat_map (fun c =>
    if (c =? 38)%N then lit "&amp;"
    else if (c =? 60)%N then lit "&lt;"
    else if (c =? 62)%N then lit "&gt;"
    else [c]) s.

Definition escape_attrib (s : str) : str :=
  flat_map (fun c =>
    if (c =? 38)%N then lit "&amp;"
    else if (c =? 60)%N then lit "&lt;"
    else if (c =? 62)%N then lit "&gt;"
    else if (c =? 34)%N then lit "&quot;"
    else if (c =? 13)%N then lit "&#13;"
    else if (c =? 10)%N then lit "&#10;"
    else if (c =? 9)%N then lit "&#09;"
    else [c]) s.

Definition QUOTE : N := 34.

(** Serialized text so far, and the exception that stopped it. *)
Definition out := (str * option exn)%type.

Definition and_then (a : out) (k : out) : out :=
  match a with
  | (s, None) => (s ++ fst k, snd k)
  | (s, Some e) => (s, Some e)
  end.

Definition emit_text (v : pyval) : out :=
  if truthy v then
    match v with
    | PStr s => (escape_cdata s, None)
    | _ => ([], Some TypeError)
    end
  else ([], None).

Fixpoint emit_attrs (items : list (str * pyval)) : out :=
  match items with
  | [] => ([], None)
  | (k, v) :: rest =>
      match v with
      | PStr s =>
          and_then (lit " " ++ k ++ lit "=" ++ [QUOTE] ++ escape_attrib s ++
                    [QUOTE], None)
                   (emit_attrs rest)
      | _ => ([], Some TypeError)
      end
  end.

(** [_serialize_xml]. *)
Fixpoint serialize_xml (e : Element) : out :=
  let fix go (cs : list Element) : out :=
    match cs with
    | [] => ([], None)
    | c :: rest => and_then (serialize_xml c) (go rest)
    end in
  and_then (lit "<" ++ tag e, None)
  (and_then (emit_attrs (attrib e))
  (and_then
     (if truthy (text e) || match children e with [] => false | _ => true end
      then and_then (lit ">", None)
           (and_then (emit_text (text e))
           (and_then (go (children e))
                     (lit "</" ++ tag e ++ lit ">", None)))
      else (lit " />", None))
     (emit_text (tail e)))).

(** UTF-8 with [errors="xmlcharrefreplace"]. *)
Definition encode_xml (s : str) : bytes :=
  utf8_encode (flat_map (fun c =>
    if is_scalar c then [c] else lit "&#" ++ str_of_N c ++ lit ";") s).

Definition write (doc : Element) : bytes * option exn :=
  let r := and_then (lit "<?xml version='1.0' encoding='utf-8'?>" ++ [LF], None)
                    (serialize_xml doc) in
  (encode_xml (fst r), snd r).

#[global] Instance host : Host := {|
  py_repr := repr;
  py_format := format;
  str_lower := lower;
  urlparse_path := url_path;
  et_write := write
|}.

End Reference.

(** * Vocabulary of the specification *)

(** [w'] comes from [w] by touching only paths in [P] and doing only
    events in [Q]. *)
Definition extends (P : Path -> Prop) (Q : event -> Prop) (w w' : World)
  : Prop :=
  (forall p, ~ P p -> files w' !! p = files w !! p) /\
  exists evs, trace w' = trace w ++ evs /\ Forall Q evs.

(** Whatever the start and the outcome, [m] stays within [P] and [Q]. *)
Definition changes {A} (P : Path -> Prop) (Q : event -> Prop) (m : M A)
  : Prop :=
  forall w, extends P Q w (m w).2.

(** Events of the staging phase: nothing of a document is written. *)
Definition staging_event (e : event) : Prop :=
  match e with
  | EPrint _ | EMkdir _ | ECopy _ _ => True
  | _ => False
  end.

(** The paths the logo staging may touch below the destination. *)
Definition staged (dest p : Path) : Prop :=
  p = dest ++ [lit "msix_assets"] \/
  p = dest ++ [lit "msix_assets"; lit "logo_44x44.png"] \/
  p = dest ++ [lit "msix_assets"; lit "logo_150x150.png"].

(** The bytes the padding step appends to a file of [n] bytes. *)
Definition padding (n : nat) : bytes := x0a :: replicate (4095 - n) x20.

(** The message of the failed size assertion. *)
Definition limit_message : str :=
  lit "AppInstaller file size is larger than the 4096B limit".

(** What became of a descriptor whose document reached the file [p]. *)
Definition descriptor_outcome `{Host} (doc : Element) (p : Path) (r : result unit)
    (w' : World) : Prop :=
  let xml := (et_write doc).1 in
  match (et_write doc).2 with
  | Some e => r = Raise e /\ files w' !! p = Some (File xml)
  | None =>
      if (length xml <? 4096)%nat
      then r = Ok tt /\
           files w' !! p = Some (File (xml ++ padding (length xml)))
      else r = Raise (AssertionError limit_message) /\
           files w' !! p = Some (File xml)
  end.

(** The paths the emit phase may touch. *)
Definition emitted `{Host} (args : Args) (inst : MsixInstaller) (p : Path)
  : Prop :=
  let dest := parse_path (destination_dir args) in
  (no_manifest args = false /\
   p = path_join dest (lit "AppxManifest.xml")) \/
  (gen_installer args = true /\
   exists up, urlparse_path (installer_uri inst) = Ok up /\
              p = installer_path dest up).

(** The store path the query is run on. *)
Definition store_path (args : Args) : str :=
  match given (cert_path args) with
  | Some p => p
  | None => lit "Cert:\LocalMachine\*"
  end.

(** [doc.find("Identity").get("Publisher")]. *)
Definition publisher_attr (doc : Element) : option pyval :=
  match et_find (lit "Identity") doc with
  | Some identity => et_get (lit "Publisher") identity
  | None => None
  end.

(** [doc.find("Applications").find("Application").get("Id")]. *)
Definition application_id (doc : Element) : option pyval :=
  match et_find (lit "Applications") doc with
  | Some applications =>
      match et_find (lit "Application") applications with
      | Some application => et_get (lit "Id") application
      | None => None
      end
  | None => None
  end.

(** The [AutomaticBackgroundTask] elements under [UpdateSettings], each
    as its attributes, text and children. *)
Definition background_task_elements (doc : Element)
  : list (list (str * pyval) * pyval * list Element) :=
  match et_find (lit "UpdateSettings") doc with
  | Some update_settings =>
      List.map (fun e => (attrib e, text e, children e))
               (et_findall (lit "AutomaticBackgroundTask") update_settings)
  | None => []
  end.

(** [v] is a dict with the key [k]. *)
Definition has_key (v : pyval) (k : str) : bool :=
  match getitem v k with Ok _ => true | Raise _ => false end.

(** The [AppInstaller] section is there, with [Version], [Uri],
    [MainPackage.Uri] and [UpdateSettings]. *)
Definition installer_section_complete (doc : pyval) : bool :=
  match getitem doc (lit "AppInstaller") with
  | Ok im =>
      has_key im (lit "Version") && has_key im (lit "Uri") &&
      match getitem im (lit "MainPackage") with
      | Ok mp => has_key mp (lit "Uri")
      | Raise _ => false
      end &&
      has_key im (lit "UpdateSettings")
  | Raise _ => false
  end.

(** A name of a parsed path: not empty, not ["."], without a slash. *)
Definition plain_name (n : str) : Prop :=
  (SLASH ∉ n) /\ n <> [] /\ n <> [DOT].

(** The file name of the installer descriptor, read off the manifest:
    the last path segment of [AppInstaller.Uri]. *)
Definition descriptor_name `{Host} (args : Args) (env : Env) : option str :=
  match
    (doc <- json_load env (manifest args) ;;
     uri <- getitem2 doc (lit "AppInstaller") (lit "Uri") ;;
     up <- urlparse_path uri ;;
     mret (path_name (parse_path up)))
  with
  | Ok n => Some n
  | Raise _ => None
  end.

(** Events that only write to the console. *)
Definition console_event (e : event) : Prop :=
  match e with
  | EPrint _ => True
  | _ => False
  end.

(** The last line the script prints. *)
Definition completed_line : str := lit "Completed Successfully!" ++ [LF].

(** [doc.find(child).get(key)]. *)
Definition child_attr (child key : str) (doc : Element) : option pyval :=
  match et_find child doc with
  | Some e => et_get key e
  | None => None
  end.

(** How a document names the package: the [Name], [Version], [Publisher]
    and [ProcessorArchitecture] of the manifest's [Identity], or of the
    descriptor's [MainPackage]. *)
Definition package_identity (doc : Element) : list (option pyval) :=
  let element :=
    if str_eqb (tag doc) (lit "Package")
    then lit "Identity" else lit "MainPackage" in
  [child_attr element (lit "Name") doc;
   child_attr element (lit "Version") doc;
   child_attr element (lit "Publisher") doc;
   child_attr element (lit "ProcessorArchitecture") doc].

(** The [ForceUpdateFromAnyVersion] elements under [UpdateSettings], each
    as its attributes, text and children. *)
Definition force_update_elements (doc : Element)
  : list (list (str * pyval) * pyval * list Element) :=
  match et_find (lit "UpdateSettings") doc with
  | Some update_settings =>
      List.map (fun e => (attrib e, text e, children e))
               (et_findall (lit "ForceUpdateFromAnyVersion") update_settings)
  | None => []
  end.

(** [v] is a dict with an entry under the first key, whose value is a
    dict with an entry under the next key, and so on. *)
Fixpoint has_entry (v : pyval) (keys : list str) {struct keys} : bool :=
  match keys with
  | [] => true
  | k :: rest =>
      match v with
      | PDict d =>
          existsb (fun kv => str_eqb (fst kv) k && has_entry (snd kv) rest) d
      | _ => false
      end
  end.

(** The values the installer spec is made of, each by its keys below
    [AppInstaller]. *)
Definition installer_value_paths : list (list str) :=
  [[lit "Version"];
   [lit "Uri"];
   [lit "MainPackage"; lit "Uri"];
   [lit "UpdateSettings"; lit "OnLaunch"; lit "HoursBetweenUpdateChecks"];
   [lit "UpdateSettings"; lit "OnLaunch"; lit "ShowPrompt"];
   [lit "UpdateSettings"; lit "OnLaunch"; lit "UpdateBlocksActivation"];
   [lit "UpdateSettings"; lit "AutomaticBackgroundTask"];
   [lit "UpdateSettings"; lit "ForceUpdateFromAnyVersion"]].

(** The two logo files the package needs, below a directory. *)
Definition logo_44 (dir : Path) : Path := dir ++ [lit "logo_44x44.png"].
Definition logo_150 (dir : Path) : Path := dir ++ [lit "logo_150x150.png"].

(** The logo files a manifest document refers to: the text of
    [Properties/Logo], then the [Square150x150Logo] and [Square44x44Logo]
    attributes of [Applications/Application/uap:VisualElements]. *)
Definition visual_elements (doc : Element) : option Element :=
  match et_find (lit "Applications") doc with
  | Some applications =>
      match et_find (lit "Application") applications with
      | Some application => et_find (lit "uap:VisualElements") application
      | None => None
      end
  | None => None
  end.

Definition logo_references (doc : Element) : list (option pyval) :=
  [match et_find (lit "Properties") doc with
   | Some properties =>
       match et_find (lit "Logo") properties with
       | Some e => Some (text e)
       | None => None
       end
   | None => None
   end;
   match visual_elements doc with
   | Some v => et_get (lit "Square150x150Logo") v
   | None => None
   end;
   match visual_elements doc with
   | Some v => et_get (lit "Square44x44Logo") v
   | None => None
   end].

(** [Sort-Object] puts the objects in the order of their keys; objects
    with equal keys may come in any order. *)
Definition sorts (sort_by_key : list (Z * PowerShell.value) ->
                                list (Z * PowerShell.value)) : Prop :=
  forall l, sort_by_key l ≡ₚ l /\
            StronglySorted (fun a b => fst a <= fst b) (sort_by_key l).

(** A store path that is one bare word of the command: letters, digits
    and [_ - . : * \ /], not starting like a parameter. *)
Definition plain_path (p : str) : Prop :=
  match p with
  | [] => False
  | c :: _ => c <> 45%N /\ Forall (fun c => PowerShell.is_word_char c = true) p
  end.

(** [powershell.exe ... -Command cmd]: the command text. *)
Fixpoint command_line (argv : list str) : option str :=
  match argv with
  | [] => None
  | a :: rest =>
      if str_eqb a (lit "-Command") then
        match rest with [cmd] => Some cmd | _ => None end
      else command_line rest
  end.

(** The child process was PowerShell on a machine with this certificate
    store and clock: it ran the command text of [argv] to its end, ended
    with status 0, and what was captured of its output decodes to the
    lines the command wrote. *)
Definition powershell_ran (env : Env) (store : str -> list Certificate)
    (now : Z) (sort_by_key : list (Z * PowerShell.value) ->
                             list (Z * PowerShell.value))
    (argv : list str) : Prop :=
  exists cmd out text,
    command_line argv = Some cmd /\
    subprocess_run env argv = Exited 0 out /\
    utf8_decode out = Some text /\
    PowerShell.script_lines store now sort_by_key cmd
      = Some (str_splitlines text).

(** The statements the command text is made of, for a store path that is
    one bare word. *)
Definition cert_statements (path : str) : list PowerShell.statement :=
  let get_date := PowerShell.Command (lit "Get-Date") [] None in
  let this := PowerShell.Var (lit "_") in
  let cert := PowerShell.Var (lit "cert") in
  [PowerShell.Write (PowerShell.Command (lit "\") [] None);
   PowerShell.Assign (lit "certs")
     (PowerShell.Command (lit "Get-ChildItem")
        [lit "-Path"; path; lit "-Recurse"; lit "-CodeSigningCert"] None);
   PowerShell.Assign (lit "filter_valid_certs")
     (PowerShell.Pipe (PowerShell.Var (lit "certs"))
        (PowerShell.Command (lit "Where-Object") []
           (Some (PowerShell.Binary PowerShell.OpAnd
                    (PowerShell.Binary PowerShell.OpLt
                       (PowerShell.Member this (lit "NotBefore")) get_date)
                    (PowerShell.Binary PowerShell.OpGt
                       (PowerShell.Member this (lit "NotAfter")) get_date)))));
   PowerShell.Assign (lit "cert")
     (PowerShell.Index
        (PowerShell.Pipe (PowerShell.Var (lit "filter_valid_certs"))
           (PowerShell.Command (lit "sort") [lit "NotAfter"] None))
        (-1));
   PowerShell.Write (PowerShell.Member cert (lit "FriendlyName"));
   PowerShell.Write (PowerShell.Member cert (lit "Thumbprint"));
   PowerShell.Write (PowerShell.Member cert (lit "Subject"))].

(** The test of the filter block: active before [now], expiring after. *)
Definition in_window (now : Z) (c : Certificate) : bool :=
  (NotBefore c <? now) && (now <? NotAfter c).

(** ** Concrete runs *)
Module Example.

Import Reference.

Definition dict (items : list (string * pyval)) : pyval :=
  PDict (List.map (fun kv => (lit (fst kv), snd kv)) items).

Definition text (s : string) : pyval := PStr (lit s).

Definition app_manifest (app_name : string) : pyval :=
  dict [("Identity"%string,
          dict [("Name"%string, text app_name); ("Arch"%string, text "x64")]);
        ("Properties"%string,
          dict [("DisplayName"%string, text "Tool");
                ("Description"%string, text "A tool");
                ("PublisherDisplayName"%string, text "Contoso")]);
        ("Application"%string, dict [("EntryPoint"%string, text "tool.exe")]);
        ("VisualElements"%string,
          dict [("BackgroundColor"%string, text "transparent")]);
        ("Dependencies"%string,
          dict [("MinVersion"%string, text "10.0.17763.0");
                ("MaxVersionTested"%string, text "10.0.22621.0")])].

Definition app_installer (uri : pyval) (package_uri : pyval)
    (background : bool) : pyval :=
  dict [("Version"%string, text "1.0.0.0");
        ("Uri"%string, uri);
        ("MainPackage"%string, dict [("Uri"%string, package_uri)]);
        ("UpdateSettings"%string,
          dict [("OnLaunch"%string,
                  dict [("HoursBetweenUpdateChecks"%string, PInt 12);
                        ("ShowPrompt"%string, PBool true);
                        ("UpdateBlocksActivation"%string, PBool false)]);
                ("AutomaticBackgroundTask"%string, PBool background);
                ("ForceUpdateFromAnyVersion"%string, PBool false)])].

Definition document (uri package_uri : pyval) : pyval :=
  dict [("AppManifest"%string, app_manifest "Contoso.App.Tool");
        ("AppInstaller"%string, app_installer uri package_uri true)].

Definition tool_document : pyval :=
  document (text "https://example.com/dl/Tool.appinstaller")
           (text "https://example.com/dl/Tool.msix").

(** A package URI long enough to push the descriptor past the limit. *)
Definition long_document : pyval :=
  document (text "https://example.com/dl/Tool.appinstaller")
           (PStr (lit "https://example.com/" ++ replicate 4100 97%N)).

(** An installer whose own file name is that of the package manifest. *)
Definition clash_document : pyval :=
  document (text "https://example.com/AppxManifest.xml")
           (text "https://example.com/dl/Tool.msix").

(** A manifest with no installer section. *)
Definition bare_document : pyval :=
  dict [("AppManifest"%string, app_manifest "Contoso.App.Tool")].

Definition args (skip_manifest installer : bool) : Args :=
  mkArgs (lit "out") (lit "1.2.3.0") (lit "manifest.json") (lit "logos")
         None None skip_manifest installer.

Definition certs : list Certificate :=
  [mkCertificate (lit "Old") (lit "AA01") (lit "CN=Old") 100 200;
   mkCertificate (lit "Late") (lit "AA02") (lit "CN=Late") 150 900;
   mkCertificate (lit "Mid") (lit "AA03") (lit "CN=Mid") 150 500;
   mkCertificate (lit "Future") (lit "AA04") (lit "CN=Future") 400 999].

Definition store (_ : str) : list Certificate := certs.

(** [Sort-Object], as an insertion sort on the keys. *)
Fixpoint insert_by_key (x : Z * PowerShell.value)
    (l : list (Z * PowerShell.value)) : list (Z * PowerShell.value) :=
  match l with
  | [] => [x]
  | y :: rest =>
      if fst x <? fst y then x :: l else y :: insert_by_key x rest
  end.

Definition sort_by_key (l : list (Z * PowerShell.value))
  : list (Z * PowerShell.value) :=
  List.fold_right insert_by_key [] l.

(** A [powershell.exe] for the examples: it runs the command text on the
    certificates above at the time [now], and writes the lines in UTF-8,
    each ended by CR LF. *)
Definition powershell_exe (now : Z) (argv : list str) : process :=
  match
    command_line argv ≫= PowerShell.script_lines store now sort_by_key
  with
  | Some lines =>
      Exited 0 (utf8_encode (flat_map (fun l => l ++ [CR; LF]) lines))
  | None => Exited 1 []
  end.

Definition env (doc : pyval) : Env :=
  mkEnv (fun _ => Ok doc) (powershell_exe 300).

Definition logos : gmap Path node :=
  <[ [lit "out"] := Dir ]>
  (<[ [lit "logos"] := Dir ]>
  (<[ [lit "logos"; lit "logo_44x44.png"] := File [x01; x02] ]>
  (<[ [lit "logos"; lit "logo_150x150.png"] := File [x03] ]> ∅))).

(** The same, with an [AppxManifest.xml] from an earlier run. *)
Definition logos_and_manifest : gmap Path node :=
  <[ [lit "out"; lit "AppxManifest.xml"] := File [x41] ]> logos.

(** A destination directory and nothing else. *)
Definition no_logos : gmap Path node := <[ [lit "out"] := Dir ]> ∅.

Definition indented (r : result Element) : Element :=
  match r with
  | Ok root =>
      match et_indent root with
      | Ok doc => doc
      | Raise _ => mkElement [] [] PNone PNone []
      end
  | Raise _ => mkElement [] [] PNone PNone []
  end.

(** The documents the runs below write. *)
Definition tool_app : MsixApplication :=
  mkMsixApplication (PStr (lit "Contoso.App.Tool")) (PStr (lit "Tool"))
    (PStr (lit "A tool")) (lit "1.2.3.0") (mkCodeSigningCert (lit "CN=Late"))
    (PStr (lit "x64"))
    (mkAppLogo (lit "msix_assets/logo_44x44.png")
               (lit "msix_assets/logo_150x150.png") (PStr (lit "transparent")))
    (PStr (lit "tool.exe")) (PStr (lit "Contoso")) (PStr (lit "10.0.17763.0"))
    (PStr (lit "10.0.22621.0")).

Definition installer_of (doc : pyval) : MsixInstaller :=
  match getitem doc (lit "AppInstaller") with
  | Ok im =>
      match load_installer im with
      | Ok i => i
      | Raise _ => mkMsixInstaller PNone PNone PNone PNone PNone PNone PNone PNone
      end
  | Raise _ => mkMsixInstaller PNone PNone PNone PNone PNone PNone PNone PNone
  end.

Definition tool_manifest_xml : Element :=
  Eval vm_compute in indented (gen_appx_manifest tool_app).

Definition tool_descriptor : Element :=
  Eval vm_compute in
    indented (gen_appx_installer (args false true) tool_app
                                 (installer_of tool_document)).

Definition long_descriptor : Element :=
  Eval vm_compute in
    indented (gen_appx_installer (args false true) tool_app
                                 (installer_of long_document)).

(** The runs themselves. *)
Definition tool_run : result unit * World :=
  run (H:=host) (args false true) (env tool_document) logos.

Definition tool_xml : bytes := (write tool_descriptor).1.

Definition long_run : result unit * World :=
  run (H:=host) (args false true) (env long_document) logos.

Definition long_xml : bytes := (write long_descriptor).1.

Definition skipping_run : result unit * World :=
  run (H:=host) (args true true) (env tool_document) logos_and_manifest.

Definition clash_run : result unit * World :=
  run (H:=host) (args true true) (env clash_document) logos_and_manifest.

Definition no_logos_run : result unit * World :=
  run (H:=host) (args false true) (env tool_document) no_logos.

Definition bare_run : result unit * World :=
  run (H:=host) (args false false) (env bare_document) logos.

(** An invocation that names the certificate subject itself. *)
Definition signed_args : Args :=
  mkArgs (lit "out") (lit "1.2.3.0") (lit "manifest.json") (lit "logos")
         (Some (lit "CN=Contoso")) None false true.

(** A machine on which no child process starts. *)
Definition offline_env (doc : pyval) : Env :=
  mkEnv (fun _ => Ok doc) (fun _ => NotStarted FileNotFoundError).

(** A machine whose PowerShell ends with a non-zero status. *)
Definition failing_env (doc : pyval) : Env :=
  mkEnv (fun _ => Ok doc) (fun _ => Exited 1 []).

(** The logo directory is the package's own assets directory. *)
Definition restaging_args : Args :=
  mkArgs (lit "out") (lit "1.2.3.0") (lit "manifest.json")
         (lit "out/msix_assets") None None false true.

Definition staged_logos : gmap Path node :=
  <[ [lit "out"; lit "msix_assets"] := Dir ]>
  (<[ [lit "out"; lit "msix_assets"; lit "logo_44x44.png"] := File [x01] ]>
  (<[ [lit "out"; lit "msix_assets"; lit "logo_150x150.png"] := File [x03] ]>
   no_logos)).

(** The logos, but no destination directory. *)
Definition no_destination : gmap Path node :=
  <[ [lit "logos"] := Dir ]>
  (<[ [lit "logos"; lit "logo_44x44.png"] := File [x01; x02] ]>
  (<[ [lit "logos"; lit "logo_150x150.png"] := File [x03] ]> ∅)).

(** An app whose name is not a string. *)
Definition unnamed_app : MsixApplication :=
  mkMsixApplication (PInt 7) (PStr (lit "Tool"))
    (PStr (lit "A tool")) (lit "1.2.3.0") (mkCodeSigningCert (lit "CN=Late"))
    (PStr (lit "x64"))
    (mkAppLogo (lit "msix_assets/logo_44x44.png")
               (lit "msix_assets/logo_150x150.png") (PStr (lit "transparent")))
    (PStr (lit "tool.exe")) (PStr (lit "Contoso")) (PStr (lit "10.0.17763.0"))
    (PStr (lit "10.0.22621.0")).

(** An installer address that names no file. *)
Definition nameless_document : pyval :=
  document (text "https://example.com/")
           (text "https://example.com/dl/Tool.msix").

(** A package address that is a number, which the serializer refuses. *)
Definition numeric_document : pyval :=
  document (text "https://example.com/dl/Tool.appinstaller") (PInt 7).

Definition numeric_descriptor : Element :=
  Eval vm_compute in
    indented (gen_appx_installer (args false true) tool_app
                                 (installer_of numeric_document)).

Definition signed_run : result unit * World :=
  run (H:=host) signed_args (env tool_document) logos.

Definition failing_run : result unit * World :=
  run (H:=host) (args false true) (failing_env tool_document) logos.

Definition restaging_run : result unit * World :=
  run (H:=host) restaging_args (env tool_document) staged_logos.

Definition no_destination_run : result unit * World :=
  run (H:=host) (args false true) (env tool_document) no_destination.

Definition manifest_only_run : result unit * World :=
  run (H:=host) (args false false) (env tool_document) logos.

Definition nameless_run : result unit * World :=
  run (H:=host) (args false true) (env nameless_document) logos.

(** A manifest whose installer section has no [ForceUpdateFromAnyVersion]. *)
Definition flagless_document : pyval :=
  dict [("AppManifest"%string, app_manifest "Contoso.App.Tool");
        ("AppInstaller"%string,
          dict [("Version"%string, text "1.0.0.0");
                ("Uri"%string, text "https://example.com/dl/Tool.appinstaller");
                ("MainPackage"%string,
                  dict [("Uri"%string, text "https://example.com/dl/Tool.msix")]);
                ("UpdateSettings"%string,
                  dict [("OnLaunch"%string,
                          dict [("HoursBetweenUpdateChecks"%string, PInt 12);
                                ("ShowPrompt"%string, PBool true);
                                ("UpdateBlocksActivation"%string, PBool false)]);
                        ("AutomaticBackgroundTask"%string, PBool true)])])].

Definition numeric_run : result unit * World :=
  run (H:=host) (args false true) (env numeric_document) logos.

Definition flagless_run : result unit * World :=
  run (H:=host) (args false false) (env flagless_document) logos.

End Example.

(** * Proofs *)

(** *** Text *)

Lemma str_eqb_true (a b : str) : str_eqb a b = true <-> a = b.
Proof. unfold str_eqb. apply bool_decide_eq_true. Qed.

Lemma str_eqb_false (a b : str) : str_eqb a b = false <-> a <> b.
Proof. unfold str_eqb. apply bool_decide_eq_false. Qed.

Lemma str_eqb_refl (a : str) : str_eqb a a = true.
Proof. by apply str_eqb_true. Qed.

Lemma str_split_from_last (c : N) (s : str) : forall field,
  c ∉ field ->
  exists seg, last (str_split_from c field s) = Some seg /\ (c ∉ seg) /\
    (field ++ s = seg \/ exists pre, field ++ s = pre ++ c :: seg).
Proof.
  induction s as [|x t IH]; intros field Hf; simpl.
  - exists field. rewrite app_nil_r. auto.
  - destruct (N.eqb_spec x c) as [->|Hx].
    + destruct (IH [] ltac:(apply not_elem_of_nil)) as (seg & Hl & Hs & Hd).
      exists seg. split; [|split; [done|]].
      * rewrite last_cons, Hl. done.
      * right. simpl in Hd. destruct Hd as [<-|[pre ->]].
        -- by exists field.
        -- exists (field ++ c :: pre). by rewrite <- app_assoc.
    + destruct (IH (field ++ [x])) as (seg & Hl & Hs & Hd).
      { rewrite elem_of_app, list_elem_of_singleton. intros [?|?]; [done|congruence]. }
      exists seg. rewrite <- app_assoc in Hd. simpl in Hd. auto.
Qed.

Lemma split_last_PStr (s : str) :
  exists seg, split_last DOT (PStr s) = Ok (PStr seg) /\ (DOT ∉ seg) /\
    (s = seg \/ exists pre, s = pre ++ DOT :: seg).
Proof.
  destruct (str_split_from_last DOT s [] ltac:(apply not_elem_of_nil))
    as (seg & Hl & Hs & Hd).
  exists seg. unfold split_last, last_item, str_split. rewrite Hl. auto.
Qed.

#[local] Ltac Zify.zify_post_hook ::= Z.to_euclidean_division_equations.

(** *** Runs *)

Lemma M_bind_unfold {A B} (m : M A) (k : A -> M B) (w : World) :
  (x <- m ;; k x) w =
  match m w with
  | (Ok a, w1) => k a w1
  | (Raise e, w1) => (Raise e, w1)
  end.
Proof. reflexivity. Qed.

Lemma M_bind_Ok {A B} (m : M A) (k : A -> M B) (w w' : World) (b : B) :
  (x <- m ;; k x) w = (Ok b, w') ->
  exists a w1, m w = (Ok a, w1) /\ k a w1 = (Ok b, w').
Proof.
  rewrite M_bind_unfold. destruct (m w) as [[a|e] w1]; [|done]. eauto.
Qed.

Lemma result_bind_Ok {A B} (m : result A) (k : A -> result B) (b : B) :
  (x <- m ;; k x) = Ok b -> exists a, m = Ok a /\ k a = Ok b.
Proof. destruct m as [a|e]; [|done]. eauto. Qed.

Lemma lift_Ok {A} (r : result A) (w w' : World) (a : A) :
  lift r w = (Ok a, w') -> r = Ok a /\ w' = w.
Proof. unfold lift. by intros [= -> ->]. Qed.

Lemma extends_refl P Q w : extends P Q w w.
Proof. split; [done|]. exists []. by rewrite app_nil_r. Qed.

Lemma extends_trans P Q w1 w2 w3 :
  extends P Q w1 w2 -> extends P Q w2 w3 -> extends P Q w1 w3.
Proof.
  intros [Hf (evs & Ht & Hq)] [Hf' (evs' & Ht' & Hq')]. split.
  - intros p Hp. by rewrite Hf', Hf.
  - exists (evs ++ evs'). rewrite Ht', Ht, app_assoc.
    split; [done|]. by apply Forall_app.
Qed.

Lemma changes_weaken {A} (P P' : Path -> Prop) (Q Q' : event -> Prop)
    (m : M A) :
  (forall p, P p -> P' p) -> (forall e, Q e -> Q' e) ->
  changes P Q m -> changes P' Q' m.
Proof.
  intros HP HQ Hm w. destruct (Hm w) as [Hf (evs & Ht & Hq)]. split.
  - intros p Hp. apply Hf. auto.
  - exists evs. split; [done|]. eapply Forall_impl; eauto.
Qed.

Lemma changes_ret {A} P Q (a : A) : changes P Q (mret a).
Proof. intros w. apply extends_refl. Qed.

Lemma changes_lift {A} P Q (r : result A) : changes P Q (lift r).
Proof. intros w. apply extends_refl. Qed.

Lemma changes_raise {A} P Q (e : exn) : changes P Q (raise (A:=A) e).
Proof. intros w. apply extends_refl. Qed.

Lemma changes_get_files P Q : changes P Q get_files.
Proof. intros w. apply extends_refl. Qed.

Lemma changes_assert P Q (c : bool) (msg : str) : changes P Q (assert_ c msg).
Proof. destruct c; [apply changes_ret|apply changes_raise]. Qed.

Lemma changes_emit (P : Path -> Prop) (Q : event -> Prop) (e : event) :
  Q e -> changes P Q (emit e).
Proof.
  intros He w. split; [done|]. exists [e]. split; [done|]. by constructor.
Qed.

Lemma changes_bind {A B} P Q (m : M A) (k : A -> M B) :
  changes P Q m ->
  (forall a w w1, m w = (Ok a, w1) -> changes P Q (k a)) ->
  changes P Q (x <- m ;; k x).
Proof.
  intros Hm Hk w. rewrite M_bind_unfold. specialize (Hm w).
  destruct (m w) as [[a|e] w1] eqn:E; [|done].
  eapply extends_trans; [exact Hm|]. by eapply Hk.
Qed.

(** Replacing the node at [p] and recording [e]. *)
Lemma changes_put (P : Path -> Prop) (Q : event -> Prop) p n e fs :
  P p -> Q e ->
  forall w, files w = fs ->
  extends P Q w ((put_files (<[p := n]> fs) ;; emit e) w).2.
Proof.
  intros Hp He w <-. split; simpl.
  - intros q Hq. apply lookup_insert_ne. by intros ->.
  - exists [e]. split; [done|]. by constructor.
Qed.

Lemma changes_mkdir (P : Path -> Prop) (Q : event -> Prop) p :
  P p -> Q (EMkdir p) -> changes P Q (mkdir_exist_ok p).
Proof.
  intros Hp He w. unfold mkdir_exist_ok. rewrite M_bind_unfold. simpl.
  destruct (fs_node (files w) p) as [[|]|]; try apply extends_refl.
  destruct (fs_node (files w) (path_parent p)) as [[|]|];
    try apply extends_refl.
  by apply changes_put.
Qed.

Lemma changes_copy (P : Path -> Prop) (Q : event -> Prop) src dst :
  P dst -> P (dst ++ [path_name src]) -> (forall t, Q (ECopy src t)) ->
  changes P Q (shutil_copy src dst).
Proof.
  intros Hd Hn He w. unfold shutil_copy. rewrite M_bind_unfold. simpl.
  set (target := if is_dir (files w) dst then _ else _).
  assert (P target) by (subst target; by destruct (is_dir _ _)).
  destruct (bool_decide _ && _); [apply extends_refl|].
  destruct (fs_node (files w) src) as [[|]|]; try apply extends_refl.
  destruct (open_w_error (files w) target); [apply extends_refl|].
  by apply changes_put.
Qed.

Lemma changes_unlink (P : Path -> Prop) (Q : event -> Prop) p :
  P p -> Q (EUnlink p) -> changes P Q (unlink_missing_ok p).
Proof.
  intros Hp He w. unfold unlink_missing_ok. rewrite M_bind_unfold. simpl.
  destruct (fs_node (files w) p) as [[|]|]; try apply extends_refl.
  split; simpl.
  - intros q Hq. apply lookup_delete_ne. by intros ->.
  - exists [EUnlink p]. split; [done|]. by constructor.
Qed.

Ltac changes_step :=
  lazymatch goal with
  | |- changes _ _ (mbind _ _) => apply changes_bind; [|intros ? ? ? ?]
  | |- changes _ _ (mret _) => apply changes_ret
  | |- changes _ _ (lift _) => apply changes_lift
  | |- changes _ _ (raise _) => apply changes_raise
  | |- changes _ _ get_files => apply changes_get_files
  | |- changes _ _ (assert_ _ _) => apply changes_assert
  | |- changes _ _ (print _) => apply changes_emit; simpl; auto
  | |- changes _ _ (emit _) => apply changes_emit; simpl; auto
  | |- changes _ _ (match ?x with _ => _ end) => destruct x eqn:?
  end.

Lemma path_join_literal (p : Path) (s : str) :
  parse_path s = [s] -> str_eqb s [SLASH] = false -> path_join p s = p ++ [s].
Proof. unfold path_join. by intros -> ->. Qed.

Lemma path_name_snoc (p : Path) (s : str) :
  str_eqb s [SLASH] = false -> path_name (p ++ [s]) = s.
Proof. unfold path_name, last_item. rewrite last_snoc. by intros ->. Qed.

Section Frames.

Context {host : Host}.
Variable parsed_args : Args.
Variable env : Env.

Let dest := parse_path (destination_dir parsed_args).

Lemma changes_run_checked P Q argv : changes P Q (run_checked env argv).
Proof. unfold run_checked. repeat changes_step. Qed.

Lemma changes_get_cert_subject P :
  changes P staging_event (get_cert_subject parsed_args env).
Proof.
  unfold get_cert_subject. changes_step; [changes_step|].
  changes_step; [apply changes_run_checked|]. repeat changes_step.
Qed.

Lemma changes_check_and_copy_logo (dir : Path) (name : str) :
  str_eqb name [SLASH] = false -> parse_path name = [name] ->
  staged dest (dest ++ [lit "msix_assets"; name]) ->
  changes (staged dest) staging_event
    (check_and_copy_logo (dest ++ [lit "msix_assets"]) (path_join dir name)).
Proof.
  intros Hn Hp Hs. unfold check_and_copy_logo. repeat changes_step.
  apply changes_copy.
  - by left.
  - rewrite path_join_literal, path_name_snoc, <- app_assoc by done. done.
  - done.
Qed.

Lemma changes_setup_app_logos (dir : Path) (bg : pyval) :
  changes (staged dest) staging_event (setup_app_logos parsed_args dir bg).
Proof.
  unfold setup_app_logos.
  rewrite (path_join_literal _ (lit "msix_assets")) by done.
  changes_step; [apply changes_mkdir; [by left|done]|].
  repeat changes_step.
  - apply changes_check_and_copy_logo; [done|done|]. right; by left.
  - apply changes_check_and_copy_logo; [done|done|]. right; by right.
Qed.

Lemma changes_load_app (appx_manifest : pyval) :
  changes (staged dest) staging_event (load_app parsed_args env appx_manifest).
Proof.
  unfold load_app. repeat changes_step.
  - apply changes_get_cert_subject.
  - apply changes_setup_app_logos.
Qed.

Lemma changes_load_specs :
  changes (staged dest) staging_event (load_specs parsed_args env).
Proof. unfold load_specs. repeat changes_step. apply changes_load_app. Qed.

End Frames.

Lemma assert_Ok (c : bool) (msg : str) (w w' : World) (u : unit) :
  assert_ c msg w = (Ok u, w') -> c = true /\ w' = w.
Proof. destruct c; [|done]. by intros [= <-]. Qed.

Lemma get_files_Ok (w w' : World) fs :
  get_files w = (Ok fs, w') -> fs = files w /\ w' = w.
Proof. by intros [= <- <-]. Qed.

(** Peel the statements off a run that ended well. *)
Ltac run_Ok H :=
  repeat first
    [ let a := fresh "v" in let w := fresh "w" in let E := fresh "E" in
      apply M_bind_Ok in H as (a & w & E & H);
      lazymatch type of E with
      | lift _ _ = _ => apply lift_Ok in E as [E ->]
      | get_files _ = _ => apply get_files_Ok in E as [-> ->]
      | assert_ _ _ _ = _ => apply assert_Ok in E as [E ->]
      | _ => idtac
      end
    | let a := fresh "v" in let E := fresh "E" in
      apply result_bind_Ok in H as (a & E & H) ].

Lemma fs_node_insert_ne fs (p q : Path) n :
  p <> q -> fs_node (<[p := n]> fs) q = fs_node fs q.
Proof.
  intros Hpq. unfold fs_node.
  destruct q as [|r [|]]; [done| |by apply lookup_insert_ne].
  destruct (str_eqb r [SLASH]); [done|by apply lookup_insert_ne].
Qed.

Lemma fs_node_insert fs (p : Path) n :
  fs_node fs p = None -> fs_node (<[p := n]> fs) p = Some n.
Proof.
  unfold fs_node. destruct p as [|r [|]]; [done| |by rewrite lookup_insert_eq].
  destruct (str_eqb r [SLASH]); [done|by rewrite lookup_insert_eq].
Qed.

Section Staging.

Variable parsed_args : Args.

Let dest := parse_path (destination_dir parsed_args).

(** What a successful [mkdir] leaves of the file system. *)
Lemma mkdir_exist_ok_Ok (p : Path) (w w' : World) (u : unit) :
  mkdir_exist_ok p w = (Ok u, w') ->
  fs_node (files w') p = Some Dir /\
  (files w' = files w \/
   (fs_node (files w) p = None /\ files w' = <[p := Dir]> (files w))).
Proof.
  destruct u. unfold mkdir_exist_ok. rewrite M_bind_unfold. simpl.
  destruct (fs_node (files w) p) as [[|]|] eqn:E; try done.
  - intros [= <-]. split; [done|by left].
  - destruct (fs_node (files w) (path_parent p)) as [[|]|]; try done.
    intros [= <-]. simpl. split; [by apply fs_node_insert|by right].
Qed.

(** A copy that went through: the source was a file, not the target. *)
Lemma shutil_copy_Ok (src dst : Path) (w w' : World) (u : unit) :
  shutil_copy src dst w = (Ok u, w') ->
  exists data target,
    fs_node (files w) src = Some (File data) /\ src <> target /\
    target = (if is_dir (files w) dst then dst ++ [path_name src] else dst) /\
    files w' = <[target := File data]> (files w).
Proof.
  destruct u. unfold shutil_copy. rewrite M_bind_unfold. simpl.
  set (target := if is_dir (files w) dst then _ else _).
  destruct (bool_decide (src = target)) eqn:Es; simpl.
  - unfold exists_. destruct (fs_node (files w) src) as [[|]|] eqn:E; done.
  - apply bool_decide_eq_false in Es.
    destruct (fs_node (files w) src) as [[data|]|] eqn:E; try done.
    destruct (open_w_error (files w) target); [done|].
    intros [= <-]. by exists data, target.
Qed.

Lemma check_and_copy_logo_Ok (pkg lp : Path) (w w' : World) (s : str) :
  check_and_copy_logo pkg lp w = (Ok s, w') ->
  exists data target,
    fs_node (files w) lp = Some (File data) /\ lp <> target /\
    target = (if is_dir (files w) pkg then pkg ++ [path_name lp] else pkg) /\
    files w' = <[target := File data]> (files w).
Proof.
  unfold check_and_copy_logo. intros H. run_Ok H.
  injection H as _ <-.
  match goal with E : shutil_copy _ _ _ = _ |- _ =>
    by apply shutil_copy_Ok in E end.
Qed.

(** The staging only succeeds on a logo directory that holds both files. *)
Lemma setup_app_logos_Ok (dir : Path) (bg : pyval) (w w' : World) l :
  setup_app_logos parsed_args dir bg w = (Ok l, w') ->
  is_dir (files w) dir = true /\
  exists_ (files w) (dir ++ [lit "logo_44x44.png"]) = true /\
  exists_ (files w) (dir ++ [lit "logo_150x150.png"]) = true.
Proof.
  unfold setup_app_logos.
  rewrite !(path_join_literal _ (lit "msix_assets")),
    !(path_join_literal _ (lit "logo_44x44.png")),
    !(path_join_literal _ (lit "logo_150x150.png")) by done.
  fold dest. set (pkg := dest ++ [lit "msix_assets"]).
  intros H. run_Ok H.
  match goal with E : mkdir_exist_ok _ _ = _ |- _ =>
    apply mkdir_exist_ok_Ok in E as [Hpkg Hmk] end.
  match goal with E : _ && _ = true |- _ =>
    apply andb_true_iff in E as [_ Hdir] end.
  match goal with E : check_and_copy_logo _ (_ ++ [lit "logo_44x44.png"]) _ = _
    |- _ => apply check_and_copy_logo_Ok in E
              as (d44 & t44 & H44 & Hne44 & Ht44 & Hw2) end.
  match goal with E : check_and_copy_logo _ _ _ = _ |- _ =>
    apply check_and_copy_logo_Ok in E as (d150 & t150 & H150 & _ & _ & _) end.
  unfold is_dir in Ht44. rewrite Hpkg in Ht44.
  rewrite path_name_snoc in Ht44 by done. subst t44.
  rewrite Hw2, fs_node_insert_ne in H150
    by (intros [_ [=]]%app_inj_tail).
  unfold exists_, is_dir in *.
  destruct Hmk as [Hmk|[Hnone Hmk]].
  - rewrite Hmk in Hdir, H44, H150. by rewrite H44, H150.
  - rewrite Hmk in Hdir, H44, H150, Hpkg.
    assert (pkg <> dir) as Hd.
    { intros <-. done. }
    assert (pkg <> dir ++ [lit "logo_44x44.png"]) as Hd44.
    { intros Heq. rewrite <- Heq, Hpkg in H44. done. }
    assert (pkg <> dir ++ [lit "logo_150x150.png"]) as Hd150.
    { intros Heq. rewrite <- Heq, Hpkg in H150. done. }
    rewrite fs_node_insert_ne in Hdir, H44, H150 by done.
    by rewrite H44, H150.
Qed.

End Staging.

Lemma fs_node_insert_eq fs fs' (p : Path) n :
  fs_node fs p <> Some Dir -> fs_node (<[p := n]> fs') p = Some n.
Proof.
  unfold fs_node. destruct p as [|r [|]]; [done| |by rewrite lookup_insert_eq].
  destruct (str_eqb r [SLASH]); [done|by rewrite lookup_insert_eq].
Qed.

Lemma open_w_error_None fs (p : Path) :
  open_w_error fs p = None -> fs_node fs p <> Some Dir.
Proof. unfold open_w_error. by destruct (fs_node fs p) as [[|]|]. Qed.

Lemma padding_length (n : nat) : (n < 4096)%nat -> length (padding n) = (4096 - n)%nat.
Proof. intros Hn. unfold padding. simpl. rewrite length_replicate. lia. Qed.

Section Emit.

Context {host : Host}.
Variable parsed_args : Args.

Lemma tree_write_spec (doc : Element) (p : Path) (w w1 : World) r :
  tree_write doc p w = (r, w1) ->
  ((exists e, r = Raise e) /\ w1 = w) \/
  (fs_node (files w) p <> Some Dir /\
   w1 = mkWorld (<[p := File (et_write doc).1]> (files w))
                (trace w ++ [EWriteXml p doc]) /\
   r = match (et_write doc).2 with Some e => Raise e | None => Ok tt end).
Proof.
  unfold tree_write. rewrite M_bind_unfold. simpl.
  destruct (open_w_error (files w) p) as [e|] eqn:Eo.
  - intros [= <- <-]. left. eauto.
  - apply open_w_error_None in Eo. intros H. right. split; [done|].
    destruct (et_write doc).2; by injection H as <- <-.
Qed.

Lemma pad_app_installer_spec (p : Path) (w : World) (data : bytes) :
  fs_node (files w) p = Some (File data) ->
  pad_app_installer p w =
  if (length data <? 4096)%nat
  then (Ok tt, mkWorld (<[p := File (data ++ padding (length data))]> (files w))
                       (trace w ++ [EAppend p (padding (length data))]))
  else (Raise (AssertionError limit_message),
        mkWorld (<[p := File data]> (files w)) (trace w)).
Proof.
  intros Hp. unfold pad_app_installer. rewrite M_bind_unfold. simpl.
  unfold open_w_error. rewrite Hp. simpl. unfold file_pad_limit.
  destruct (Nat.ltb_spec (length data) 4096).
  - replace (Z.of_nat (length data) <? 4096) with true by lia. simpl.
    unfold padding.
    by replace (Z.to_nat (4096 - 1 - Z.of_nat (length data)))
      with (4095 - length data)%nat by lia.
  - replace (Z.of_nat (length data) <? 4096) with false by lia. done.
Qed.

Lemma unlink_missing_ok_trace (p : Path) (w w1 : World) r :
  unlink_missing_ok p w = (r, w1) ->
  exists evs, trace w1 = trace w ++ evs /\
              forall q doc, EWriteXml q doc ∉ evs.
Proof.
  intros H. pose proof (changes_unlink (fun _ => True)
    (fun e => e = EUnlink p) p I eq_refl w) as [_ (evs & Ht & Hq)].
  rewrite H in Ht. exists evs. split; [done|].
  intros q doc Hin. rewrite Forall_forall in Hq. by apply Hq in Hin.
Qed.

Lemma emit_app_installer_spec app inst dest (w w' : World) r :
  emit_app_installer parsed_args app inst dest w = (r, w') ->
  exists evs, trace w' = trace w ++ evs /\
    forall p doc, EWriteXml p doc ∈ evs ->
      (exists root, gen_appx_installer parsed_args app inst = Ok root /\
                    et_indent root = Ok doc) /\
      descriptor_outcome doc p r w'.
Proof.
  unfold emit_app_installer. intros H.
  assert (Hnone : forall w0, exists evs : list event,
            trace w0 = trace w0 ++ evs /\
            forall p doc, EWriteXml p doc ∈ evs -> False /\ False).
  { intros w0. exists []. rewrite app_nil_r. split; [done|].
    intros p doc Hin; apply elem_of_nil in Hin; destruct Hin. }
  rewrite M_bind_unfold in H.
  destruct (gen_appx_installer _ _ _) as [root|e] eqn:Eg; unfold lift in H;
    [|injection H as <- <-; destruct (Hnone w) as (evs & ? & Hf);
      exists evs; split; [done|]; intros p doc Hin; by destruct (Hf p doc Hin)].
  rewrite M_bind_unfold in H.
  destruct (et_indent root) as [doc|e] eqn:Ei;
    [|injection H as <- <-; destruct (Hnone w) as (evs & ? & Hf);
      exists evs; split; [done|]; intros p doc Hin; by destruct (Hf p doc Hin)].
  rewrite M_bind_unfold in H.
  destruct (urlparse_path _) as [up|e] eqn:Eu;
    [|injection H as <- <-; destruct (Hnone w) as (evs & ? & Hf);
      exists evs; split; [done|]; intros p doc' Hin; by destruct (Hf p doc' Hin)].
  cbv zeta in H. set (p := installer_path dest up) in H.
  rewrite M_bind_unfold in H.
  destruct (unlink_missing_ok p w) as [[[]|e] w1] eqn:El;
    apply unlink_missing_ok_trace in El as (evs1 & Ht1 & Hn1);
    [|injection H as <- <-; exists evs1; split; [done|];
      intros q d Hin; by apply Hn1 in Hin].
  rewrite M_bind_unfold in H.
  destruct (tree_write doc p w1) as [r2 w2] eqn:Ew.
  apply tree_write_spec in Ew as [[[e ->] ->]|(Hnd & -> & ->)].
  { injection H as <- <-. exists evs1. split; [done|].
    intros q d Hin; by apply Hn1 in Hin. }
  set (xml := (et_write doc).1) in *.
  destruct (et_write doc).2 as [e|] eqn:Ee.
  { injection H as <- <-. simpl. exists (evs1 ++ [EWriteXml p doc]).
    rewrite Ht1, app_assoc. split; [done|].
    intros q d [Hin|Hin%list_elem_of_singleton]%elem_of_app;
      [by apply Hn1 in Hin|]. injection Hin as -> ->.
    split; [eauto|]. unfold descriptor_outcome. rewrite Ee. simpl.
    by rewrite lookup_insert_eq. }
  rewrite M_bind_unfold in H.
  rewrite (pad_app_installer_spec p _ xml) in H
    by (simpl; by apply (fs_node_insert_eq (files w1))).
  simpl in H. destruct (Nat.ltb_spec (length xml) 4096) as [Hlt|Hge].
  - injection H as <- <-. simpl.
    exists (evs1 ++ [EWriteXml p doc; EAppend p (padding (length xml));
                     EPrint (lit "Generated AppInstaller")]).
    rewrite Ht1, <- !app_assoc. split; [done|].
    intros q d [Hin|Hin]%elem_of_app; [by apply Hn1 in Hin|].
    apply elem_of_cons in Hin as [Hin|Hin].
    + injection Hin as -> ->. split; [eauto|].
      unfold descriptor_outcome. rewrite Ee. fold xml.
      replace (length xml <? 4096)%nat with true
        by (symmetry; by apply Nat.ltb_lt).
      cbn [files]. by rewrite lookup_insert_eq.
    + apply elem_of_cons in Hin as [[=]|Hin].
      by apply list_elem_of_singleton in Hin.
  - injection H as <- <-. simpl. exists (evs1 ++ [EWriteXml p doc]).
    rewrite Ht1, app_assoc. split; [done|].
    intros q d [Hin|Hin%list_elem_of_singleton]%elem_of_app;
      [by apply Hn1 in Hin|]. injection Hin as -> ->.
    split; [eauto|]. unfold descriptor_outcome. rewrite Ee. fold xml.
    replace (length xml <? 4096)%nat with false
      by (symmetry; by apply Nat.ltb_ge).
    cbn [files]. by rewrite lookup_insert_eq.
Qed.

End Emit.

Section Documents.

Context {host : Host}.
Variable parsed_args : Args.
Variable env : Env.

Let dest := parse_path (destination_dir parsed_args).

Lemma changes_tree_write (P : Path -> Prop) (Q : event -> Prop) doc p :
  P p -> Q (EWriteXml p doc) -> changes P Q (tree_write doc p).
Proof.
  intros Hp He w. destruct (tree_write doc p w) as [r w1] eqn:E.
  apply tree_write_spec in E as [[_ ->]|(_ & -> & _)];
    [apply extends_refl|]. split; simpl.
  - intros q Hq. apply lookup_insert_ne. by intros ->.
  - exists [EWriteXml p doc]. split; [done|]. by constructor.
Qed.

Lemma changes_pad_app_installer (P : Path -> Prop) (Q : event -> Prop) p :
  P p -> (forall d, Q (EAppend p d)) -> changes P Q (pad_app_installer p).
Proof.
  intros Hp He w. unfold pad_app_installer. rewrite M_bind_unfold. simpl.
  destruct (open_w_error (files w) p); [apply extends_refl|].
  rewrite M_bind_unfold. simpl. destruct (_ <? _); simpl.
  - split; simpl.
    + intros q Hq. apply lookup_insert_ne. by intros ->.
    + eexists [_]. split; [done|]. by constructor.
  - split; simpl.
    + intros q Hq. apply lookup_insert_ne. by intros ->.
    + exists []. by rewrite app_nil_r.
Qed.

Lemma changes_emit_documents app inst :
  changes (emitted parsed_args inst) (fun _ => True) (emit_documents parsed_args app inst).
Proof.
  unfold emit_documents. fold dest.
  apply changes_bind; [apply changes_get_files|intros fs ? ? _].
  apply changes_bind; [apply changes_assert|intros _ ? ? _].
  apply changes_bind; [|intros _ ? ? _].
  { destruct (no_manifest parsed_args) eqn:En; simpl; [apply changes_ret|].
    unfold emit_appx_manifest. repeat changes_step.
    apply changes_tree_write; [|exact I]. left. split; [exact En|reflexivity]. }
  apply changes_bind; [|intros; apply changes_emit; exact I].
  destruct (gen_installer parsed_args) eqn:Eg; [|apply changes_ret].
  unfold emit_app_installer.
  apply changes_bind; [apply changes_lift|intros root ? ? _].
  apply changes_bind; [apply changes_lift|intros doc ? ? _].
  apply changes_bind; [apply changes_lift|intros up ? ? [Eu _]%lift_Ok].
  assert (emitted parsed_args inst (installer_path dest up)) as Hp.
  { right. split; [exact Eg|]. exists up. split; [exact Eu|reflexivity]. }
  repeat changes_step.
  - apply changes_unlink; [exact Hp|exact I].
  - apply changes_tree_write; [exact Hp|exact I].
  - apply changes_pad_app_installer; [exact Hp|intros; exact I].
Qed.

Lemma emit_appx_manifest_spec app (w w' : World) r :
  emit_appx_manifest app dest w = (r, w') ->
  exists evs, trace w' = trace w ++ evs /\
    forall p doc, EWriteXml p doc ∈ evs ->
      exists root, gen_appx_manifest app = Ok root /\ et_indent root = Ok doc.
Proof.
  unfold emit_appx_manifest. intros H.
  assert (Hnone : exists evs : list event,
            trace w = trace w ++ evs /\
            forall p doc, EWriteXml p doc ∈ evs ->
              exists root, gen_appx_manifest app = Ok root /\
                           et_indent root = Ok doc).
  { exists []. rewrite app_nil_r. split; [done|].
    intros p doc Hin; apply elem_of_nil in Hin; destruct Hin. }
  rewrite M_bind_unfold in H.
  destruct (gen_appx_manifest app) as [root|e] eqn:Eg; unfold lift in H;
    [|by injection H as <- <-].
  rewrite M_bind_unfold in H.
  destruct (et_indent root) as [doc|e] eqn:Ei; [|by injection H as <- <-].
  rewrite M_bind_unfold in H.
  destruct (tree_write doc _ w) as [r2 w2] eqn:Ew.
  apply tree_write_spec in Ew as [[[e ->] ->]|(Hnd & -> & ->)];
    [by injection H as <- <-|].
  assert (forall p d,
    EWriteXml p d ∈ [EWriteXml (path_join dest (lit "AppxManifest.xml")) doc;
                     EPrint (lit "Generated AppxManifest")] ->
    exists root0, Ok root = Ok root0 /\ et_indent root0 = Ok d) as Hin.
  { intros p d [Hin|Hin%list_elem_of_singleton]%elem_of_cons; [|done].
    injection Hin as -> ->. eauto. }
  destruct (et_write doc).2; injection H as <- <-; simpl.
  - exists [EWriteXml (path_join dest (lit "AppxManifest.xml")) doc].
    split; [done|]. intros p d Hd. apply (Hin p).
    apply list_elem_of_singleton in Hd as ->. apply elem_of_cons. by left.
  - eexists. rewrite <- app_assoc. split; [done|]. exact Hin.
Qed.

(** Every document the emit phase writes is one of the two the script
    generates, and the descriptor ends up as [descriptor_outcome] says. *)
Lemma emit_documents_spec app inst (w w' : World) r :
  emit_documents parsed_args app inst w = (r, w') ->
  exists evs, trace w' = trace w ++ evs /\
    forall p doc, EWriteXml p doc ∈ evs ->
      (no_manifest parsed_args = false /\
       exists root, gen_appx_manifest app = Ok root /\
                    et_indent root = Ok doc) \/
      (gen_installer parsed_args = true /\
       (exists root, gen_appx_installer parsed_args app inst = Ok root /\
                     et_indent root = Ok doc) /\
       descriptor_outcome doc p r w').
Proof.
  unfold emit_documents. fold dest. intros H.
  rewrite M_bind_unfold in H. simpl in H. rewrite M_bind_unfold in H.
  destruct (exists_ _ _ && is_dir _ _); simpl in H;
    [|injection H as <- <-; exists []; rewrite app_nil_r; split; [done|];
      intros p doc Hin; apply elem_of_nil in Hin; destruct Hin].
  rewrite M_bind_unfold in H.
  assert (exists r1 w1 evs1,
    trace w1 = trace w ++ evs1 /\
    (forall p doc, EWriteXml p doc ∈ evs1 ->
       no_manifest parsed_args = false /\
       exists root, gen_appx_manifest app = Ok root /\ et_indent root = Ok doc) /\
    (if negb (no_manifest parsed_args)
     then emit_appx_manifest app dest else mret ()) w = (r1, w1))
    as (r1 & w1 & evs1 & Ht1 & Hd1 & E1).
  { destruct (no_manifest parsed_args) eqn:En; simpl.
    - exists (Ok tt), w, []. rewrite app_nil_r. split; [done|]. split; [|done].
      intros p doc Hin; apply elem_of_nil in Hin; destruct Hin.
    - destruct (emit_appx_manifest app dest w) as [r1 w1] eqn:E1.
      pose proof E1 as (evs1 & Ht1 & Hd1)%emit_appx_manifest_spec.
      exists r1, w1, evs1. split; [done|]. split; [|done].
      intros p doc Hin. split; [done|]. by apply (Hd1 p). }
  rewrite E1 in H. destruct r1 as [[]|e];
    [|injection H as <- <-; exists evs1; split; [done|];
      intros p doc Hin; left; by apply (Hd1 p)].
  rewrite M_bind_unfold in H.
  destruct (gen_installer parsed_args) eqn:Eg.
  - destruct (emit_app_installer _ _ _ _ w1) as [r2 w2] eqn:E2.
    pose proof E2 as (evs2 & Ht2 & Hd2)%emit_app_installer_spec.
    destruct r2 as [[]|e]; injection H as <- <-; simpl.
    + eexists (evs1 ++ evs2 ++ [_]). rewrite Ht2, Ht1, <- !app_assoc.
      split; [done|].
      intros p doc [Hin|[Hin|Hin%list_elem_of_singleton]%elem_of_app]%elem_of_app;
        [left; by apply (Hd1 p)| |done].
      right. destruct (Hd2 p doc Hin) as [Hr Ho]. repeat split; try done.
    + exists (evs1 ++ evs2). rewrite Ht2, Ht1, <- !app_assoc. split; [done|].
      intros p doc [Hin|Hin]%elem_of_app; [left; by apply (Hd1 p)|].
      right. destruct (Hd2 p doc Hin) as [Hr Ho]. repeat split; try done.
  - injection H as <- <-. simpl. eexists (evs1 ++ [_]).
    rewrite Ht1, <- !app_assoc. split; [done|].
    intros p doc [Hin|Hin%list_elem_of_singleton]%elem_of_app; [|done].
    left; by apply (Hd1 p).
Qed.

End Documents.

Lemma extends_nothing Q (w w' : World) :
  extends (fun _ => False) Q w w' -> files w' = files w.
Proof. intros [Hf _]. apply map_eq. intros p. apply Hf. tauto. Qed.

Section Loading.

Context {host : Host}.
Variable parsed_args : Args.
Variable env : Env.

Let dest := parse_path (destination_dir parsed_args).

(** The subject the resolver returns does not depend on the world. *)
Lemma get_cert_subject_pure (w w0 : World) :
  (get_cert_subject parsed_args env w).1 =
  (get_cert_subject parsed_args env w0).1.
Proof.
  unfold get_cert_subject. destruct (given (cert_subject parsed_args)); [done|].
  rewrite !M_bind_unfold. unfold run_checked.
  destruct (subprocess_run env _) as [rc out|e]; [|done].
  destruct (rc =? 0); [|done]. simpl.
  destruct (utf8_decode out) as [text|]; [|done].
  rewrite !M_bind_unfold. destruct (str_splitlines text) as [|a [|b [|c [|]]]]; done.
Qed.

Lemma get_cert_subject_files (w w' : World) r :
  get_cert_subject parsed_args env w = (r, w') -> files w' = files w.
Proof.
  intros H. eapply extends_nothing.
  pose proof (changes_get_cert_subject parsed_args env (fun _ => False) w) as He.
  rewrite H in He. exact He.
Qed.

Lemma load_app_Ok (am : pyval) (w w' : World) app :
  load_app parsed_args env am w = (Ok app, w') ->
  exists w1 bg,
    get_cert_subject parsed_args env w = (Ok (publisher (cert app)), w1) /\
    setup_app_logos parsed_args (parse_path (logo_dir parsed_args)) bg w1
      = (Ok (logo app), w') /\
    getitem2 am (lit "Identity") (lit "Name") = Ok (name app) /\
    version app = app_version parsed_args.
Proof.
  unfold load_app. intros H. run_Ok H. injection H as <- <-. simpl. eauto 10.
Qed.

Lemma load_installer_Ok (im : pyval) inst :
  load_installer im = Ok inst ->
  getitem im (lit "Version") = Ok (installer_version inst) /\
  getitem im (lit "Uri") = Ok (installer_uri inst) /\
  getitem2 im (lit "MainPackage") (lit "Uri") = Ok (appx_uri inst) /\
  getitem2 im (lit "UpdateSettings") (lit "AutomaticBackgroundTask")
    = Ok (automatic_background_task inst).
Proof.
  unfold load_installer. intros H. run_Ok H. injection H as <-. simpl. eauto.
Qed.

Lemma load_specs_Ok (w w' : World) app inst :
  load_specs parsed_args env w = (Ok (app, inst), w') ->
  exists doc am im w1,
    json_load env (manifest parsed_args) = Ok doc /\
    getitem doc (lit "AppManifest") = Ok am /\
    getitem doc (lit "AppInstaller") = Ok im /\
    files w1 = files w /\
    load_app parsed_args env am w1 = (Ok app, w') /\
    load_installer im = Ok inst.
Proof.
  unfold load_specs. intros H. run_Ok H. injection H as <- <- <-.
  match goal with E : print _ _ = _ |- _ => injection E as _ <- end.
  do 3 eexists. eexists (mkWorld _ _). by repeat split.
Qed.

(** A run that got past the staging found the logo directory and both
    logo files in the file system it started from. *)
Lemma load_specs_logos (w w' : World) specs :
  load_specs parsed_args env w = (Ok specs, w') ->
  let dir := parse_path (logo_dir parsed_args) in
  is_dir (files w) dir = true /\
  exists_ (files w) (path_join dir (lit "logo_44x44.png")) = true /\
  exists_ (files w) (path_join dir (lit "logo_150x150.png")) = true.
Proof.
  destruct specs as [app inst].
  intros (doc & am & im & w1 & _ & _ & _ & Hf & Ha & _)%load_specs_Ok.
  apply load_app_Ok in Ha as (w2 & bg & Hc & Hs & _).
  apply get_cert_subject_files in Hc.
  apply setup_app_logos_Ok in Hs. rewrite Hc, Hf in Hs.
  cbv zeta. by rewrite !path_join_literal by done.
Qed.

End Loading.

(** Evaluate the left side of an equation in the virtual machine. *)
Ltac vm_lhs H :=
  match type of H with
  | ?a = _ =>
      let a' := eval vm_compute in a in
      let E := fresh in
      assert (E : a = a') by (vm_compute; reflexivity);
      rewrite E in H; clear E
  end.

(** Give [exists x, t = Ok x /\ _] the value [t] computes to. *)
Ltac vm_witness :=
  match goal with
  | |- exists x, ?t = Ok x /\ _ =>
      let v := eval vm_compute in t in
      match v with
      | Ok ?r => exists r; split; [vm_compute; reflexivity|]
      end
  end.

Lemma gen_appx_manifest_Ok app root :
  gen_appx_manifest app = Ok root ->
  exists id, split_last DOT (name app) = Ok id.
Proof.
  destruct app as [nm dn de ve [pb] ar [l44 l150 bg] ep dp mn mx].
  unfold gen_appx_manifest. cbn [name cert publisher].
  destruct (split_last DOT nm) as [id|e] eqn:Es; [eauto|].
  intros Hg. vm_lhs Hg. discriminate.
Qed.

Lemma gen_appx_manifest_doc app id :
  split_last DOT (name app) = Ok id ->
  exists root,
    gen_appx_manifest app = Ok root /\
    exists doc,
      et_indent root = Ok doc /\
      tag doc = lit "Package" /\
      publisher_attr doc = Some (PStr (publisher (cert app))) /\
      application_id root = Some id /\
      application_id doc = Some id.
Proof.
  destruct app as [nm dn de ve [pb] ar [l44 l150 bg] ep dp mn mx].
  unfold gen_appx_manifest. cbn [name cert publisher]. intros ->.
  vm_witness. vm_witness. repeat split; vm_compute; reflexivity.
Qed.

(** What any generated manifest document looks like once indented. *)
Lemma manifest_document app root doc :
  gen_appx_manifest app = Ok root -> et_indent root = Ok doc ->
  tag doc = lit "Package" /\
  publisher_attr doc = Some (PStr (publisher (cert app))).
Proof.
  intros Hg Hi. destruct (gen_appx_manifest_Ok _ _ Hg) as [id Hid].
  destruct (gen_appx_manifest_doc _ _ Hid)
    as (root' & Hg' & doc' & Hi' & Ht & Hp & _ & _).
  assert (root' = root) as -> by congruence.
  assert (doc' = doc) as -> by congruence.
  split; [exact Ht|exact Hp].
Qed.

Section Installer.

Context {host : Host}.
Variable parsed_args : Args.

(** The generator returns a document only when the three [str()] calls
    returned. *)
Lemma gen_appx_installer_Ok app inst root :
  gen_appx_installer parsed_args app inst = Ok root ->
  exists hours prompt blocks,
    py_str (hours_between_update_checks inst) = Ok hours /\
    py_str (show_prompt inst) = Ok prompt /\
    py_str (update_blocks_activation inst) = Ok blocks.
Proof.
  unfold gen_appx_installer.
  destruct (py_str (hours_between_update_checks inst)) as [hours|e1].
  2:{ intros Hg. vm_lhs Hg. discriminate. }
  destruct (py_str (show_prompt inst)) as [prompt|e2].
  2:{ intros Hg. vm_lhs Hg. discriminate. }
  destruct (py_str (update_blocks_activation inst)) as [blocks|e3].
  2:{ intros Hg. vm_lhs Hg. discriminate. }
  intros _. exists hours, prompt, blocks.
  split; [reflexivity|]. split; reflexivity.
Qed.

Lemma gen_appx_installer_doc app inst hours prompt blocks :
  py_str (hours_between_update_checks inst) = Ok hours ->
  py_str (show_prompt inst) = Ok prompt ->
  py_str (update_blocks_activation inst) = Ok blocks ->
  exists root,
    gen_appx_installer parsed_args app inst = Ok root /\
    exists doc,
      et_indent root = Ok doc /\
      tag doc = lit "AppInstaller" /\
      (background_task_elements doc =
         if truthy (automatic_background_task inst)
         then [([], PNone, [])] else []) /\
      (force_update_elements doc =
         if truthy (force_update_from_any_version inst)
         then [([], PStr (lit "true"), [])] else []) /\
      package_identity doc =
        [Some (name app); Some (PStr (app_version parsed_args));
         Some (PStr (publisher (cert app))); Some (arch app)].
Proof.
  unfold gen_appx_installer. intros -> -> ->.
  destruct (truthy (automatic_background_task inst));
    destruct (truthy (force_update_from_any_version inst));
    vm_witness; vm_witness; repeat split; vm_compute; reflexivity.
Qed.

(** What any generated installer document looks like once indented. *)
Lemma installer_document app inst root doc :
  gen_appx_installer parsed_args app inst = Ok root ->
  et_indent root = Ok doc ->
  tag doc = lit "AppInstaller" /\
  background_task_elements doc =
    if truthy (automatic_background_task inst) then [([], PNone, [])] else [].
Proof.
  intros Hg Hi.
  destruct (gen_appx_installer_Ok _ _ _ Hg) as (hours & prompt & blocks & Hs).
  destruct Hs as (Hh & Hp & Hb).
  destruct (gen_appx_installer_doc app inst _ _ _ Hh Hp Hb)
    as (root' & Hg' & doc' & Hi' & Ht & Hbt & _).
  assert (root' = root) as -> by congruence.
  assert (doc' = doc) as -> by congruence.
  split; [exact Ht|exact Hbt].
Qed.

Lemma installer_force_update app inst root doc :
  gen_appx_installer parsed_args app inst = Ok root ->
  et_indent root = Ok doc ->
  force_update_elements doc =
    if truthy (force_update_from_any_version inst)
    then [([], PStr (lit "true"), [])] else [].
Proof.
  intros Hg Hi.
  destruct (gen_appx_installer_Ok _ _ _ Hg) as (hours & prompt & blocks & Hs).
  destruct Hs as (Hh & Hp & Hb).
  destruct (gen_appx_installer_doc app inst _ _ _ Hh Hp Hb)
    as (root' & Hg' & doc' & Hi' & _ & _ & Hf & _).
  assert (root' = root) as -> by congruence.
  assert (doc' = doc) as -> by congruence.
  exact Hf.
Qed.

Lemma installer_identity app inst root doc :
  gen_appx_installer parsed_args app inst = Ok root ->
  et_indent root = Ok doc ->
  package_identity doc =
    [Some (name app); Some (PStr (app_version parsed_args));
     Some (PStr (publisher (cert app))); Some (arch app)].
Proof.
  intros Hg Hi.
  destruct (gen_appx_installer_Ok _ _ _ Hg) as (hours & prompt & blocks & Hs).
  destruct Hs as (Hh & Hp & Hb).
  destruct (gen_appx_installer_doc app inst _ _ _ Hh Hp Hb)
    as (root' & Hg' & doc' & Hi' & _ & _ & _ & Hid).
  assert (root' = root) as -> by congruence.
  assert (doc' = doc) as -> by congruence.
  exact Hid.
Qed.

End Installer.

Section Runs.

Context {host : Host}.
Variable parsed_args : Args.
Variable env : Env.

Let dest := parse_path (destination_dir parsed_args).

(** The staging phase of a run: what it may touch, and that it writes
    nothing of a document. *)
Lemma run_staging (fs : gmap Path node) r w1 :
  load_specs parsed_args env (mkWorld fs []) = (r, w1) ->
  Forall staging_event (trace w1) /\
  (forall p, ~ staged dest p -> files w1 !! p = fs !! p).
Proof.
  intros E.
  pose proof (changes_load_specs parsed_args env (mkWorld fs [])) as He.
  rewrite E in He. destruct He as [Hf (evs & Ht & Hq)]. simpl in *.
  by rewrite Ht.
Qed.

(** Every document a run writes is one of the two the script generates
    from the specs it loaded. *)
Lemma run_documents (fs : gmap Path node) r w' p doc :
  run parsed_args env fs = (r, w') ->
  EWriteXml p doc ∈ trace w' ->
  exists app inst w1,
    load_specs parsed_args env (mkWorld fs []) = (Ok (app, inst), w1) /\
    ((no_manifest parsed_args = false /\
      exists root, gen_appx_manifest app = Ok root /\
                   et_indent root = Ok doc) \/
     (gen_installer parsed_args = true /\
      (exists root, gen_appx_installer parsed_args app inst = Ok root /\
                    et_indent root = Ok doc) /\
      descriptor_outcome doc p r w')).
Proof.
  unfold run, script. rewrite M_bind_unfold.
  destruct (load_specs _ _ _) as [[[app inst]|e] w1] eqn:E;
    pose proof E as [Hst _]%run_staging; rewrite Forall_forall in Hst.
  - simpl. intros H Hin.
    apply emit_documents_spec in H as (evs & Ht & Hd).
    rewrite Ht in Hin. apply elem_of_app in Hin as [Hin|Hin].
    + by apply Hst in Hin.
    + exists app, inst, w1. split; [done|]. by apply Hd.
  - intros [= <- <-] Hin. by apply Hst in Hin.
Qed.

End Runs.

(** C6. When the logo source directory is missing (or is not a
    directory), or either of [logo_44x44.png] and [logo_150x150.png] is
    absent from it, the run aborts with an exception before any XML is
    written: its events are staging events only (no document written, no
    padding appended), and the file system is untouched outside the
    [msix_assets] staging directory, so neither [AppxManifest.xml] nor an
    installer descriptor is created. *)
Theorem missing_logos_abort_before_xml `{Host} (args : Args) (env : Env)
    (fs : gmap Path node) (r : result unit) (w' : World) :
  let dir := parse_path (logo_dir args) in
  let dest := parse_path (destination_dir args) in
  is_dir fs dir = false \/
  exists_ fs (path_join dir (lit "logo_44x44.png")) = false \/
  exists_ fs (path_join dir (lit "logo_150x150.png")) = false ->
  run args env fs = (r, w') ->
  (exists e, r = Raise e) /\
  Forall staging_event (trace w') /\
  files w' !! path_join dest (lit "AppxManifest.xml")
    = fs !! path_join dest (lit "AppxManifest.xml") /\
  (forall p, ~ staged dest p -> files w' !! p = fs !! p).
Proof.
  intros dir dest Hmissing. unfold run, script. rewrite M_bind_unfold.
  destruct (load_specs _ _ _) as [[specs|e] w1] eqn:E.
  - apply load_specs_logos in E as (Hd & H44 & H150). simpl in *.
    fold dir in Hd, H44, H150.
    destruct Hmissing as [Hm|[Hm|Hm]]; congruence.
  - intros [= <- <-]. apply run_staging in E as [Hst Hf].
    split; [eauto|]. split; [done|]. split; [|done].
    apply Hf. rewrite path_join_literal by done.
    intros [Heq|[Heq|Heq]]; by apply app_inv_head in Heq.
Qed.

(** C10. The installer spec is built on every invocation, whatever
    [--gen-installer] says: when the JSON document has no [AppInstaller]
    key, or that section lacks [Version], [Uri], [MainPackage.Uri] or
    [UpdateSettings], the run aborts with an exception and has written no
    document. *)
Theorem incomplete_installer_section_aborts `{Host} (args : Args) (env : Env)
    (fs : gmap Path node) (doc : pyval) (r : result unit) (w' : World) :
  json_load env (manifest args) = Ok doc ->
  installer_section_complete doc = false ->
  run args env fs = (r, w') ->
  (exists e, r = Raise e) /\ Forall staging_event (trace w').
Proof.
  intros Hdoc Hinc. unfold run, script. rewrite M_bind_unfold.
  destruct (load_specs _ _ _) as [[[app inst]|e] w1] eqn:E.
  - apply load_specs_Ok in E as (doc' & am & im & w0 & Hj & _ & Him & _ & _ & Hl).
    rewrite Hdoc in Hj. injection Hj as <-.
    apply load_installer_Ok in Hl as (Hv & Hu & Hm & Hb).
    unfold installer_section_complete, has_key in Hinc.
    rewrite Him, Hv, Hu in Hinc. simpl in Hinc.
    unfold getitem2 in Hm, Hb.
    apply result_bind_Ok in Hm as (mp & Hmp & Hmu).
    apply result_bind_Ok in Hb as (us & Hus & _).
    by rewrite Hmp, Hmu, Hus in Hinc.
  - intros [= <- <-]. apply run_staging in E as [Hst _]. eauto.
Qed.

(** C1. In a run that wrote the installer descriptor completely, with
    fewer than 4096 bytes of serialized XML, the run ends well and the
    descriptor file holds that XML unchanged, then one newline byte, then
    spaces up to exactly 4096 bytes. *)
Theorem installer_padded_to_limit `{Host} (args : Args) (env : Env)
    (fs : gmap Path node) (r : result unit) (w' : World) (p : Path)
    (doc : Element) (xml : bytes) :
  run args env fs = (r, w') ->
  EWriteXml p doc ∈ trace w' ->
  tag doc = lit "AppInstaller" ->
  et_write doc = (xml, None) ->
  (length xml < 4096)%nat ->
  r = Ok tt /\
  files w' !! p
    = Some (File (xml ++ x0a :: replicate (4095 - length xml) x20)) /\
  length (xml ++ x0a :: replicate (4095 - length xml) x20) = 4096%nat.
Proof.
  intros Hrun Hin Htag Hw Hlen.
  destruct (run_documents _ _ _ _ _ _ _ Hrun Hin)
    as (app & inst & w1 & _ & [(_ & root & Hg & Hi)|(_ & _ & Ho)]).
  - destruct (manifest_document _ _ _ Hg Hi) as [Ht _].
    rewrite Htag in Ht. discriminate.
  - unfold descriptor_outcome in Ho. rewrite Hw in Ho. simpl in Ho.
    replace (length xml <? 4096)%nat with true in Ho
      by (symmetry; by apply Nat.ltb_lt).
    destruct Ho as [-> Hf]. split; [done|]. split; [done|].
    rewrite length_app. simpl. rewrite length_replicate. lia.
Qed.

(** C2, as the code has it. In a run that wrote the installer descriptor
    completely, with 4096 bytes or more of serialized XML, the run aborts
    with the assertion error whose message names the limit and nothing
    else, and the descriptor file holds exactly the serialized XML:
    neither padded nor truncated. *)
Theorem oversized_installer_aborts `{Host} (args : Args) (env : Env)
    (fs : gmap Path node) (r : result unit) (w' : World) (p : Path)
    (doc : Element) (xml : bytes) :
  run args env fs = (r, w') ->
  EWriteXml p doc ∈ trace w' ->
  tag doc = lit "AppInstaller" ->
  et_write doc = (xml, None) ->
  (4096 <= length xml)%nat ->
  r = Raise (AssertionError
        (lit "AppInstaller file size is larger than the 4096B limit")) /\
  files w' !! p = Some (File xml).
Proof.
  intros Hrun Hin Htag Hw Hlen.
  destruct (run_documents _ _ _ _ _ _ _ Hrun Hin)
    as (app & inst & w1 & _ & [(_ & root & Hg & Hi)|(_ & _ & Ho)]).
  - destruct (manifest_document _ _ _ Hg Hi) as [Ht _].
    rewrite Htag in Ht. discriminate.
  - unfold descriptor_outcome in Ho. rewrite Hw in Ho. simpl in Ho.
    replace (length xml <? 4096)%nat with false in Ho
      by (symmetry; by apply Nat.ltb_ge).
    exact Ho.
Qed.

(** C4. In every run that writes the package manifest, the [Publisher]
    attribute of its [Identity] element is the string the certificate
    resolver returned, and that is the [--cert-subject] value when one is
    given. *)
Theorem manifest_publisher_is_cert_subject `{Host} (args : Args) (env : Env)
    (fs : gmap Path node) (r : result unit) (w' : World) (p : Path)
    (doc : Element) :
  run args env fs = (r, w') ->
  EWriteXml p doc ∈ trace w' ->
  tag doc = lit "Package" ->
  exists subject,
    (get_cert_subject args env (mkWorld fs [])).1 = Ok subject /\
    publisher_attr doc = Some (PStr subject) /\
    (forall s, given (cert_subject args) = Some s -> subject = s).
Proof.
  intros Hrun Hin Htag.
  destruct (run_documents _ _ _ _ _ _ _ Hrun Hin)
    as (app & inst & w1 & Hl & [(_ & root & Hg & Hi)|(_ & (root & Hg & Hi) & _)]).
  - apply load_specs_Ok in Hl as (mdoc & am & im & w0 & _ & _ & _ & _ & Ha & _).
    apply load_app_Ok in Ha as (w2 & bg & Hc & _).
    exists (publisher (cert app)).
    assert (Hs : (get_cert_subject args env (mkWorld fs [])).1
                 = Ok (publisher (cert app))).
    { rewrite (get_cert_subject_pure args env _ w0). by rewrite Hc. }
    split; [done|]. split.
    + by destruct (manifest_document _ _ _ Hg Hi) as [_ Hp].
    + intros s Hgiven. unfold get_cert_subject in Hs. rewrite Hgiven in Hs.
      simpl in Hs. congruence.
  - destruct (installer_document _ _ _ _ _ Hg Hi) as [Ht _].
    rewrite Htag in Ht. discriminate.
Qed.

(** C5. For an app name that is a string, the manifest is generated and
    the [Id] attribute of its [Application] element is the last
    dot-separated segment of the name: a dot-free suffix that is the whole
    name or follows a dot. *)
Theorem application_id_is_last_segment (app : MsixApplication) (s : str) :
  name app = PStr s ->
  exists root doc seg,
    gen_appx_manifest app = Ok root /\ et_indent root = Ok doc /\
    application_id root = Some (PStr seg) /\
    application_id doc = Some (PStr seg) /\
    (DOT ∉ seg) /\ (s = seg \/ exists pre, s = pre ++ DOT :: seg).
Proof.
  intros Hname. destruct (split_last_PStr s) as (seg & Hsl & Hseg & Hs).
  rewrite <- Hname in Hsl.
  destruct (gen_appx_manifest_doc _ _ Hsl)
    as (root & Hg & doc & Hi & _ & _ & Hidr & Hid).
  exists root, doc, seg.
  split; [exact Hg|]. split; [exact Hi|]. split; [exact Hidr|].
  split; [exact Hid|]. split; [exact Hseg|exact Hs].
Qed.

(** C8. In every run that writes the installer descriptor, the written
    document has an [AutomaticBackgroundTask] element under
    [UpdateSettings] exactly when the manifest's [AutomaticBackgroundTask]
    value is true, and the element is empty: no attribute, no text, no
    child. *)
Theorem background_task_element_iff_flag `{Host} (args : Args) (env : Env)
    (fs : gmap Path node) (r : result unit) (w' : World) (p : Path)
    (doc : Element) :
  run args env fs = (r, w') ->
  EWriteXml p doc ∈ trace w' ->
  tag doc = lit "AppInstaller" ->
  exists mdoc flag,
    json_load env (manifest args) = Ok mdoc /\
    getitem3 mdoc (lit "AppInstaller") (lit "UpdateSettings")
             (lit "AutomaticBackgroundTask") = Ok flag /\
    background_task_elements doc =
      if truthy flag then [([], PNone, [])] else [].
Proof.
  intros Hrun Hin Htag.
  destruct (run_documents _ _ _ _ _ _ _ Hrun Hin)
    as (app & inst & w1 & Hl & [(_ & root & Hg & Hi)|(_ & (root & Hg & Hi) & _)]).
  - destruct (manifest_document _ _ _ Hg Hi) as [Ht _].
    rewrite Htag in Ht. discriminate.
  - apply load_specs_Ok in Hl as (mdoc & am & im & w0 & Hj & _ & Him & _ & _ & Hli).
    apply load_installer_Ok in Hli as (_ & _ & _ & Hb).
    exists mdoc, (automatic_background_task inst). split; [done|]. split.
    + unfold getitem3, getitem2 in *. rewrite Him. simpl. exact Hb.
    + by destruct (installer_document _ _ _ _ _ Hg Hi) as [_ Hbt].
Qed.

(** *** Path names *)

Lemma str_split_from_fields (c : N) (s : str) : forall field,
  c ∉ field -> Forall (fun f => c ∉ f) (str_split_from c field s).
Proof.
  induction s as [|x t IH]; intros field Hf; simpl.
  - by constructor.
  - destruct (N.eqb_spec x c) as [->|Hx].
    + constructor; [done|]. apply IH, not_elem_of_nil.
    + apply IH. rewrite elem_of_app, list_elem_of_singleton.
      intros [?|?]; [done|congruence].
Qed.

Lemma str_split_from_whole (c : N) (s : str) : forall field,
  c ∉ s -> str_split_from c field s = [field ++ s].
Proof.
  induction s as [|x t IH]; intros field Hs; simpl.
  - by rewrite app_nil_r.
  - apply not_elem_of_cons in Hs as [Hx Ht].
    destruct (N.eqb_spec x c) as [->|_]; [done|].
    rewrite IH by done. by rewrite <- app_assoc.
Qed.

Lemma parse_path_parts (s : str) :
  Forall (fun c => c = [SLASH] \/ plain_name c) (parse_path s).
Proof.
  unfold parse_path.
  assert (Hn : Forall (fun c => c = [SLASH] \/ plain_name c)
    (List.filter (fun c => negb (str_eqb c []) && negb (str_eqb c [DOT]))
                 (str_split SLASH s))).
  { apply Forall_forall. intros c [Hc Hk]%list_elem_of_In%List.filter_In.
    right. apply andb_true_iff in Hk as [H1 H2].
    apply negb_true_iff, str_eqb_false in H1, H2.
    split; [|done].
    pose proof (str_split_from_fields SLASH s [] (not_elem_of_nil _)) as Hf.
    rewrite Forall_forall in Hf. apply Hf. by apply list_elem_of_In. }
  destruct s as [|c s']; [done|].
  destruct (c =? SLASH)%N; [|done]. constructor; [by left|done].
Qed.

Lemma path_name_plain (s : str) :
  path_name (parse_path s) = [] \/ plain_name (path_name (parse_path s)).
Proof.
  unfold path_name, last_item.
  destruct (last (parse_path s)) as [n|] eqn:E; [|by left].
  apply last_Some_elem_of in E.
  pose proof (parse_path_parts s) as Hp. rewrite Forall_forall in Hp.
  destruct (Hp n E) as [->|Hn]; [by left|].
  destruct (str_eqb n [SLASH]) eqn:En; [by left|by right].
Qed.

Lemma parse_path_plain (n : str) : plain_name n -> parse_path n = [n].
Proof.
  intros (Hs & Hn & Hd). unfold parse_path, str_split.
  rewrite str_split_from_whole by done. simpl.
  apply str_eqb_false in Hn, Hd. rewrite Hn, Hd. simpl.
  destruct n as [|c n']; [done|].
  apply not_elem_of_cons in Hs as [Hc _].
  destruct (N.eqb_spec c SLASH); [congruence|done].
Qed.

(** The descriptor lands directly in the destination directory, under
    the last name of the URL path, or on the directory itself when the
    path has no name. *)
Lemma installer_path_name (dest : Path) (up : str) :
  installer_path dest up = dest \/
  (installer_path dest up = dest ++ [path_name (parse_path up)] /\
   plain_name (path_name (parse_path up))).
Proof.
  unfold installer_path. destruct (path_name_plain up) as [->|Hn]; [by left|].
  right. split; [|done]. unfold path_join. rewrite parse_path_plain by done.
  destruct (str_eqb _ [SLASH]) eqn:E; [|done].
  apply str_eqb_true in E. destruct Hn as [Hs _]. rewrite E in Hs.
  exfalso. apply Hs. by apply list_elem_of_singleton.
Qed.

(** C9, as the code has it. With [--no-manifest] the package manifest is
    not generated: every document the run writes is an installer
    descriptor. [AppxManifest.xml] in the destination directory is left as
    it was (unchanged if present, not created if absent) unless
    [--gen-installer] is given too and the descriptor's own file name, the
    last path segment of [AppInstaller.Uri], is [AppxManifest.xml]. *)
Theorem no_manifest_leaves_manifest_file `{Host} (args : Args) (env : Env)
    (fs : gmap Path node) (r : result unit) (w' : World) :
  let manifest_path :=
    path_join (parse_path (destination_dir args)) (lit "AppxManifest.xml") in
  no_manifest args = true ->
  gen_installer args = false \/
  descriptor_name args env <> Some (lit "AppxManifest.xml") ->
  run args env fs = (r, w') ->
  files w' !! manifest_path = fs !! manifest_path /\
  (forall p doc, EWriteXml p doc ∈ trace w' -> tag doc = lit "AppInstaller").
Proof.
  intros mp Hno Hname Hrun. split.
  - revert Hrun. unfold run, script. rewrite M_bind_unfold.
    destruct (load_specs _ _ _) as [[[app inst]|e] w1] eqn:E;
      pose proof E as [_ Hst]%run_staging.
    + simpl. intros Hrun.
      pose proof (changes_emit_documents args app inst w1) as [Hf _].
      rewrite Hrun in Hf. simpl in Hf.
      assert (Hmp : mp = parse_path (destination_dir args)
                           ++ [lit "AppxManifest.xml"]) by reflexivity.
      rewrite Hf; [apply Hst|].
      * rewrite Hmp. intros [Heq|[Heq|Heq]]; by apply app_inv_head in Heq.
      * intros [[Hn _]|(Hg & up & Hu & Hp)]; [congruence|].
        destruct Hname as [Hn|Hn]; [congruence|]. apply Hn.
        apply load_specs_Ok in E
          as (mdoc & am & im & w0 & Hj & _ & Him & _ & _ & Hl).
        apply load_installer_Ok in Hl as (_ & Hi & _).
        unfold descriptor_name, getitem2. rewrite Hj. simpl.
        rewrite Him. simpl. rewrite Hi. simpl. rewrite Hu. simpl. f_equal.
        destruct (installer_path_name (parse_path (destination_dir args)) up)
          as [Hd|[Hd _]]; rewrite Hd, Hmp in Hp.
        -- apply (f_equal length) in Hp. rewrite length_app in Hp.
           simpl in Hp. lia.
        -- by apply app_inv_head in Hp as [= <-].
    + intros [= <- <-]. apply Hst.
      intros [Heq|[Heq|Heq]]; by apply app_inv_head in Heq.
  - intros p doc Hin.
    destruct (run_documents _ _ _ _ _ _ _ Hrun Hin)
      as (app & inst & w1 & _ & [(Hn & _)|(_ & (root & Hg & Hi) & _)]).
    + congruence.
    + by destruct (installer_document _ _ _ _ _ Hg Hi) as [Ht _].
Qed.

Section Resolver.

Context {host : Host}.
Variable parsed_args : Args.
Variable env : Env.

(** What the resolver returns when it has to ask the store. *)
Lemma get_cert_subject_store (w : World) (s : str) :
  given (cert_subject parsed_args) = None ->
  (get_cert_subject parsed_args env w).1 = Ok s <->
  exists out text a b,
    subprocess_run env (pwsh_argv (store_path parsed_args)) = Exited 0 out /\
    utf8_decode out = Some text /\
    str_splitlines text = [a; b; s].
Proof.
  intros Hg. unfold get_cert_subject, store_path. rewrite Hg.
  rewrite M_bind_unfold. unfold run_checked.
  destruct (subprocess_run env _) as [rc out|e]; simpl.
  - destruct (Z.eqb_spec rc 0) as [->|Hrc]; simpl.
    + destruct (utf8_decode out) as [text|] eqn:Ed; simpl.
      * rewrite M_bind_unfold.
        destruct (str_splitlines text) as [|a [|b [|c [|d l]]]] eqn:El; simpl.
        -- split; [done|]. intros (? & ? & ? & ? & ? & ? & ?). congruence.
        -- split; [done|]. intros (? & ? & ? & ? & ? & ? & ?). congruence.
        -- split; [done|]. intros (? & ? & ? & ? & ? & ? & ?). congruence.
        -- split.
           ++ intros [= <-]. by exists out, text, a, b.
           ++ intros (? & ? & ? & ? & ? & ? & ?). congruence.
        -- split; [done|]. intros (? & ? & ? & ? & ? & ? & ?). congruence.
      * split; [done|]. intros (? & ? & ? & ? & ? & ? & ?). congruence.
    + split; [done|]. intros (? & ? & ? & ? & ? & ? & ?). congruence.
  - split; [done|]. intros (? & ? & ? & ? & ? & ? & ?). congruence.
Qed.

End Resolver.

(** C7. When the certificate store has to be asked, the resolver returns
    a subject exactly when the query's captured output decodes to three
    lines, and the subject is the third; in every other case it raises.
    A run that does not abort therefore had such an output. *)
Theorem cert_query_needs_three_lines `{Host} (args : Args) (env : Env) :
  given (cert_subject args) = None ->
  (forall w s,
     (get_cert_subject args env w).1 = Ok s <->
     exists out text a b,
       subprocess_run env (pwsh_argv (store_path args)) = Exited 0 out /\
       utf8_decode out = Some text /\
       str_splitlines text = [a; b; s]) /\
  (forall fs w',
     run args env fs = (Ok tt, w') ->
     exists out text a b s,
       subprocess_run env (pwsh_argv (store_path args)) = Exited 0 out /\
       utf8_decode out = Some text /\
       str_splitlines text = [a; b; s]).
Proof.
  intros Hg. split.
  - intros w s. by apply get_cert_subject_store.
  - intros fs w'. unfold run, script. intros Hrun.
    apply M_bind_Ok in Hrun as ([app inst] & w1 & Hl & _).
    apply load_specs_Ok in Hl as (mdoc & am & im & w0 & _ & _ & _ & _ & Ha & _).
    apply load_app_Ok in Ha as (w2 & bg & Hc & _).
    assert (Hs : (get_cert_subject args env w0).1 = Ok (publisher (cert app)))
      by (by rewrite Hc).
    apply get_cert_subject_store in Hs as (out & text & a & b & Hs); [|done].
    by exists out, text, a, b, (publisher (cert app)).
Qed.


(** *** The PowerShell command *)

Lemma splitlines_from_lf (l : str) : forall acc rest,
  Forall (fun c => is_linebreak c = false) l ->
  splitlines_from acc (l ++ LF :: rest) =
  (acc ++ l) :: splitlines_from [] rest.
Proof.
  induction l as [|c l IH]; intros acc rest Hl; simpl.
  - rewrite app_nil_r. by destruct rest.
  - inversion Hl as [|? ? Hc Hl']; subst. rewrite Hc.
    rewrite IH by done. by rewrite <- app_assoc.
Qed.

Lemma word_char_no_linebreak (c : N) :
  PowerShell.is_word_char c = true -> is_linebreak c = false.
Proof.
  unfold PowerShell.is_word_char, PowerShell.is_name_char,
    PowerShell.is_letter, PowerShell.is_digit, is_linebreak. lia.
Qed.

Lemma word_char_in_word (c : N) :
  PowerShell.is_word_char c = true ->
  PowerShell.is_blank c = false /\ PowerShell.punctuation c = None /\
  (c =? 36)%N = false.
Proof.
  intros Hc. unfold PowerShell.is_word_char, PowerShell.is_name_char,
    PowerShell.is_letter, PowerShell.is_digit in Hc.
  unfold PowerShell.is_blank, PowerShell.punctuation.
  repeat split; try lia.
  repeat match goal with
  | |- context [if ?b then _ else _] =>
      replace b with false by lia
  end. reflexivity.
Qed.

Lemma str_strip_line (a m b : str) (c d : N) (n : nat) :
  is_space c = false -> is_space d = false ->
  str_strip (replicate n 32%N ++ (c :: a) ++ m ++ b ++ [d])
  = (c :: a) ++ m ++ b ++ [d].
Proof.
  intros Hc Hd. unfold str_strip.
  assert (Hl : str_lstrip (replicate n 32%N ++ (c :: a) ++ m ++ b ++ [d])
               = (c :: a) ++ m ++ b ++ [d]).
  { induction n as [|n IH]; simpl; [by rewrite Hc|exact IH]. }
  rewrite Hl.
  replace ((c :: a) ++ m ++ b ++ [d]) with (((c :: a) ++ m ++ b) ++ [d])
    by (by rewrite <- !app_assoc).
  generalize ((c :: a) ++ m ++ b). intros x.
  rewrite rev_unit. simpl. rewrite Hd. simpl. by rewrite rev_involutive.
Qed.

(** The text of the command for a store path without line breaks. *)
Lemma pwsh_cmd_text (path : str) :
  Forall (fun c => is_linebreak c = false) path ->
  pwsh_cmd path =
  lit "\;$certs = (Get-ChildItem -Path " ++ path ++
  lit " -Recurse -CodeSigningCert);$filter_valid_certs = $certs | Where-Object { $_.NotBefore -lt (Get-Date) -and $_.NotAfter -gt (Get-Date) };$cert = ($filter_valid_certs | sort NotAfter)[-1];$cert.FriendlyName;$cert.Thumbprint;$cert.Subject;".
Proof.
  intros Hp. unfold pwsh_cmd, str_splitlines.
  set (rest := lit "        $filter_valid_certs = $certs | Where-Object { $_.NotBefore -lt (Get-Date) -and $_.NotAfter -gt (Get-Date) }" ++ [LF] ++
  lit "        $cert = ($filter_valid_certs | sort NotAfter)[-1]" ++ [LF] ++
  lit "        $cert.FriendlyName" ++ [LF] ++
  lit "        $cert.Thumbprint" ++ [LF] ++
  lit "        $cert.Subject" ++ [LF] ++
  lit "    ").
  assert (Hcode : cert_code path =
    lit " \" ++ LF ::
    (replicate 8 32%N ++ (36%N :: lit "certs = (Get-ChildItem -Path") ++
     (32%N :: path) ++ lit " -Recurse -CodeSigningCert" ++ [41%N]) ++
    LF :: rest).
  { unfold cert_code. rewrite <- !app_assoc. reflexivity. }
  rewrite Hcode.
  rewrite (splitlines_from_lf (lit " \")) by (by repeat constructor).
  rewrite splitlines_from_lf.
  2:{ rewrite !Forall_app. repeat split; by repeat constructor. }
  assert (Hrest : splitlines_from [] rest =
    [lit "        $filter_valid_certs = $certs | Where-Object { $_.NotBefore -lt (Get-Date) -and $_.NotAfter -gt (Get-Date) }";
     lit "        $cert = ($filter_valid_certs | sort NotAfter)[-1]";
     lit "        $cert.FriendlyName"; lit "        $cert.Thumbprint";
     lit "        $cert.Subject"; lit "    "]) by (vm_compute; reflexivity).
  rewrite Hrest. cbn [List.map]. rewrite !app_nil_l.
  rewrite (str_strip_line _ (32%N :: path) _ 36%N 41%N 8) by reflexivity.
  repeat match goal with
  | |- context [str_strip (lit ?s)] =>
      let v := eval vm_compute in (str_strip (lit s)) in
      replace (str_strip (lit s)) with v by (vm_compute; reflexivity)
  end.
  cbn [str_join]. rewrite <- !app_assoc. reflexivity.
Qed.

(** A blank between two texts: the tokens of the first, then those of the
    second. *)
Lemma lex_blank (a : str) : forall r s,
  PowerShell.lex r (a ++ 32%N :: s) =
  (ts1 <- PowerShell.lex r a ;; ts2 <- PowerShell.lex PowerShell.Idle s ;;
   Some (ts1 ++ ts2)).
Proof.
  induction a as [|c a IH]; intros r s.
  - simpl. by destruct (PowerShell.lex PowerShell.Idle s).
  - cbn [app PowerShell.lex].
    destruct (PowerShell.is_blank c).
    { rewrite IH. destruct (PowerShell.lex PowerShell.Idle a); simpl; [|done].
      destruct (PowerShell.lex PowerShell.Idle s); simpl; [|done].
      by rewrite app_assoc. }
    destruct (PowerShell.punctuation c) as [k|].
    { rewrite IH. destruct (PowerShell.lex _ a); simpl; [|done].
      destruct (PowerShell.lex PowerShell.Idle s); simpl; [|done].
      by rewrite <- app_assoc. }
    destruct r; repeat match goal with
    | |- context [if ?b then _ else _] => destruct b
    end; rewrite ?IH; try done;
    destruct (PowerShell.lex _ a); simpl; try done;
    destruct (PowerShell.lex PowerShell.Idle s); simpl; done.
Qed.

Lemma lex_word (w : str) : forall acc,
  Forall (fun c => PowerShell.is_word_char c = true) w ->
  PowerShell.lex (PowerShell.InWord acc) w = Some [PowerShell.TWord (acc ++ w)].
Proof.
  induction w as [|c w IH]; intros acc Hw; simpl.
  - by rewrite app_nil_r.
  - inversion Hw as [|? ? Hc Hw']; subst.
    destruct (word_char_in_word c Hc) as (-> & -> & _). rewrite Hc.
    rewrite IH by done. by rewrite <- app_assoc.
Qed.

Lemma lex_plain_path (path : str) :
  plain_path path ->
  PowerShell.lex PowerShell.Idle path = Some [PowerShell.TWord path].
Proof.
  destruct path as [|c w]; [done|]. intros [_ Hw].
  inversion Hw as [|? ? Hc Hw']; subst. simpl.
  destruct (word_char_in_word c Hc) as (-> & -> & ->). rewrite Hc.
  by rewrite lex_word.
Qed.

Lemma command_line_pwsh_argv (path : str) :
  command_line (pwsh_argv path) = Some (pwsh_cmd path).
Proof. reflexivity. Qed.

(** The statements of the command. *)
Lemma cert_code_parsed (path : str) :
  plain_path path ->
  (ts <- PowerShell.lex PowerShell.Idle (pwsh_cmd path) ;; PowerShell.parse ts)
    = Some (cert_statements path).
Proof.
  intros Hp. rewrite pwsh_cmd_text.
  2:{ destruct path; [done|]. destruct Hp as [_ Hw].
      eapply Forall_impl; [exact Hw|]. apply word_char_no_linebreak. }
  change (lit "\;$certs = (Get-ChildItem -Path ")
    with (lit "\;$certs = (Get-ChildItem -Path" ++ [32%N]).
  rewrite <- app_assoc. cbn [app].
  change (lit " -Recurse -CodeSigningCert);$filter_valid_certs = $certs | Where-Object { $_.NotBefore -lt (Get-Date) -and $_.NotAfter -gt (Get-Date) };$cert = ($filter_valid_certs | sort NotAfter)[-1];$cert.FriendlyName;$cert.Thumbprint;$cert.Subject;")
    with (32%N :: lit "-Recurse -CodeSigningCert);$filter_valid_certs = $certs | Where-Object { $_.NotBefore -lt (Get-Date) -and $_.NotAfter -gt (Get-Date) };$cert = ($filter_valid_certs | sort NotAfter)[-1];$cert.FriendlyName;$cert.Thumbprint;$cert.Subject;").
  rewrite !lex_blank, (lex_plain_path path Hp).
  vm_compute. reflexivity.
Qed.

Section Selection.

Variable store : str -> list Certificate.
Variable now : Z.
Variable sort_by_key : list (Z * PowerShell.value) -> list (Z * PowerShell.value).

Lemma mapM_map_Some {A B C} (f : B -> option C) (g : A -> B) (h : A -> C)
    (l : list A) :
  (forall a, f (g a) = Some (h a)) ->
  mapM f (List.map g l) = Some (List.map h l).
Proof.
  intros Hf. induction l as [|a l IH]; simpl; [done|].
  rewrite Hf. simpl. rewrite IH. done.
Qed.

Lemma filter_marked {A B} (f : A -> bool) (g : A -> B) (l : list A) :
  List.map snd (List.filter fst (List.map (fun a => (f a, g a)) l))
  = List.map g (List.filter f l).
Proof.
  induction l as [|a l IH]; simpl; [done|].
  destruct (f a); simpl; by rewrite IH.
Qed.

Lemma item_last (l : list PowerShell.value) (v : PowerShell.value) :
  last l = Some v -> PowerShell.item l (-1) = [v].
Proof.
  intros Hl. unfold PowerShell.item. simpl.
  assert (Hn : (0 < length l)%nat) by (destruct l; [done|simpl; lia]).
  replace (Z.of_nat (length l) + -1 <? 0) with false by lia.
  replace (Z.to_nat (Z.of_nat (length l) + -1)) with (pred (length l)) by lia.
  rewrite <- last_lookup, Hl. done.
Qed.

Lemma exec_all_step vars st rest vars' out lines :
  PowerShell.exec store now sort_by_key vars st = Some (vars', out) ->
  PowerShell.exec_all store now sort_by_key vars' rest = Some lines ->
  PowerShell.exec_all store now sort_by_key vars (st :: rest)
    = Some (out ++ lines).
Proof. intros Hs Hr. cbn [PowerShell.exec_all]. rewrite Hs. simpl. by rewrite Hr. Qed.

Lemma exec_assign vars name e l :
  PowerShell.eval store now sort_by_key vars e = Some l ->
  PowerShell.exec store now sort_by_key vars (PowerShell.Assign name e)
    = Some ((name, l) :: vars, []).
Proof. intros He. unfold PowerShell.exec. by rewrite He. Qed.

Lemma exec_write vars e l lines :
  PowerShell.eval store now sort_by_key vars e = Some l ->
  mapM PowerShell.text_of l = Some lines ->
  PowerShell.exec store now sort_by_key vars (PowerShell.Write e)
    = Some (vars, lines).
Proof. intros He Hl. unfold PowerShell.exec. rewrite He. simpl. by rewrite Hl. Qed.

(** What the command writes when some certificate is in its window: the
    three properties of the last of the certificates that pass the
    filter, in the order [Sort-Object] gave them. *)
Lemma cert_statements_lines (path : str) (k : Z) (c : Certificate) :
  plain_path path ->
  last (sort_by_key
          (List.map (fun c => (NotAfter c, PowerShell.VCert c))
                    (List.filter (in_window now) (store path))))
    = Some (k, PowerShell.VCert c) ->
  PowerShell.exec_all store now sort_by_key [] (cert_statements path)
    = Some [FriendlyName c; Thumbprint c; Subject c].
Proof.
  intros Hp Hlast. destruct path as [|c0 path]; [done|].
  destruct Hp as [Hc0 _]. apply N.eqb_neq in Hc0.
  set (valid := List.filter (in_window now) (store (c0 :: path))) in *.
  unfold cert_statements.
  eapply (exec_all_step _ _ _ _ []).
  { eapply exec_write; reflexivity. }
  eapply (exec_all_step _ _ _ _ []).
  { apply exec_assign. simpl. rewrite Hc0. reflexivity. }
  eapply (exec_all_step _ _ _ _ []).
  { apply (exec_assign _ _ _ (List.map PowerShell.VCert valid)).
    cbn [PowerShell.eval].
    replace (PowerShell.lookup_variable (lit "certs") _)
      with (List.map PowerShell.VCert (store (c0 :: path))) by done.
    cbn [mbind option_bind].
    replace (str_eqb (lit "Where-Object") (lit "Where-Object")) with true by done.
    rewrite (mapM_map_Some _ _ (fun c => (in_window now c, PowerShell.VCert c))).
    2:{ intros d. simpl. unfold in_window. by destruct (NotBefore d <? now). }
    cbn [mbind option_bind]. f_equal. apply filter_marked. }
  eapply (exec_all_step _ _ _ _ []).
  { apply (exec_assign _ _ _ [PowerShell.VCert c]).
    cbn [PowerShell.eval].
    replace (PowerShell.lookup_variable (lit "filter_valid_certs") _)
      with (List.map PowerShell.VCert valid) by done.
    cbn [mbind option_bind].
    replace (str_eqb (lit "sort") (lit "Where-Object")) with false by done.
    replace (str_eqb (lit "sort") (lit "sort")) with true by done.
    cbn [orb].
    rewrite (mapM_map_Some _ _ (fun c => (NotAfter c, PowerShell.VCert c)))
      by done.
    cbn [mbind option_bind].
    set (sorted := sort_by_key _) in *.
    assert (Hl : last (List.map snd sorted) = Some (PowerShell.VCert c)).
    { change (List.map snd sorted) with (snd <$> sorted).
      rewrite fmap_last, Hlast. done. }
    rewrite (item_last _ _ Hl).
    destruct (List.map snd sorted); [done|done]. }
  eapply (exec_all_step _ _ _ _ [FriendlyName c]).
  { eapply exec_write; reflexivity. }
  eapply (exec_all_step _ _ _ _ [Thumbprint c]).
  { eapply exec_write; reflexivity. }
  eapply (exec_all_step _ _ _ _ [Subject c]).
  { eapply exec_write; reflexivity. }
  reflexivity.
Qed.

Lemma sorted_last_greatest {A} (key : A -> Z) (l : list A) (x : A) :
  StronglySorted (fun a b => key a <= key b) l -> last l = Some x ->
  forall y, y ∈ l -> key y <= key x.
Proof.
  induction 1 as [|a l Hs IH Ha]; [done|].
  intros Hl y Hy. destruct l as [|b l'].
  - injection Hl as <-. apply list_elem_of_singleton in Hy as ->. lia.
  - rewrite last_cons_cons in Hl.
    apply elem_of_cons in Hy as [->|Hy]; [|by apply IH].
    rewrite Forall_forall in Ha. apply Ha. by eapply last_Some_elem_of.
Qed.

(** The certificate [Sort-Object] puts last: one that passed the filter,
    with the latest [NotAfter] of those that did. *)
Lemma last_sorted_cert (path : str) (d : Certificate) :
  sorts sort_by_key ->
  d ∈ store path -> in_window now d = true ->
  exists k c,
    last (sort_by_key
            (List.map (fun c => (NotAfter c, PowerShell.VCert c))
                      (List.filter (in_window now) (store path))))
      = Some (k, PowerShell.VCert c) /\
    c ∈ store path /\ in_window now c = true /\
    forall e, e ∈ store path -> in_window now e = true -> NotAfter e <= NotAfter c.
Proof.
  intros Hsort Hd Hv.
  set (keyed := List.map (fun c => (NotAfter c, PowerShell.VCert c))
                         (List.filter (in_window now) (store path))).
  destruct (Hsort keyed) as [Hperm Hsorted].
  assert (Hkeyed : forall e, e ∈ store path -> in_window now e = true ->
                   (NotAfter e, PowerShell.VCert e) ∈ sort_by_key keyed).
  { intros e He Hw. rewrite Hperm. unfold keyed.
    apply list_elem_of_In, List.in_map_iff. exists e. split; [done|].
    apply List.filter_In. split; [by apply list_elem_of_In|done]. }
  destruct (last (sort_by_key keyed)) as [[k v]|] eqn:Hl.
  2:{ apply last_None in Hl. specialize (Hkeyed d Hd Hv).
      rewrite Hl in Hkeyed. by apply elem_of_nil in Hkeyed. }
  pose proof (last_Some_elem_of _ _ Hl) as Hin. rewrite Hperm in Hin.
  apply list_elem_of_In, List.in_map_iff in Hin as (c & [= <- <-] & Hc).
  apply List.filter_In in Hc as [Hc Hw]. apply list_elem_of_In in Hc.
  exists (NotAfter c), c. split; [done|]. split; [done|]. split; [done|].
  intros e He Hwe.
  exact (sorted_last_greatest fst _ _ Hsorted Hl _ (Hkeyed e He Hwe)).
Qed.

End Selection.

(** C3. With no explicit subject the resolver sends its command to
    PowerShell with the store path in it.  When that path is one bare
    word, the child process ran that command text on the machine's
    certificate store at the time [now] and what was captured is what the
    command wrote, and some code-signing certificate of the store is valid
    at [now], the resolver returns the subject of a certificate of the
    store whose validity window contains [now] and whose expiration is
    the latest among the certificates valid at [now]. *)
Theorem store_selects_latest_valid_cert `{Host} (args : Args) (env : Env)
    (store : str -> list Certificate) (now : Z)
    (sort_by_key : list (Z * PowerShell.value) -> list (Z * PowerShell.value))
    (w : World) :
  given (cert_subject args) = None ->
  plain_path (store_path args) ->
  sorts sort_by_key ->
  powershell_ran env store now sort_by_key (pwsh_argv (store_path args)) ->
  (exists c, c ∈ store (store_path args) /\ NotBefore c < now < NotAfter c) ->
  exists c,
    (get_cert_subject args env w).1 = Ok (Subject c) /\
    c ∈ store (store_path args) /\
    NotBefore c < now < NotAfter c /\
    forall d, d ∈ store (store_path args) ->
              NotBefore d < now < NotAfter d ->
              NotAfter d <= NotAfter c.
Proof.
  intros Hg Hp Hsort (cmd & out & text & Hcmd & Hrun & Hdec & Hlines)
    (d & Hd & Hv).
  rewrite command_line_pwsh_argv in Hcmd. injection Hcmd as <-.
  assert (Hvd : in_window now d = true) by (unfold in_window; lia).
  destruct (last_sorted_cert store now sort_by_key _ d Hsort Hd Hvd)
    as (k & c & Hlast & Hc & Hvc & Hmax).
  pose proof (cert_statements_lines store now sort_by_key _ k c Hp Hlast)
    as Hexec.
  pose proof (cert_code_parsed _ Hp) as Hparse.
  unfold PowerShell.script_lines in Hlines.
  destruct (PowerShell.lex PowerShell.Idle (pwsh_cmd (store_path args)))
    as [ts|]; [|discriminate Hparse].
  change (PowerShell.parse ts = Some (cert_statements (store_path args)))
    in Hparse.
  change ((sts <- PowerShell.parse ts ;;
           PowerShell.exec_all store now sort_by_key [] sts)
          = Some (str_splitlines text)) in Hlines.
  rewrite Hparse in Hlines.
  change (PowerShell.exec_all store now sort_by_key []
            (cert_statements (store_path args))
          = Some (str_splitlines text)) in Hlines.
  rewrite Hexec in Hlines. injection Hlines as Hlines.
  exists c. split.
  - apply get_cert_subject_store; [exact Hg|].
    exists out, text, (FriendlyName c), (Thumbprint c).
    split; [exact Hrun|]. split; [exact Hdec|]. symmetry. exact Hlines.
  - split; [exact Hc|]. split; [unfold in_window in Hvc; lia|].
    intros e He Hve. apply Hmax; [exact He|]. unfold in_window. lia.
Qed.

(** Membership in a list that computes. *)
Ltac in_computed_list :=
  apply list_elem_of_In; vm_compute;
  repeat first [ left; reflexivity | right ].

Lemma installer_padded_to_limit_witness :
  Example.tool_run.1 = Ok tt /\
  files Example.tool_run.2 !! [lit "out"; lit "Tool.appinstaller"]
    = Some (File (Example.tool_xml ++
                  x0a :: replicate (4095 - length Example.tool_xml) x20)) /\
  length (Example.tool_xml ++
          x0a :: replicate (4095 - length Example.tool_xml) x20) = 4096%nat.
Proof.
  apply (installer_padded_to_limit (H:=Reference.host)
           (Example.args false true) (Example.env Example.tool_document)
           Example.logos Example.tool_run.1 Example.tool_run.2
           [lit "out"; lit "Tool.appinstaller"]
           Example.tool_descriptor Example.tool_xml).
  - apply surjective_pairing.
  - in_computed_list.
  - vm_compute. reflexivity.
  - vm_compute. reflexivity.
  - apply Nat.ltb_lt. vm_compute. reflexivity.
Defined.

Lemma oversized_installer_aborts_witness :
  Example.long_run.1
    = Raise (AssertionError
        (lit "AppInstaller file size is larger than the 4096B limit")) /\
  files Example.long_run.2 !! [lit "out"; lit "Tool.appinstaller"]
    = Some (File Example.long_xml).
Proof.
  apply (oversized_installer_aborts (H:=Reference.host)
           (Example.args false true) (Example.env Example.long_document)
           Example.logos Example.long_run.1 Example.long_run.2
           [lit "out"; lit "Tool.appinstaller"]
           Example.long_descriptor Example.long_xml).
  - apply surjective_pairing.
  - in_computed_list.
  - vm_compute. reflexivity.
  - vm_compute. reflexivity.
  - apply Nat.leb_le. vm_compute. reflexivity.
Defined.

(** C2 fails as stated: this run measures a descriptor of more than 4096
    bytes and aborts, but the message it aborts with names only the
    limit, not the measured size. *)
Lemma oversized_message_omits_size :
  exists msg,
    Example.long_run.1 = Raise (AssertionError msg) /\
    (4096 <=? length Example.long_xml)%nat = true /\
    files Example.long_run.2 !! [lit "out"; lit "Tool.appinstaller"]
      = Some (File Example.long_xml) /\
    str_in (lit "4096") msg = true /\
    str_in (str_of_Z (Z.of_nat (length Example.long_xml))) msg = false.
Proof.
  exists (lit "AppInstaller file size is larger than the 4096B limit").
  repeat split; vm_compute; reflexivity.
Qed.

Lemma insert_by_key_perm x l : Example.insert_by_key x l ≡ₚ x :: l.
Proof.
  induction l as [|y l IH]; simpl; [done|].
  destruct (fst x <? fst y); [done|].
  rewrite IH. apply Permutation_swap.
Qed.

Lemma insert_by_key_sorted x l :
  StronglySorted (fun a b => fst a <= fst b) l ->
  StronglySorted (fun a b => fst a <= fst b) (Example.insert_by_key x l).
Proof.
  induction 1 as [|y l Hl IH Hy]; simpl.
  - repeat constructor.
  - destruct (Z.ltb_spec (fst x) (fst y)).
    + constructor; [by constructor|].
      constructor; [lia|].
      eapply Forall_impl; [exact Hy|]. simpl. intros; lia.
    + constructor; [done|].
      rewrite insert_by_key_perm. constructor; [lia|done].
Qed.

Lemma sort_by_key_sorts : sorts Example.sort_by_key.
Proof.
  intros l. unfold Example.sort_by_key.
  induction l as [|x l [IHp IHs]]; simpl.
  - split; [done|constructor].
  - split; [by rewrite insert_by_key_perm, IHp|].
    by apply insert_by_key_sorted.
Qed.

Lemma store_selects_latest_valid_cert_witness :
  exists c,
    (get_cert_subject (host:=Reference.host) (Example.args false true)
       (Example.env Example.tool_document) (mkWorld Example.logos [])).1
      = Ok (Subject c) /\
    c ∈ Example.store (store_path (Example.args false true)) /\
    NotBefore c < 300 < NotAfter c /\
    forall d, d ∈ Example.store (store_path (Example.args false true)) ->
              NotBefore d < 300 < NotAfter d ->
              NotAfter d <= NotAfter c.
Proof.
  apply (store_selects_latest_valid_cert (H:=Reference.host)
           (Example.args false true) (Example.env Example.tool_document)
           Example.store 300 Example.sort_by_key).
  - reflexivity.
  - split; [discriminate|]. repeat constructor.
  - exact sort_by_key_sorts.
  - eexists _, _, _. split; [reflexivity|].
    split; [vm_compute; reflexivity|].
    split; vm_compute; reflexivity.
  - exists (mkCertificate (lit "Mid") (lit "AA03") (lit "CN=Mid") 150 500).
    split; [in_computed_list|simpl; lia].
Defined.

Lemma manifest_publisher_is_cert_subject_witness :
  exists subject,
    (get_cert_subject (host:=Reference.host) (Example.args false true)
       (Example.env Example.tool_document) (mkWorld Example.logos [])).1
      = Ok subject /\
    publisher_attr Example.tool_manifest_xml = Some (PStr subject) /\
    (forall s, given (cert_subject (Example.args false true)) = Some s ->
               subject = s).
Proof.
  apply (manifest_publisher_is_cert_subject (H:=Reference.host)
           (Example.args false true) (Example.env Example.tool_document)
           Example.logos Example.tool_run.1 Example.tool_run.2
           [lit "out"; lit "AppxManifest.xml"] Example.tool_manifest_xml).
  - apply surjective_pairing.
  - in_computed_list.
  - vm_compute. reflexivity.
Defined.

Lemma application_id_is_last_segment_witness :
  exists root doc seg,
    gen_appx_manifest Example.tool_app = Ok root /\
    et_indent root = Ok doc /\
    application_id root = Some (PStr seg) /\
    application_id doc = Some (PStr seg) /\
    (DOT ∉ seg) /\
    (lit "Contoso.App.Tool" = seg \/
     exists pre, lit "Contoso.App.Tool" = pre ++ DOT :: seg).
Proof.
  apply (application_id_is_last_segment Example.tool_app
           (lit "Contoso.App.Tool")).
  reflexivity.
Defined.

Lemma missing_logos_abort_before_xml_witness :
  (exists e, Example.no_logos_run.1 = Raise e) /\
  Forall staging_event (trace Example.no_logos_run.2) /\
  files Example.no_logos_run.2 !! [lit "out"; lit "AppxManifest.xml"]
    = Example.no_logos !! [lit "out"; lit "AppxManifest.xml"] /\
  (forall p, ~ staged [lit "out"] p ->
             files Example.no_logos_run.2 !! p = Example.no_logos !! p).
Proof.
  apply (missing_logos_abort_before_xml (H:=Reference.host)
           (Example.args false true) (Example.env Example.tool_document)
           Example.no_logos Example.no_logos_run.1 Example.no_logos_run.2).
  - left. vm_compute. reflexivity.
  - apply surjective_pairing.
Defined.

Lemma cert_query_needs_three_lines_witness :
  (forall w s,
     (get_cert_subject (host:=Reference.host) (Example.args false true)
        (Example.env Example.tool_document) w).1 = Ok s <->
     exists out text a b,
       subprocess_run (Example.env Example.tool_document)
         (pwsh_argv (store_path (Example.args false true))) = Exited 0 out /\
       utf8_decode out = Some text /\
       str_splitlines text = [a; b; s]) /\
  (forall fs w',
     run (H:=Reference.host) (Example.args false true)
         (Example.env Example.tool_document) fs = (Ok tt, w') ->
     exists out text a b s,
       subprocess_run (Example.env Example.tool_document)
         (pwsh_argv (store_path (Example.args false true))) = Exited 0 out /\
       utf8_decode out = Some text /\
       str_splitlines text = [a; b; s]).
Proof.
  apply (cert_query_needs_three_lines (H:=Reference.host)
           (Example.args false true) (Example.env Example.tool_document)).
  reflexivity.
Defined.

Lemma background_task_element_iff_flag_witness :
  exists mdoc flag,
    json_load (Example.env Example.tool_document)
              (manifest (Example.args false true)) = Ok mdoc /\
    getitem3 mdoc (lit "AppInstaller") (lit "UpdateSettings")
             (lit "AutomaticBackgroundTask") = Ok flag /\
    background_task_elements Example.tool_descriptor =
      if truthy flag then [([], PNone, [])] else [].
Proof.
  apply (background_task_element_iff_flag (H:=Reference.host)
           (Example.args false true) (Example.env Example.tool_document)
           Example.logos Example.tool_run.1 Example.tool_run.2
           [lit "out"; lit "Tool.appinstaller"] Example.tool_descriptor).
  - apply surjective_pairing.
  - in_computed_list.
  - vm_compute. reflexivity.
Defined.

Lemma no_manifest_leaves_manifest_file_witness :
  files Example.skipping_run.2 !! [lit "out"; lit "AppxManifest.xml"]
    = Example.logos_and_manifest !! [lit "out"; lit "AppxManifest.xml"] /\
  (forall p doc, EWriteXml p doc ∈ trace Example.skipping_run.2 ->
                 tag doc = lit "AppInstaller").
Proof.
  apply (no_manifest_leaves_manifest_file (H:=Reference.host)
           (Example.args true true) (Example.env Example.tool_document)
           Example.logos_and_manifest Example.skipping_run.1
           Example.skipping_run.2).
  - reflexivity.
  - right. intros E. vm_compute in E. discriminate E.
  - apply surjective_pairing.
Defined.

(** C9 fails as stated: this run is invoked with [--no-manifest] (and
    [--gen-installer]); its installer URI ends in [AppxManifest.xml], so
    the one-byte [AppxManifest.xml] that was in the destination directory
    is replaced by the padded installer descriptor. *)
Lemma installer_named_manifest_overwrites :
  no_manifest (Example.args true true) = true /\
  Example.logos_and_manifest !! [lit "out"; lit "AppxManifest.xml"]
    = Some (File [x41]) /\
  Example.clash_run.1 = Ok tt /\
  exists data,
    files Example.clash_run.2 !! [lit "out"; lit "AppxManifest.xml"]
      = Some (File data) /\
    length data = 4096%nat /\ data <> [x41].
Proof.
  split; [reflexivity|]. split; [vm_compute; reflexivity|].
  split; [vm_compute; reflexivity|].
  eexists. split; [vm_compute; reflexivity|].
  split; [vm_compute; reflexivity|]. discriminate.
Qed.

Lemma incomplete_installer_section_aborts_witness :
  (exists e, Example.bare_run.1 = Raise e) /\
  Forall staging_event (trace Example.bare_run.2).
Proof.
  apply (incomplete_installer_section_aborts (H:=Reference.host)
           (Example.args false false) (Example.env Example.bare_document)
           Example.logos Example.bare_document
           Example.bare_run.1 Example.bare_run.2).
  - reflexivity.
  - vm_compute. reflexivity.
  - apply surjective_pairing.
Defined.


(** * Further properties of the script *)

(** *** The command line sent to PowerShell *)

Lemma splitlines_from_lines_upto (n : nat) : forall (s line : str),
  (length s <= n)%nat ->
  Forall (fun c => is_linebreak c = false) line ->
  Forall (Forall (fun c => is_linebreak c = false)) (splitlines_from line s).
Proof.
  induction n as [|n IH]; intros s line Hn Hl.
  - destruct s; [|simpl in Hn; lia]. simpl.
    destruct line; [constructor|constructor; [exact Hl|constructor]].
  - destruct s as [|c t]; simpl.
    + destruct line; [constructor|constructor; [exact Hl|constructor]].
    + simpl in Hn. destruct (is_linebreak c) eqn:Ec.
      * constructor; [exact Hl|].
        destruct t as [|c' t']; [constructor|]. simpl in Hn.
        destruct ((c =? CR) && (c' =? LF))%N;
          apply IH; simpl; try lia; constructor.
      * apply IH; [lia|].
        apply Forall_app. split; [exact Hl|]. repeat constructor. exact Ec.
Qed.

Lemma splitlines_from_lines (s line : str) :
  Forall (fun c => is_linebreak c = false) line ->
  Forall (Forall (fun c => is_linebreak c = false)) (splitlines_from line s).
Proof. apply (splitlines_from_lines_upto (length s)). lia. Qed.

Lemma str_lstrip_keeps (P : N -> Prop) (s : str) :
  Forall P s -> Forall P (str_lstrip s).
Proof.
  induction 1 as [|c s Hc Hs IH]; simpl; [constructor|].
  destruct (is_space c); [exact IH|constructor; assumption].
Qed.

Lemma str_strip_keeps (P : N -> Prop) (s : str) :
  Forall P s -> Forall P (str_strip s).
Proof.
  intros Hs. unfold str_strip.
  apply Forall_rev, str_lstrip_keeps, Forall_rev, str_lstrip_keeps, Hs.
Qed.

Lemma str_join_keeps (P : N -> Prop) (sep : str) (parts : list str) :
  Forall P sep -> Forall (Forall P) parts -> Forall P (str_join sep parts).
Proof.
  intros Hsep. induction 1 as [|p rest Hp Hrest IH]; simpl; [constructor|].
  destruct rest as [|q rest']; [exact Hp|].
  apply Forall_app. split; [exact Hp|]. apply Forall_app. split; [exact Hsep|exact IH].
Qed.

(** X1. Whatever the store path holds, line breaks included, the command
    handed to PowerShell is a single line: joining the stripped lines of
    the command text with semicolons leaves no line break in it. *)
Theorem pwsh_cmd_is_one_line (cert_path : str) :
  Forall (fun c => is_linebreak c = false) (pwsh_cmd cert_path).
Proof.
  unfold pwsh_cmd. apply str_join_keeps; [by repeat constructor|].
  apply Forall_forall. intros l Hl%list_elem_of_In.
  apply List.in_map_iff in Hl as (l0 & <- & Hl0).
  apply str_strip_keeps.
  pose proof (splitlines_from_lines (cert_code cert_path) [] (Forall_nil_2 _)) as H.
  unfold str_splitlines in Hl0.
  rewrite Forall_forall in H. apply H. by apply list_elem_of_In.
Qed.

(** *** What the generators depend on *)

(** X2. The manifest generator fails in one way only: it returns a
    document exactly when the app name is a string, and raises
    AttributeError (from [name.split]) for a name of any other type,
    whatever the other fields hold. *)
Theorem manifest_needs_string_name (app : MsixApplication) :
  match name app with
  | PStr _ => exists root, gen_appx_manifest app = Ok root
  | _ => gen_appx_manifest app = Raise AttributeError
  end.
Proof.
  destruct app as [nm dn de ve [pb] ar [l44 l150 bg] ep dp mn mx].
  cbn [name].
  destruct nm as [| | | |s| |];
    try (unfold gen_appx_manifest; cbn [name cert publisher split_last];
         vm_compute; reflexivity).
  destruct (split_last_PStr s) as (seg & Hsl & _).
  destruct (gen_appx_manifest_doc
              (mkMsixApplication (PStr s) dn de ve (mkCodeSigningCert pb) ar
                 (mkAppLogo l44 l150 bg) ep dp mn mx) (PStr seg) Hsl)
    as (root & Hg & _).
  exists root. exact Hg.
Qed.

Lemma load_installer_values (im : pyval) inst :
  load_installer im = Ok inst ->
  getitem im (lit "Version") = Ok (installer_version inst) /\
  getitem im (lit "Uri") = Ok (installer_uri inst) /\
  getitem2 im (lit "MainPackage") (lit "Uri") = Ok (appx_uri inst) /\
  getitem3 im (lit "UpdateSettings") (lit "OnLaunch")
              (lit "HoursBetweenUpdateChecks")
    = Ok (hours_between_update_checks inst) /\
  getitem3 im (lit "UpdateSettings") (lit "OnLaunch") (lit "ShowPrompt")
    = Ok (show_prompt inst) /\
  getitem3 im (lit "UpdateSettings") (lit "OnLaunch")
              (lit "UpdateBlocksActivation")
    = Ok (update_blocks_activation inst) /\
  getitem2 im (lit "UpdateSettings") (lit "AutomaticBackgroundTask")
    = Ok (automatic_background_task inst) /\
  getitem2 im (lit "UpdateSettings") (lit "ForceUpdateFromAnyVersion")
    = Ok (force_update_from_any_version inst).
Proof.
  unfold load_installer. intros H. run_Ok H. injection H as <-. simpl.
  repeat split; assumption.
Qed.

(** X3. In every run that writes the installer descriptor, the written
    document has a [ForceUpdateFromAnyVersion] element under
    [UpdateSettings] exactly when the manifest's
    [ForceUpdateFromAnyVersion] value counts as true in Python; the
    element then has the text [true] and neither attributes nor
    children. *)
Theorem force_update_element_iff_flag `{Host} (args : Args) (env : Env)
    (fs : gmap Path node) (r : result unit) (w' : World) (p : Path)
    (doc : Element) :
  run args env fs = (r, w') ->
  EWriteXml p doc ∈ trace w' ->
  tag doc = lit "AppInstaller" ->
  exists mdoc flag,
    json_load env (manifest args) = Ok mdoc /\
    getitem3 mdoc (lit "AppInstaller") (lit "UpdateSettings")
             (lit "ForceUpdateFromAnyVersion") = Ok flag /\
    force_update_elements doc =
      if truthy flag then [([], PStr (lit "true"), [])] else [].
Proof.
  intros Hrun Hin Htag.
  destruct (run_documents _ _ _ _ _ _ _ Hrun Hin)
    as (app & inst & w1 & Hl & [(_ & root & Hg & Hi)|(_ & (root & Hg & Hi) & _)]).
  - destruct (manifest_document _ _ _ Hg Hi) as [Ht _].
    rewrite Htag in Ht. discriminate.
  - apply load_specs_Ok in Hl as (mdoc & am & im & w0 & Hj & _ & Him & _ & _ & Hli).
    apply load_installer_values in Hli as (_ & _ & _ & _ & _ & _ & _ & Hf).
    exists mdoc, (force_update_from_any_version inst).
    split; [exact Hj|]. split.
    + unfold getitem3, getitem2 in *. rewrite Him. simpl. exact Hf.
    + exact (installer_force_update _ _ _ _ _ Hg Hi).
Qed.

(** *** What the installer section must hold *)

Lemma getitem_entry (v : pyval) (k : str) (x : pyval) (rest : list str) :
  getitem v k = Ok x -> has_entry x rest = true ->
  has_entry v (k :: rest) = true.
Proof.
  destruct v as [| | | | | |d]; try discriminate.
  simpl. destruct (assoc k d) as [y|] eqn:Ea; [|discriminate].
  intros [= ->] Hx.
  induction d as [|[k' v'] d IH]; [discriminate|].
  simpl in Ea |- *. destruct (str_eqb k' k).
  - injection Ea as ->. rewrite Hx. reflexivity.
  - rewrite (IH Ea). apply orb_true_r.
Qed.

Lemma getitem2_entries (v : pyval) (k1 k2 : str) (x : pyval) :
  getitem2 v k1 k2 = Ok x -> has_entry v [k1; k2] = true.
Proof.
  unfold getitem2. intros (inner & Hi & Hx)%result_bind_Ok.
  eapply getitem_entry; [exact Hi|].
  eapply getitem_entry; [exact Hx|reflexivity].
Qed.

Lemma getitem3_entries (v : pyval) (k1 k2 k3 : str) (x : pyval) :
  getitem3 v k1 k2 k3 = Ok x -> has_entry v [k1; k2; k3] = true.
Proof.
  unfold getitem3, getitem2.
  intros (inner & (outer & Ho & Hi)%result_bind_Ok & Hx)%result_bind_Ok.
  eapply getitem_entry; [exact Ho|].
  eapply getitem_entry; [exact Hi|].
  eapply getitem_entry; [exact Hx|reflexivity].
Qed.

(** A spec that was built read every one of its values from an entry of
    the section. *)
Lemma load_installer_entries (im : pyval) inst :
  load_installer im = Ok inst ->
  Forall (fun keys => has_entry im keys = true) installer_value_paths.
Proof.
  intros (H1 & H2 & H3 & H4 & H5 & H6 & H7 & H8)%load_installer_values.
  repeat apply Forall_cons_2; [| | | | | | | |apply Forall_nil_2].
  - eapply getitem_entry; [exact H1|reflexivity].
  - eapply getitem_entry; [exact H2|reflexivity].
  - exact (getitem2_entries _ _ _ _ H3).
  - exact (getitem3_entries _ _ _ _ _ H4).
  - exact (getitem3_entries _ _ _ _ _ H5).
  - exact (getitem3_entries _ _ _ _ _ H6).
  - exact (getitem2_entries _ _ _ _ H7).
  - exact (getitem2_entries _ _ _ _ H8).
Qed.

(** X4. None of the eight values of the installer spec has a default:
    when the [AppInstaller] section of the manifest has no entry for one
    of [Version], [Uri], [MainPackage.Uri], the three
    [UpdateSettings.OnLaunch] values or the two [UpdateSettings] flags,
    the run aborts with an exception and has written no document,
    whatever [--gen-installer] says. *)
Theorem missing_installer_value_aborts `{Host} (args : Args) (env : Env)
    (fs : gmap Path node) (doc : pyval) (keys : list str) (r : result unit)
    (w' : World) :
  json_load env (manifest args) = Ok doc ->
  keys ∈ installer_value_paths ->
  has_entry doc (lit "AppInstaller" :: keys) = false ->
  run args env fs = (r, w') ->
  (exists e, r = Raise e) /\ Forall staging_event (trace w').
Proof.
  intros Hdoc Hk Hmiss. unfold run, script. rewrite M_bind_unfold.
  destruct (load_specs _ _ _) as [[[app inst]|e] w1] eqn:E.
  - exfalso.
    apply load_specs_Ok in E as (doc' & am & im & w0 & Hj & _ & Him & _ & _ & Hl).
    rewrite Hdoc in Hj. injection Hj as <-.
    pose proof (load_installer_entries _ _ Hl) as Hall.
    rewrite Forall_forall in Hall.
    rewrite (getitem_entry _ _ _ _ Him (Hall keys Hk)) in Hmiss.
    discriminate Hmiss.
  - intros [= <- <-]. apply run_staging in E as [Hst _].
    split; [eexists; reflexivity|exact Hst].
Qed.


(** *** The certificate resolver in a run *)

Section Resolving.

Context {host : Host}.
Variable parsed_args : Args.

Lemma get_cert_subject_given (env : Env) (w : World) (s : str) :
  given (cert_subject parsed_args) = Some s ->
  get_cert_subject parsed_args env w = (Ok s, w).
Proof. intros Hg. unfold get_cert_subject. rewrite Hg. reflexivity. Qed.

(** Unfold the next statement on both sides of an equation between two
    runs of the same statements. *)
Ltac same_step :=
  rewrite 2 M_bind_unfold;
  match goal with
  | |- match ?m with _ => _ end = match ?m with _ => _ end =>
      destruct m as [[?|?] ?]; [|reflexivity]
  end.

Lemma load_app_given (env env' : Env) (am : pyval) (w : World) (s : str) :
  given (cert_subject parsed_args) = Some s ->
  load_app parsed_args env am w = load_app parsed_args env' am w.
Proof.
  intros Hg. unfold load_app. do 6 same_step.
  rewrite 2 M_bind_unfold.
  rewrite (get_cert_subject_given env _ s Hg).
  rewrite (get_cert_subject_given env' _ s Hg). reflexivity.
Qed.

Lemma load_specs_given (env env' : Env) (w : World) (s : str) :
  given (cert_subject parsed_args) = Some s ->
  json_load env (manifest parsed_args) = json_load env' (manifest parsed_args) ->
  load_specs parsed_args env w = load_specs parsed_args env' w.
Proof.
  intros Hg Hj. unfold load_specs. rewrite Hj. do 4 same_step.
  rewrite 2 M_bind_unfold. rewrite (load_app_given env env' _ _ s Hg).
  reflexivity.
Qed.

Lemma changes_get_cert_subject_console (env : Env) P :
  changes P console_event (get_cert_subject parsed_args env).
Proof.
  unfold get_cert_subject. changes_step; [changes_step|].
  changes_step; [apply changes_run_checked|]. repeat changes_step.
Qed.

(** When the resolver raises, the app spec is not built, and nothing but
    the console has been touched. *)
Lemma load_app_cert_fails (env : Env) (am : pyval) (w : World) (e : exn) :
  (get_cert_subject parsed_args env w).1 = Raise e ->
  forall r w', load_app parsed_args env am w = (r, w') ->
  (exists e', r = Raise e') /\ extends (fun _ => False) console_event w w'.
Proof.
  intros Hc r w' E. unfold load_app in E.
  do 6 (rewrite M_bind_unfold in E; unfold lift at 1 in E;
        match type of E with
        | match ?x with _ => _ end = _ =>
            destruct x as [?|?];
            [|injection E as <- <-;
              split; [eexists; reflexivity|apply extends_refl]]
        end).
  rewrite M_bind_unfold in E.
  pose proof (changes_get_cert_subject_console env (fun _ => False) w) as He.
  destruct (get_cert_subject parsed_args env w) as [[s|e'] w1]; simpl in Hc.
  - discriminate Hc.
  - injection E as <- <-. split; [eexists; reflexivity|exact He].
Qed.

Lemma load_specs_cert_fails (env : Env) (w : World) (e : exn) :
  (get_cert_subject parsed_args env w).1 = Raise e ->
  forall r w', load_specs parsed_args env w = (r, w') ->
  (exists e', r = Raise e') /\ extends (fun _ => False) console_event w w'.
Proof.
  intros Hc r w' E. unfold load_specs in E.
  rewrite M_bind_unfold in E. unfold lift at 1 in E.
  destruct (json_load env _) as [doc|?];
    [|injection E as <- <-; split; [eexists; reflexivity|apply extends_refl]].
  rewrite M_bind_unfold in E. unfold print at 1, emit at 1 in E.
  set (w1 := mkWorld (files w)
               (trace w ++ [EPrint (lit "Generating MSIX files...")])) in E.
  assert (Hw1 : extends (fun _ => False) console_event w w1).
  { split; [reflexivity|]. eexists. split; [reflexivity|].
    constructor; [exact I|constructor]. }
  do 2 (rewrite M_bind_unfold in E; unfold lift at 1 in E;
        match type of E with
        | match ?x with _ => _ end = _ =>
            destruct x as [?|?];
            [|injection E as <- <-; split; [eexists; reflexivity|exact Hw1]]
        end).
  rewrite M_bind_unfold in E.
  rewrite (get_cert_subject_pure parsed_args env w w1) in Hc.
  match type of E with
  | context [load_app parsed_args env ?am w1] =>
      destruct (load_app parsed_args env am w1) as [r2 w2] eqn:E2;
      destruct (load_app_cert_fails env am w1 e Hc r2 w2 E2) as [[e' ->] Hx]
  end.
  injection E as <- <-. split; [eexists; reflexivity|].
  exact (extends_trans _ _ _ _ _ Hw1 Hx).
Qed.

End Resolving.

(** X5. With a [--cert-subject] that is not empty, the certificate store
    plays no part: two machines that read the same manifest give the same
    outcome, the same files and the same console output, whatever their
    PowerShell answers. *)
Theorem explicit_subject_ignores_store `{Host} (args : Args) (env env' : Env)
    (fs : gmap Path node) :
  given (cert_subject args) <> None ->
  json_load env (manifest args) = json_load env' (manifest args) ->
  run args env fs = run args env' fs.
Proof.
  intros Hg Hj. destruct (given (cert_subject args)) as [s|] eqn:Es;
    [|by destruct Hg].
  unfold run, script. rewrite 2 M_bind_unfold.
  rewrite (load_specs_given args env env' _ s Es Hj). reflexivity.
Qed.

(** X6. When the certificate resolver raises (PowerShell missing or
    ending with a non-zero status, output that is not UTF-8 or not three
    lines), the run aborts before it touches the file system: the files
    are those it started from, no directory was made and no logo copied;
    it has only printed. *)
Theorem failed_cert_query_touches_nothing `{Host} (args : Args) (env : Env)
    (fs : gmap Path node) (r : result unit) (w' : World) :
  (exists e, (get_cert_subject args env (mkWorld fs [])).1 = Raise e) ->
  run args env fs = (r, w') ->
  (exists e, r = Raise e) /\ files w' = fs /\ Forall console_event (trace w').
Proof.
  intros [e Hc]. unfold run, script. rewrite M_bind_unfold.
  destruct (load_specs args env _) as [r1 w1] eqn:E1.
  destruct (load_specs_cert_fails args env _ e Hc r1 w1 E1) as [[e' ->] Hx].
  intros [= <- <-]. split; [eexists; reflexivity|].
  split; [exact (extends_nothing _ _ _ Hx)|].
  destruct Hx as [_ (evs & Ht & Hq)]. simpl in Ht. rewrite Ht. exact Hq.
Qed.

(** *** The logo staging in a run *)

Lemma fs_node_agree (fs fs' : gmap Path node) (p : Path) :
  fs' !! p = fs !! p -> fs_node fs' p = fs_node fs p.
Proof.
  intros Hp. unfold fs_node. destruct p as [|r [|]]; [reflexivity| |exact Hp].
  destruct (str_eqb r [SLASH]); [reflexivity|exact Hp].
Qed.

Section Copies.

Variable parsed_args : Args.

Let dest := parse_path (destination_dir parsed_args).
Let pkg := dest ++ [lit "msix_assets"].

(** A staging that went through copied both logos, as they were, from a
    directory that is not the package's own. *)
Lemma setup_app_logos_copies (dir : Path) (bg : pyval) (w w' : World) l :
  setup_app_logos parsed_args dir bg w = (Ok l, w') ->
  dir <> pkg /\
  exists d44 d150,
    fs_node (files w) (logo_44 dir) = Some (File d44) /\
    fs_node (files w) (logo_150 dir) = Some (File d150) /\
    files w' !! logo_44 pkg = Some (File d44) /\
    files w' !! logo_150 pkg = Some (File d150).
Proof.
  unfold setup_app_logos, logo_44, logo_150.
  rewrite !(path_join_literal _ (lit "msix_assets")),
    !(path_join_literal _ (lit "logo_44x44.png")),
    !(path_join_literal _ (lit "logo_150x150.png")) by done.
  fold dest. fold pkg.
  intros H. run_Ok H.
  match goal with E : mkdir_exist_ok _ _ = _ |- _ =>
    apply mkdir_exist_ok_Ok in E as [Hpkg Hmk] end.
  match goal with E : check_and_copy_logo _ (_ ++ [lit "logo_44x44.png"]) _ = _
    |- _ => apply check_and_copy_logo_Ok in E
              as (d44 & t44 & H44 & Hne44 & Ht44 & Hw2) end.
  match goal with E : check_and_copy_logo _ _ _ = _ |- _ =>
    apply check_and_copy_logo_Ok in E
      as (d150 & t150 & H150 & _ & Ht150 & Hw3) end.
  injection H as _ <-.
  unfold is_dir in Ht44. rewrite Hpkg in Ht44.
  rewrite path_name_snoc in Ht44 by done. subst t44.
  assert (Hpkg2 : fs_node (files w1) pkg = Some Dir).
  { rewrite Hw2, fs_node_insert_ne; [exact Hpkg|].
    intros Heq. apply (f_equal length) in Heq.
    rewrite length_app in Heq. simpl in Heq. lia. }
  unfold is_dir in Ht150. rewrite Hpkg2 in Ht150.
  rewrite path_name_snoc in Ht150 by done. subst t150.
  rewrite Hw2, fs_node_insert_ne in H150
    by (intros [_ [=]]%app_inj_tail).
  assert (Hsrc : forall n d, fs_node (files w0) (dir ++ [n]) = Some (File d) ->
                             fs_node (files w) (dir ++ [n]) = Some (File d)).
  { intros n d Hn. destruct Hmk as [Hmk|[_ Hmk]]; rewrite Hmk in Hn;
      [exact Hn|].
    destruct (decide (pkg = dir ++ [n])) as [Heq|Hne].
    - rewrite <- Heq in Hn. rewrite <- Hmk, Hpkg in Hn. discriminate Hn.
    - rewrite fs_node_insert_ne in Hn by exact Hne. exact Hn. }
  split.
  { intros ->. by apply Hne44. }
  exists d44, d150.
  split; [apply Hsrc; exact H44|]. split; [apply Hsrc; exact H150|].
  rewrite Hw3, Hw2. split.
  - rewrite lookup_insert_ne by (intros [_ [=]]%app_inj_tail).
    apply lookup_insert_eq.
  - apply lookup_insert_eq.
Qed.

Lemma check_and_copy_logo_value (dst lp : Path) (w w' : World) (s : str) :
  check_and_copy_logo dst lp w = (Ok s, w') ->
  s = path_str (path_join (parse_path (lit "msix_assets")) (path_name lp)).
Proof.
  unfold check_and_copy_logo. intros H. run_Ok H.
  injection H as <- _. reflexivity.
Qed.

(** The names under which the manifest will refer to the staged logos. *)
Lemma setup_app_logos_names (dir : Path) (bg : pyval) (w w' : World) l :
  setup_app_logos parsed_args dir bg w = (Ok l, w') ->
  parse_path (logo_sq_44x44 l) = [lit "msix_assets"; lit "logo_44x44.png"] /\
  parse_path (logo_sq_150x150 l) = [lit "msix_assets"; lit "logo_150x150.png"].
Proof.
  unfold setup_app_logos.
  rewrite !(path_join_literal _ (lit "logo_44x44.png")),
    !(path_join_literal _ (lit "logo_150x150.png")) by done.
  intros H. run_Ok H.
  match goal with E : check_and_copy_logo _ (_ ++ [lit "logo_44x44.png"]) _ = _
    |- _ => apply check_and_copy_logo_value in E; rename E into E44 end.
  match goal with E : check_and_copy_logo _ _ _ = _ |- _ =>
    apply check_and_copy_logo_value in E; rename E into E150 end.
  injection H as <- _. cbn [logo_sq_44x44 logo_sq_150x150].
  rewrite E44, E150, !path_name_snoc by done.
  split; vm_compute; reflexivity.
Qed.

End Copies.

Section Staged.

Context {host : Host}.
Variable parsed_args : Args.
Variable env : Env.

Let dest := parse_path (destination_dir parsed_args).

(** A path the emit phase may write is the destination directory or
    lies directly in it. *)
Lemma emitted_in_destination (inst : MsixInstaller) (p : Path) :
  emitted parsed_args inst p -> p = dest \/ exists n, p = dest ++ [n].
Proof.
  intros [[_ ->]|(_ & up & _ & ->)].
  - right. eexists. unfold dest. apply path_join_literal; reflexivity.
  - unfold dest.
    destruct (installer_path_name (parse_path (destination_dir parsed_args)) up)
      as [Hd|[Hd _]]; rewrite Hd.
    + by left.
    + right. eexists. reflexivity.
Qed.

(** What the staging of a run that reached the emit phase did. *)
Lemma load_specs_copies (fs : gmap Path node) specs (w1 : World) :
  load_specs parsed_args env (mkWorld fs []) = (Ok specs, w1) ->
  let dir := parse_path (logo_dir parsed_args) in
  let pkg := dest ++ [lit "msix_assets"] in
  dir <> pkg /\
  exists d44 d150,
    fs_node fs (logo_44 dir) = Some (File d44) /\
    fs_node fs (logo_150 dir) = Some (File d150) /\
    files w1 !! logo_44 pkg = Some (File d44) /\
    files w1 !! logo_150 pkg = Some (File d150).
Proof.
  destruct specs as [app inst].
  intros (doc & am & im & w0 & _ & _ & _ & Hf & Ha & _)%load_specs_Ok.
  apply load_app_Ok in Ha as (w2 & bg & Hc & Hs & _).
  apply get_cert_subject_files in Hc.
  apply setup_app_logos_copies in Hs. rewrite Hc, Hf in Hs. exact Hs.
Qed.

(** The specs a run loaded, when it ended well or wrote a document. *)
Lemma run_loaded (fs : gmap Path node) r w' :
  run parsed_args env fs = (r, w') ->
  (exists p doc, EWriteXml p doc ∈ trace w') \/ r = Ok tt ->
  exists app inst w1,
    load_specs parsed_args env (mkWorld fs []) = (Ok (app, inst), w1) /\
    emit_documents parsed_args app inst w1 = (r, w').
Proof.
  intros Hrun Hwhy. revert Hrun. unfold run, script. rewrite M_bind_unfold.
  destruct (load_specs _ _ _) as [[[app inst]|e] w1] eqn:E.
  - intros Hrun. exists app, inst, w1. split; [reflexivity|exact Hrun].
  - intros [= <- <-]. destruct Hwhy as [(p & doc & Hin)|Hr]; [|discriminate Hr].
    apply run_staging in E as [Hst _]. rewrite Forall_forall in Hst.
    apply Hst in Hin. destruct Hin.
Qed.

(** The staged copies are still there when the emit phase is over. *)
Lemma run_copies (fs : gmap Path node) app inst (w1 w' : World) r :
  load_specs parsed_args env (mkWorld fs []) = (Ok (app, inst), w1) ->
  emit_documents parsed_args app inst w1 = (r, w') ->
  let dir := parse_path (logo_dir parsed_args) in
  let pkg := dest ++ [lit "msix_assets"] in
  exists d44 d150,
    fs_node fs (logo_44 dir) = Some (File d44) /\
    fs_node fs (logo_150 dir) = Some (File d150) /\
    files w' !! logo_44 pkg = Some (File d44) /\
    files w' !! logo_150 pkg = Some (File d150).
Proof.
  intros Hl He dir pkg.
  apply load_specs_copies in Hl as (_ & d44 & d150 & H44 & H150 & Hc44 & Hc150).
  exists d44, d150. split; [exact H44|]. split; [exact H150|].
  pose proof (changes_emit_documents parsed_args app inst w1) as [Hf _].
  rewrite He in Hf. cbn [snd] in Hf.
  assert (Hout : forall n, ~ emitted parsed_args inst (pkg ++ [n])).
  { intros n [Hd|[k Hk]]%emitted_in_destination.
    - apply (f_equal length) in Hd. unfold pkg in Hd.
      rewrite !length_app in Hd. simpl in Hd. lia.
    - unfold pkg in Hk. rewrite <- app_assoc in Hk.
      apply app_inv_head in Hk. discriminate Hk. }
  split.
  - unfold logo_44. rewrite Hf by apply Hout. exact Hc44.
  - unfold logo_150. rewrite Hf by apply Hout. exact Hc150.
Qed.

End Staged.

(** X8. In a run that ended well, or got as far as writing a document,
    both logos were found as files in the logo directory the run started
    with, and [msix_assets] in the destination directory holds a copy of
    each under the same name, byte for byte, when the run is over. *)
Theorem staged_logos_are_copies `{Host} (args : Args) (env : Env)
    (fs : gmap Path node) (r : result unit) (w' : World) :
  let dir := parse_path (logo_dir args) in
  let pkg := parse_path (destination_dir args) ++ [lit "msix_assets"] in
  run args env fs = (r, w') ->
  (exists p doc, EWriteXml p doc ∈ trace w') \/ r = Ok tt ->
  exists d44 d150,
    fs_node fs (logo_44 dir) = Some (File d44) /\
    fs_node fs (logo_150 dir) = Some (File d150) /\
    files w' !! logo_44 pkg = Some (File d44) /\
    files w' !! logo_150 pkg = Some (File d150).
Proof.
  intros dir pkg Hrun Hwhy.
  destruct (run_loaded args env fs r w' Hrun Hwhy)
    as (app & inst & w1 & Hl & He).
  exact (run_copies args env fs app inst w1 w' r Hl He).
Qed.

(** X9. A logo directory that is the package's own [msix_assets]
    directory never works: the logos would be copied onto themselves, so
    the run aborts before it writes a document, even when both logos are
    there. *)
Theorem staging_from_package_assets_aborts `{Host} (args : Args) (env : Env)
    (fs : gmap Path node) (r : result unit) (w' : World) :
  parse_path (logo_dir args)
    = parse_path (destination_dir args) ++ [lit "msix_assets"] ->
  run args env fs = (r, w') ->
  (exists e, r = Raise e) /\ Forall staging_event (trace w').
Proof.
  intros Hsame. unfold run, script. rewrite M_bind_unfold.
  destruct (load_specs _ _ _) as [[specs|e] w1] eqn:E.
  - apply load_specs_copies in E as [Hne _]. destruct (Hne Hsame).
  - intros [= <- <-]. apply run_staging in E as [Hst _].
    split; [eexists; reflexivity|exact Hst].
Qed.

(** X10. The destination directory has to be there beforehand: when it
    is not a directory in the file system the run starts with, the run
    aborts and has written no document. *)
Theorem missing_destination_aborts `{Host} (args : Args) (env : Env)
    (fs : gmap Path node) (r : result unit) (w' : World) :
  is_dir fs (parse_path (destination_dir args)) = false ->
  run args env fs = (r, w') ->
  (exists e, r = Raise e) /\ Forall staging_event (trace w').
Proof.
  intros Hd. unfold run, script. rewrite M_bind_unfold.
  destruct (load_specs _ _ _) as [[[app inst]|e] w1] eqn:E;
    apply run_staging in E as [Hst Hf].
  - assert (Hd1 : is_dir (files w1) (parse_path (destination_dir args)) = false).
    { unfold is_dir. rewrite (fs_node_agree fs (files w1)); [exact Hd|].
      apply Hf. intros [Heq|[Heq|Heq]]; apply (f_equal length) in Heq;
        rewrite length_app in Heq; simpl in Heq; lia. }
    cbn [fst snd]. unfold emit_documents. rewrite M_bind_unfold.
    unfold get_files at 1. rewrite M_bind_unfold. rewrite Hd1, andb_false_r.
    intros [= <- <-]. split; [eexists; reflexivity|exact Hst].
  - intros [= <- <-]. split; [eexists; reflexivity|exact Hst].
Qed.

(** X11. A run changes nothing outside the destination directory: every
    path that does not start with the destination path holds after the
    run, however it ends, what it held before. The logo sources and the
    manifest are only read. *)
Theorem run_changes_only_destination `{Host} (args : Args) (env : Env)
    (fs : gmap Path node) (r : result unit) (w' : World) (p : Path) :
  ~ (parse_path (destination_dir args) `prefix_of` p) ->
  run args env fs = (r, w') ->
  files w' !! p = fs !! p.
Proof.
  intros Hp. unfold run, script. rewrite M_bind_unfold.
  destruct (load_specs _ _ _) as [[[app inst]|e] w1] eqn:E;
    apply run_staging in E as [_ Hf].
  - cbn [fst snd]. intros Hrun.
    pose proof (changes_emit_documents args app inst w1) as [Hg _].
    rewrite Hrun in Hg. simpl in Hg. rewrite Hg.
    + apply Hf. intros [Heq|[Heq|Heq]]; apply Hp; eexists; exact Heq.
    + intros [Heq|[n Heq]]%emitted_in_destination; apply Hp.
      * exists []. rewrite app_nil_r. exact Heq.
      * eexists; exact Heq.
  - intros [= <- <-]. apply Hf.
    intros [Heq|[Heq|Heq]]; apply Hp; eexists; exact Heq.
Qed.


(** *** What the two documents say about the package *)

Lemma gen_appx_manifest_identity_doc app id :
  split_last DOT (name app) = Ok id ->
  exists root,
    gen_appx_manifest app = Ok root /\
    exists doc,
      et_indent root = Ok doc /\
      package_identity doc =
        [Some (name app); Some (PStr (version app));
         Some (PStr (publisher (cert app))); Some (arch app)].
Proof.
  destruct app as [nm dn de ve [pb] ar [l44 l150 bg] ep dp mn mx].
  unfold gen_appx_manifest. cbn [name cert publisher version arch]. intros ->.
  vm_witness. vm_witness. vm_compute; reflexivity.
Qed.

Lemma manifest_identity app root doc :
  gen_appx_manifest app = Ok root -> et_indent root = Ok doc ->
  package_identity doc =
    [Some (name app); Some (PStr (version app));
     Some (PStr (publisher (cert app))); Some (arch app)].
Proof.
  intros Hg Hi. destruct (gen_appx_manifest_Ok _ _ Hg) as [id Hid].
  destruct (gen_appx_manifest_identity_doc _ _ Hid)
    as (root' & Hg' & doc' & Hi' & Hp).
  assert (root' = root) as -> by congruence.
  assert (doc' = doc) as -> by congruence.
  exact Hp.
Qed.

Section Identity.

Context {host : Host}.
Variable parsed_args : Args.
Variable env : Env.

Lemma load_app_identity (am : pyval) (w w' : World) app :
  load_app parsed_args env am w = (Ok app, w') ->
  getitem2 am (lit "Identity") (lit "Name") = Ok (name app) /\
  getitem2 am (lit "Identity") (lit "Arch") = Ok (arch app) /\
  version app = app_version parsed_args.
Proof.
  unfold load_app. intros H. run_Ok H. injection H as <- <-. simpl.
  repeat split; assumption.
Qed.

End Identity.

(** X12. Every document a run writes names the package in the same way:
    in the manifest's [Identity] and in the descriptor's [MainPackage]
    alike, [Name] and [ProcessorArchitecture] are the manifest file's
    [Identity.Name] and [Identity.Arch], [Version] is [--app-version]
    (never the descriptor's own version), and [Publisher] is the subject
    the certificate resolver returned. *)
Theorem documents_name_the_same_package `{Host} (args : Args) (env : Env)
    (fs : gmap Path node) (r : result unit) (w' : World) (p : Path)
    (doc : Element) :
  run args env fs = (r, w') ->
  EWriteXml p doc ∈ trace w' ->
  exists mdoc nm ar subject,
    json_load env (manifest args) = Ok mdoc /\
    getitem3 mdoc (lit "AppManifest") (lit "Identity") (lit "Name") = Ok nm /\
    getitem3 mdoc (lit "AppManifest") (lit "Identity") (lit "Arch") = Ok ar /\
    (get_cert_subject args env (mkWorld fs [])).1 = Ok subject /\
    package_identity doc =
      [Some nm; Some (PStr (app_version args)); Some (PStr subject); Some ar].
Proof.
  intros Hrun Hin.
  destruct (run_documents _ _ _ _ _ _ _ Hrun Hin)
    as (app & inst & w1 & Hl & Hdoc).
  apply load_specs_Ok in Hl as (mdoc & am & im & w0 & Hj & Ham & _ & _ & Ha & _).
  pose proof (load_app_identity _ _ _ _ _ _ Ha) as (Hn & Har & Hv).
  apply load_app_Ok in Ha as (w2 & bg & Hc & _).
  exists mdoc, (name app), (arch app), (publisher (cert app)).
  split; [exact Hj|].
  split; [unfold getitem3, getitem2 in *; rewrite Ham; exact Hn|].
  split; [unfold getitem3, getitem2 in *; rewrite Ham; exact Har|].
  split.
  { rewrite (get_cert_subject_pure args env _ w0). rewrite Hc. reflexivity. }
  destruct Hdoc as [(_ & root & Hg & Hi)|(_ & (root & Hg & Hi) & _)].
  - rewrite <- Hv. exact (manifest_identity _ _ _ Hg Hi).
  - exact (installer_identity _ _ _ _ _ Hg Hi).
Qed.


(** *** The emit phase, statement by statement *)

Section Emitting.

Context {host : Host}.
Variable parsed_args : Args.
Variable env : Env.

Let dest := parse_path (destination_dir parsed_args).
Let manifest_path := dest ++ [lit "AppxManifest.xml"].

Lemma changes_emit_appx_manifest (P : Path -> Prop) (Q : event -> Prop) app :
  P manifest_path ->
  (forall doc, Q (EWriteXml manifest_path doc)) ->
  Q (EPrint (lit "Generated AppxManifest")) ->
  changes P Q (emit_appx_manifest app dest).
Proof.
  intros Hp Hw Hq. unfold emit_appx_manifest.
  rewrite path_join_literal by reflexivity.
  apply changes_bind; [apply changes_lift|intros root ? ? _].
  apply changes_bind; [apply changes_lift|intros doc ? ? _].
  apply changes_bind; [|intros; apply changes_emit; exact Hq].
  apply changes_tree_write; [exact Hp|apply Hw].
Qed.

Lemma changes_emit_app_installer (P : Path -> Prop) (Q : event -> Prop)
    app inst :
  (forall up, urlparse_path (installer_uri inst) = Ok up ->
              P (installer_path dest up)) ->
  (forall e, e <> EPrint completed_line -> Q e) ->
  changes P Q (emit_app_installer parsed_args app inst dest).
Proof.
  intros Hp Hq. unfold emit_app_installer.
  apply changes_bind; [apply changes_lift|intros root ? ? _].
  apply changes_bind; [apply changes_lift|intros doc ? ? _].
  apply changes_bind; [apply changes_lift|intros up ? ? [Eu _]%lift_Ok].
  specialize (Hp up Eu).
  apply changes_bind; [apply changes_unlink; [exact Hp|apply Hq; discriminate]|].
  intros _ ? ? _.
  apply changes_bind;
    [apply changes_tree_write; [exact Hp|apply Hq; discriminate]|].
  intros _ ? ? _.
  apply changes_bind;
    [apply changes_pad_app_installer; [exact Hp|intros; apply Hq; discriminate]|].
  intros _ ? ? _. apply changes_emit. apply Hq.
  intros Heq. vm_compute in Heq. discriminate Heq.
Qed.

(** A manifest step that went through wrote the whole document. *)
Lemma emit_appx_manifest_Ok app (w w' : World) :
  emit_appx_manifest app dest w = (Ok tt, w') ->
  exists root doc,
    gen_appx_manifest app = Ok root /\ et_indent root = Ok doc /\
    (et_write doc).2 = None /\
    files w' = <[manifest_path := File (et_write doc).1]> (files w) /\
    trace w' = trace w ++ [EWriteXml manifest_path doc;
                           EPrint (lit "Generated AppxManifest")].
Proof.
  unfold emit_appx_manifest. rewrite path_join_literal by reflexivity.
  fold manifest_path. intros H.
  apply M_bind_Ok in H as (root & w1 & [Hg ->]%lift_Ok & H).
  apply M_bind_Ok in H as (doc & w2 & [Hi ->]%lift_Ok & H).
  apply M_bind_Ok in H as ([] & w3 & Hw & H).
  apply tree_write_spec in Hw as [[[e [=]] _]|(_ & -> & Hr)].
  exists root, doc. split; [exact Hg|]. split; [exact Hi|].
  destruct (et_write doc).2 as [e|]; [discriminate Hr|].
  split; [reflexivity|]. injection H as <-. simpl.
  split; [reflexivity|]. rewrite <- app_assoc. reflexivity.
Qed.

(** The emit phase ends in one of two ways: everything went through and
    the closing line is the last thing printed, or a statement before it
    raised and the closing line was never printed. *)
Lemma emit_documents_ends app inst (w w' : World) r :
  emit_documents parsed_args app inst w = (r, w') ->
  exists evs,
    Forall (fun e => e <> EPrint completed_line) evs /\
    ((r = Ok tt /\ trace w' = trace w ++ evs ++ [EPrint completed_line]) \/
     ((exists e, r = Raise e) /\ trace w' = trace w ++ evs)).
Proof.
  unfold emit_documents. fold dest. intros H.
  rewrite M_bind_unfold in H. unfold get_files at 1 in H.
  rewrite M_bind_unfold in H.
  destruct (exists_ _ _ && is_dir _ _); simpl in H;
    [|injection H as <- <-; exists []; split; [constructor|];
      right; split; [eexists; reflexivity|by rewrite app_nil_r]].
  rewrite M_bind_unfold in H.
  set (Q := fun e : event => e <> EPrint completed_line).
  set (A := if negb (no_manifest parsed_args)
            then emit_appx_manifest app dest else mret ()) in H.
  assert (HA : changes (fun _ => True) Q A).
  { unfold A. destruct (negb (no_manifest parsed_args)); [|apply changes_ret].
    apply changes_emit_appx_manifest; [exact I|discriminate|].
    intros Heq. vm_compute in Heq. discriminate Heq. }
  specialize (HA w) as [_ (evs1 & Ht1 & Hq1)].
  destruct (A w) as [[[]|e] w1];
    [|injection H as <- <-; exists evs1; split; [exact Hq1|];
      right; split; [eexists; reflexivity|exact Ht1]].
  rewrite M_bind_unfold in H.
  set (B := if gen_installer parsed_args
            then emit_app_installer parsed_args app inst dest else mret ()) in H.
  assert (HB : changes (fun _ => True) Q B).
  { unfold B. destruct (gen_installer parsed_args); [|apply changes_ret].
    apply changes_emit_app_installer; [intros; exact I|intros e He; exact He]. }
  specialize (HB w1) as [_ (evs2 & Ht2 & Hq2)].
  destruct (B w1) as [[[]|e] w2]; simpl in Ht1, Ht2.
  - injection H as <- <-. simpl. exists (evs1 ++ evs2).
    split; [apply Forall_app; split; assumption|].
    left. split; [reflexivity|]. rewrite Ht2, Ht1, <- !app_assoc. reflexivity.
  - injection H as <- <-. exists (evs1 ++ evs2).
    split; [apply Forall_app; split; assumption|].
    right. split; [eexists; reflexivity|].
    rewrite Ht2, Ht1, <- !app_assoc. reflexivity.
Qed.

Lemma load_specs_not_completed (w : World) :
  extends (fun _ => True) (fun e => e <> EPrint completed_line) w
          (load_specs parsed_args env w).2.
Proof.
  revert w. change (changes (fun _ => True)
    (fun e => e <> EPrint completed_line) (load_specs parsed_args env)).
  unfold load_specs.
  apply changes_bind; [apply changes_lift|intros doc ? ? _].
  apply changes_bind;
    [apply changes_emit; intros Heq; vm_compute in Heq; discriminate Heq|].
  intros _ ? ? _.
  apply changes_bind; [apply changes_lift|intros am ? ? _].
  apply changes_bind; [apply changes_lift|intros im ? ? _].
  apply changes_bind; [|intros; repeat changes_step].
  unfold load_app.
  do 6 (apply changes_bind; [apply changes_lift|intros ? ? ? _]).
  apply changes_bind.
  { unfold get_cert_subject. changes_step; [changes_step|].
    changes_step; [apply changes_run_checked|].
    repeat changes_step. }
  intros subject ? ? _.
  apply changes_bind; [apply changes_lift|intros bg ? ? _].
  apply changes_bind; [|intros; repeat changes_step].
  unfold setup_app_logos.
  apply changes_bind; [apply changes_mkdir; [exact I|discriminate]|].
  intros _ ? ? _.
  apply changes_bind; [apply changes_get_files|intros fs ? ? _].
  apply changes_bind; [apply changes_assert|intros _ ? ? _].
  assert (Hcopy : forall pkg lp, changes (fun _ => True)
            (fun e => e <> EPrint completed_line) (check_and_copy_logo pkg lp)).
  { intros pkg lp. unfold check_and_copy_logo.
    apply changes_bind; [apply changes_get_files|intros ? ? ? _].
    apply changes_bind; [apply changes_assert|intros _ ? ? _].
    apply changes_bind; [|intros; apply changes_ret].
    apply changes_copy; [exact I|exact I|discriminate]. }
  apply changes_bind; [apply Hcopy|intros ? ? ? _].
  apply changes_bind; [apply Hcopy|intros ? ? ? _].
  apply changes_ret.
Qed.

End Emitting.

(** X13. A run ends without an exception exactly when it prints
    [Completed Successfully!], and that line is then the last thing it
    does; a run that aborts never prints it. *)
Theorem completed_line_iff_success `{Host} (args : Args) (env : Env)
    (fs : gmap Path node) (r : result unit) (w' : World) :
  run args env fs = (r, w') ->
  (r = Ok tt <-> EPrint completed_line ∈ trace w') /\
  (r = Ok tt -> last (trace w') = Some (EPrint completed_line)).
Proof.
  unfold run, script. rewrite M_bind_unfold.
  pose proof (load_specs_not_completed args env (mkWorld fs []))
    as [_ (evs0 & Ht0 & Hq0)].
  destruct (load_specs _ _ _) as [[[app inst]|e] w1]; simpl in Ht0.
  - cbn [fst snd]. intros (evs & Hq & Hend)%emit_documents_ends.
    rewrite Ht0 in Hend.
    destruct Hend as [[-> Ht]|[[e ->] Ht]]; rewrite Ht.
    + split; [|intros _; rewrite app_assoc; apply last_snoc].
      split; [intros _|reflexivity].
      apply elem_of_app. right. apply elem_of_app. right.
      apply list_elem_of_singleton. reflexivity.
    + split; [|intros [=]]. split; [intros [=]|].
      intros [Hin|Hin]%elem_of_app; exfalso.
      * rewrite Forall_forall in Hq0. exact (Hq0 _ Hin eq_refl).
      * rewrite Forall_forall in Hq. exact (Hq _ Hin eq_refl).
  - intros [= <- <-]. rewrite Ht0.
    split; [|intros [=]]. split; [intros [=]|].
    intros Hin. exfalso.
    rewrite Forall_forall in Hq0. exact (Hq0 _ Hin eq_refl).
Qed.


(** *** Where the documents land *)

Section Landing.

Context {host : Host}.
Variable parsed_args : Args.
Variable env : Env.

Let dest := parse_path (destination_dir parsed_args).
Let manifest_path := dest ++ [lit "AppxManifest.xml"].

(** The name the manifest gives the descriptor, for the specs of a run. *)
Lemma descriptor_name_loaded (w w1 : World) app inst up :
  load_specs parsed_args env w = (Ok (app, inst), w1) ->
  urlparse_path (installer_uri inst) = Ok up ->
  descriptor_name parsed_args env = Some (path_name (parse_path up)).
Proof.
  intros (mdoc & am & im & w0 & Hj & _ & Him & _ & _ & Hl)%load_specs_Ok Hu.
  apply load_installer_Ok in Hl as (_ & Hi & _).
  unfold descriptor_name, getitem2. rewrite Hj. simpl.
  rewrite Him. simpl. rewrite Hi. simpl. rewrite Hu. reflexivity.
Qed.

(** The emit phase of a run that ended well, statement by statement. *)
Lemma emit_documents_Ok app inst (w w' : World) :
  emit_documents parsed_args app inst w = (Ok tt, w') ->
  is_dir (files w) dest = true /\
  exists w1 w2,
    (if negb (no_manifest parsed_args)
     then emit_appx_manifest app dest else mret ()) w = (Ok tt, w1) /\
    (if gen_installer parsed_args
     then emit_app_installer parsed_args app inst dest else mret ()) w1
      = (Ok tt, w2) /\
    files w' = files w2 /\
    trace w' = trace w2 ++ [EPrint completed_line].
Proof.
  unfold emit_documents. fold dest. intros H.
  apply M_bind_Ok in H as (fs & w0 & [-> ->]%get_files_Ok & H).
  apply M_bind_Ok in H as ([] & w0 & [Hc ->]%assert_Ok & H).
  apply andb_true_iff in Hc as [_ Hd]. split; [exact Hd|].
  apply M_bind_Ok in H as ([] & w1 & HA & H).
  apply M_bind_Ok in H as ([] & w2 & HB & H).
  exists w1, w2. split; [exact HA|]. split; [exact HB|].
  injection H as <-. split; reflexivity.
Qed.

(** With no file name in the URL path the descriptor's path is the
    destination directory, and removing it raises. *)
Lemma emit_app_installer_nameless app inst (w : World) :
  is_dir (files w) dest = true ->
  (forall up, urlparse_path (installer_uri inst) = Ok up ->
              path_name (parse_path up) = []) ->
  exists e, emit_app_installer parsed_args app inst dest w = (Raise e, w).
Proof.
  intros Hd Hn. unfold emit_app_installer.
  rewrite M_bind_unfold. unfold lift at 1.
  destruct (gen_appx_installer _ _ _) as [root|e]; [|eexists; reflexivity].
  rewrite M_bind_unfold. unfold lift at 1.
  destruct (et_indent root) as [doc|e]; [|eexists; reflexivity].
  rewrite M_bind_unfold. unfold lift at 1.
  destruct (urlparse_path _) as [up|e] eqn:Eu; [|eexists; reflexivity].
  cbv zeta. unfold installer_path. rewrite (Hn up eq_refl).
  change (path_join dest []) with dest.
  rewrite M_bind_unfold. unfold unlink_missing_ok.
  rewrite M_bind_unfold. unfold get_files at 1.
  unfold is_dir in Hd.
  destruct (fs_node (files w) dest) as [[|]|]; try discriminate Hd.
  eexists. reflexivity.
Qed.

Lemma emit_documents_nameless app inst (w w' : World) r :
  gen_installer parsed_args = true ->
  (forall up, urlparse_path (installer_uri inst) = Ok up ->
              path_name (parse_path up) = []) ->
  emit_documents parsed_args app inst w = (r, w') ->
  (exists e, r = Raise e) /\
  exists evs, trace w' = trace w ++ evs /\
    forall p doc, EWriteXml p doc ∈ evs -> tag doc = lit "Package".
Proof.
  intros Hgen Hn. unfold emit_documents. fold dest. intros H.
  assert (Hnone : exists evs : list event, trace w = trace w ++ evs /\
            forall p doc, EWriteXml p doc ∈ evs -> tag doc = lit "Package").
  { exists []. rewrite app_nil_r. split; [reflexivity|].
    intros p doc Hin. apply elem_of_nil in Hin. destruct Hin. }
  rewrite M_bind_unfold in H. unfold get_files at 1 in H.
  rewrite M_bind_unfold in H.
  destruct (exists_ _ _ && is_dir _ _) eqn:Ec; simpl in H;
    [|injection H as <- <-; split; [eexists; reflexivity|exact Hnone]].
  apply andb_true_iff in Ec as [_ Hd].
  rewrite M_bind_unfold in H.
  assert (exists rA w1 evs,
    (if negb (no_manifest parsed_args)
     then emit_appx_manifest app dest else mret ()) w = (rA, w1) /\
    is_dir (files w1) dest = true /\
    trace w1 = trace w ++ evs /\
    forall p doc, EWriteXml p doc ∈ evs -> tag doc = lit "Package")
    as (rA & w1 & evs & HA & Hd1 & Ht1 & Hdocs).
  { destruct (negb (no_manifest parsed_args)).
    - destruct (emit_appx_manifest app dest w) as [rA w1] eqn:EA.
      pose proof (changes_emit_appx_manifest parsed_args
        (fun q => q = manifest_path) (fun _ => True) app eq_refl
        ltac:(intros; exact I) I w) as [Hfr _].
      fold dest in Hfr. rewrite EA in Hfr. simpl in Hfr.
      apply (emit_appx_manifest_spec parsed_args) in EA as (evs & Ht & Hdoc).
      exists rA, w1, evs. split; [reflexivity|]. split.
      + unfold is_dir. rewrite (fs_node_agree (files w) (files w1)); [exact Hd|].
        apply Hfr. unfold manifest_path. intros Heq.
        apply (f_equal length) in Heq. rewrite length_app in Heq.
        simpl in Heq. lia.
      + split; [exact Ht|]. intros p doc Hin.
        destruct (Hdoc p doc Hin) as (root & Hg & Hi).
        by destruct (manifest_document _ _ _ Hg Hi) as [Htag _].
    - destruct Hnone as (evs & Ht & Hdoc).
      exists (Ok tt), w, evs. split; [reflexivity|]. split; [exact Hd|].
      split; [exact Ht|exact Hdoc]. }
  rewrite HA in H. destruct rA as [[]|e];
    [|injection H as <- <-; split; [eexists; reflexivity|];
      exists evs; split; [exact Ht1|exact Hdocs]].
  rewrite M_bind_unfold, Hgen in H.
  destruct (emit_app_installer_nameless app inst w1 Hd1 Hn) as [e He].
  rewrite He in H. injection H as <- <-.
  split; [eexists; reflexivity|]. exists evs. split; [exact Ht1|exact Hdocs].
Qed.

(** An emit phase that went through left the manifest as the serializer
    wrote it, unless the descriptor has the manifest's file name. *)
Lemma emit_documents_manifest app inst (w w' : World) :
  no_manifest parsed_args = false ->
  gen_installer parsed_args = false \/
  (forall up, urlparse_path (installer_uri inst) = Ok up ->
              path_name (parse_path up) <> lit "AppxManifest.xml") ->
  emit_documents parsed_args app inst w = (Ok tt, w') ->
  exists doc,
    EWriteXml manifest_path doc ∈ trace w' /\
    tag doc = lit "Package" /\
    (et_write doc).2 = None /\
    files w' !! manifest_path = Some (File (et_write doc).1).
Proof.
  intros Hno Hname He.
  apply emit_documents_Ok in He as (_ & w2 & w3 & HA & HB & Hf & Ht).
  rewrite Hno in HA. rewrite (eq_refl : negb false = true) in HA.
  apply (emit_appx_manifest_Ok parsed_args) in HA
    as (root & doc & Hg & Hi & Hw & Hf2 & Ht2).
  fold dest in Hf2, Ht2. fold manifest_path in Hf2, Ht2.
  exists doc.
  pose proof (manifest_document _ _ _ Hg Hi) as [Htag _].
  assert (Hstep : files w3 !! manifest_path = files w2 !! manifest_path /\
                  exists evs, trace w3 = trace w2 ++ evs).
  { destruct (gen_installer parsed_args) eqn:Eg.
    - pose proof (changes_emit_app_installer parsed_args
        (fun q => exists up, urlparse_path (installer_uri inst) = Ok up /\
                   q = installer_path dest up)
        (fun _ => True) app inst) as Hc.
      specialize (Hc ltac:(intros up Hu; exists up; split; [exact Hu|reflexivity])
                     ltac:(intros; exact I) w2) as [Hfr (evs & Hev & _)].
      fold dest in Hfr, Hev. rewrite HB in Hfr, Hev. cbn [snd] in Hfr, Hev.
      split; [|exists evs; exact Hev].
      apply Hfr. intros (up & Hu & Hp).
      destruct Hname as [Hn|Hn]; [discriminate Hn|]. apply (Hn up Hu).
      unfold dest in Hp.
      destruct (installer_path_name (parse_path (destination_dir parsed_args)) up)
        as [Hd|[Hd _]]; rewrite Hd in Hp; unfold manifest_path, dest in Hp.
      + apply (f_equal length) in Hp. rewrite length_app in Hp.
        simpl in Hp. lia.
      + apply app_inv_head in Hp. injection Hp as Hp. symmetry. exact Hp.
    - injection HB as <-. split; [reflexivity|].
      exists []. rewrite app_nil_r. reflexivity. }
  destruct Hstep as [Hfs (evs & Hev)].
  split.
  { rewrite Ht, Hev, Ht2. apply elem_of_app. left. apply elem_of_app. left.
    apply elem_of_app. right. apply elem_of_cons. left. reflexivity. }
  split; [exact Htag|]. split; [exact Hw|].
  rewrite Hf, Hfs, Hf2. apply lookup_insert_eq.
Qed.

End Landing.

(** X14. In a run that ends well without [--no-manifest],
    [AppxManifest.xml] in the destination directory holds exactly what the
    serializer wrote for the package manifest, with no padding, unless the
    installer descriptor is generated too and its own file name is
    [AppxManifest.xml]. *)
Theorem manifest_file_is_serialized_document `{Host} (args : Args) (env : Env)
    (fs : gmap Path node) (w' : World) :
  let manifest_path :=
    path_join (parse_path (destination_dir args)) (lit "AppxManifest.xml") in
  no_manifest args = false ->
  gen_installer args = false \/
  descriptor_name args env <> Some (lit "AppxManifest.xml") ->
  run args env fs = (Ok tt, w') ->
  exists doc,
    EWriteXml manifest_path doc ∈ trace w' /\
    tag doc = lit "Package" /\
    (et_write doc).2 = None /\
    files w' !! manifest_path = Some (File (et_write doc).1).
Proof.
  intros mp Hno Hname Hrun.
  destruct (run_loaded args env fs _ _ Hrun (or_intror eq_refl))
    as (app & inst & w1 & Hl & He).
  unfold mp. rewrite path_join_literal by reflexivity.
  apply (emit_documents_manifest args app inst w1 w' Hno); [|exact He].
  destruct Hname as [Hn|Hn]; [left; exact Hn|right].
  intros up Hu Heq. apply Hn.
  rewrite (descriptor_name_loaded args env _ _ _ _ _ Hl Hu), Heq. reflexivity.
Qed.

(** X15. An installer [Uri] whose path has no name, that is, for which
    [PurePosixPath(urlparse(uri).path).name] is empty (the path is empty
    or only the root, as in [https://example.com] or
    [https://example.com/]), cannot be generated: the descriptor would
    have to take the place of the destination directory itself, so with
    [--gen-installer] the run aborts, and the only document it may have
    written is the package manifest. *)
Theorem nameless_installer_uri_aborts `{Host} (args : Args) (env : Env)
    (fs : gmap Path node) (r : result unit) (w' : World) :
  gen_installer args = true ->
  descriptor_name args env = Some [] ->
  run args env fs = (r, w') ->
  (exists e, r = Raise e) /\
  (forall p doc, EWriteXml p doc ∈ trace w' -> tag doc = lit "Package").
Proof.
  intros Hgen Hname. unfold run, script. rewrite M_bind_unfold.
  destruct (load_specs _ _ _) as [[[app inst]|e] w1] eqn:E;
    pose proof E as [Hst _]%run_staging; rewrite Forall_forall in Hst.
  - cbn [fst snd]. intros Hrun.
    apply emit_documents_nameless in Hrun as (Hr & evs & Ht & Hdocs);
      [|exact Hgen|].
    + split; [exact Hr|]. intros p doc Hin. rewrite Ht in Hin.
      apply elem_of_app in Hin as [Hin|Hin]; [|exact (Hdocs p doc Hin)].
      apply Hst in Hin. destruct Hin.
    + intros up Hu.
      rewrite (descriptor_name_loaded args env _ _ _ _ _ E Hu) in Hname.
      injection Hname as Hname. exact Hname.
  - intros [= <- <-]. split; [eexists; reflexivity|].
    intros p doc Hin. apply Hst in Hin. destruct Hin.
Qed.


(** *** The logos the manifest refers to *)

Lemma gen_appx_manifest_logos_doc app id :
  split_last DOT (name app) = Ok id ->
  exists root,
    gen_appx_manifest app = Ok root /\
    exists doc,
      et_indent root = Ok doc /\
      logo_references doc =
        [Some (PStr (logo_sq_150x150 (logo app)));
         Some (PStr (logo_sq_150x150 (logo app)));
         Some (PStr (logo_sq_44x44 (logo app)))].
Proof.
  destruct app as [nm dn de ve [pb] ar [l44 l150 bg] ep dp mn mx].
  unfold gen_appx_manifest.
  cbn [name cert publisher logo logo_sq_44x44 logo_sq_150x150]. intros ->.
  vm_witness. vm_witness. vm_compute; reflexivity.
Qed.

Lemma manifest_logos app root doc :
  gen_appx_manifest app = Ok root -> et_indent root = Ok doc ->
  logo_references doc =
    [Some (PStr (logo_sq_150x150 (logo app)));
     Some (PStr (logo_sq_150x150 (logo app)));
     Some (PStr (logo_sq_44x44 (logo app)))].
Proof.
  intros Hg Hi. destruct (gen_appx_manifest_Ok _ _ Hg) as [id Hid].
  destruct (gen_appx_manifest_logos_doc _ _ Hid)
    as (root' & Hg' & doc' & Hi' & Hp).
  assert (root' = root) as -> by congruence.
  assert (doc' = doc) as -> by congruence.
  exact Hp.
Qed.

(** X16. The logos a written package manifest refers to are there: the
    text of [Properties/Logo] and the [Square150x150Logo] attribute name
    one file, [Square44x44Logo] another, and these names, taken relative
    to the destination directory, are the paths of the staged copies of
    the two logos the run found in the logo directory. *)
Theorem manifest_logos_are_staged `{Host} (args : Args) (env : Env)
    (fs : gmap Path node) (r : result unit) (w' : World) (p : Path)
    (doc : Element) :
  let dir := parse_path (logo_dir args) in
  let dest := parse_path (destination_dir args) in
  run args env fs = (r, w') ->
  EWriteXml p doc ∈ trace w' ->
  tag doc = lit "Package" ->
  exists big small d150 d44,
    logo_references doc = [Some (PStr big); Some (PStr big); Some (PStr small)] /\
    fs_node fs (logo_150 dir) = Some (File d150) /\
    fs_node fs (logo_44 dir) = Some (File d44) /\
    files w' !! (dest ++ parse_path big) = Some (File d150) /\
    files w' !! (dest ++ parse_path small) = Some (File d44).
Proof.
  intros dir dest Hrun Hin Htag.
  destruct (run_loaded args env fs r w' Hrun (or_introl (ex_intro _ p (ex_intro _ doc Hin))))
    as (app' & inst' & w1' & Hl' & He).
  destruct (run_documents _ _ _ _ _ _ _ Hrun Hin)
    as (app & inst & w1 & Hl & [(_ & root & Hg & Hi)|(_ & (root & Hg & Hi) & _)]).
  2:{ destruct (installer_document _ _ _ _ _ Hg Hi) as [Ht _].
      rewrite Htag in Ht. discriminate Ht. }
  rewrite Hl in Hl'. injection Hl' as <- <- <-.
  destruct (run_copies args env fs app inst w1 w' r Hl He)
    as (d44 & d150 & H44 & H150 & Hc44 & Hc150).
  apply load_specs_Ok in Hl as (mdoc & am & im & w0 & _ & _ & _ & _ & Ha & _).
  apply load_app_Ok in Ha as (w2 & bg & _ & Hs & _).
  apply setup_app_logos_names in Hs as [Hn44 Hn150].
  exists (logo_sq_150x150 (logo app)), (logo_sq_44x44 (logo app)), d150, d44.
  split; [exact (manifest_logos _ _ _ Hg Hi)|].
  split; [exact H150|]. split; [exact H44|].
  rewrite Hn150, Hn44. unfold logo_150, logo_44 in Hc150, Hc44.
  rewrite <- !app_assoc in Hc150, Hc44. split; [exact Hc150|exact Hc44].
Qed.

(** X17. When the serializer raises while the installer descriptor is
    being written (a value that is not a string, say), the run aborts
    with that exception, and the descriptor file is left with what had
    been written until then: not padded, and not removed. *)
Theorem failed_descriptor_write_leaves_partial_file `{Host} (args : Args)
    (env : Env) (fs : gmap Path node) (r : result unit) (w' : World)
    (p : Path) (doc : Element) (e : exn) :
  run args env fs = (r, w') ->
  EWriteXml p doc ∈ trace w' ->
  tag doc = lit "AppInstaller" ->
  (et_write doc).2 = Some e ->
  r = Raise e /\ files w' !! p = Some (File (et_write doc).1).
Proof.
  intros Hrun Hin Htag Hw.
  destruct (run_documents _ _ _ _ _ _ _ Hrun Hin)
    as (app & inst & w1 & _ & [(_ & root & Hg & Hi)|(_ & _ & Ho)]).
  - destruct (manifest_document _ _ _ Hg Hi) as [Ht _].
    rewrite Htag in Ht. discriminate Ht.
  - unfold descriptor_outcome in Ho. rewrite Hw in Ho. exact Ho.
Qed.


(** *** The properties above on concrete runs *)

Lemma force_update_element_iff_flag_witness :
  exists mdoc flag,
    json_load (Example.env Example.tool_document)
              (manifest (Example.args false true)) = Ok mdoc /\
    getitem3 mdoc (lit "AppInstaller") (lit "UpdateSettings")
             (lit "ForceUpdateFromAnyVersion") = Ok flag /\
    force_update_elements Example.tool_descriptor =
      if truthy flag then [([], PStr (lit "true"), [])] else [].
Proof.
  apply (force_update_element_iff_flag (H:=Reference.host)
           (Example.args false true) (Example.env Example.tool_document)
           Example.logos Example.tool_run.1 Example.tool_run.2
           [lit "out"; lit "Tool.appinstaller"] Example.tool_descriptor).
  - apply surjective_pairing.
  - in_computed_list.
  - vm_compute. reflexivity.
Defined.

Lemma missing_installer_value_aborts_witness :
  (exists e, Example.flagless_run.1 = Raise e) /\
  Forall staging_event (trace Example.flagless_run.2).
Proof.
  apply (missing_installer_value_aborts (H:=Reference.host)
           (Example.args false false) (Example.env Example.flagless_document)
           Example.logos Example.flagless_document
           [lit "UpdateSettings"; lit "ForceUpdateFromAnyVersion"]
           Example.flagless_run.1 Example.flagless_run.2).
  - reflexivity.
  - in_computed_list.
  - vm_compute. reflexivity.
  - apply surjective_pairing.
Defined.

Lemma explicit_subject_ignores_store_witness :
  run (H:=Reference.host) Example.signed_args
      (Example.env Example.tool_document) Example.logos
  = run (H:=Reference.host) Example.signed_args
        (Example.offline_env Example.tool_document) Example.logos.
Proof.
  apply (explicit_subject_ignores_store (H:=Reference.host)
           Example.signed_args (Example.env Example.tool_document)
           (Example.offline_env Example.tool_document) Example.logos).
  - intros E. vm_compute in E. discriminate E.
  - reflexivity.
Defined.

Lemma failed_cert_query_touches_nothing_witness :
  (exists e, Example.failing_run.1 = Raise e) /\
  files Example.failing_run.2 = Example.logos /\
  Forall console_event (trace Example.failing_run.2).
Proof.
  apply (failed_cert_query_touches_nothing (H:=Reference.host)
           (Example.args false true) (Example.failing_env Example.tool_document)
           Example.logos Example.failing_run.1 Example.failing_run.2).
  - exists (CalledProcessError 1). vm_compute. reflexivity.
  - apply surjective_pairing.
Defined.

Lemma staged_logos_are_copies_witness :
  exists d44 d150,
    fs_node Example.logos (logo_44 [lit "logos"]) = Some (File d44) /\
    fs_node Example.logos (logo_150 [lit "logos"]) = Some (File d150) /\
    files Example.tool_run.2 !! logo_44 [lit "out"; lit "msix_assets"]
      = Some (File d44) /\
    files Example.tool_run.2 !! logo_150 [lit "out"; lit "msix_assets"]
      = Some (File d150).
Proof.
  apply (staged_logos_are_copies (H:=Reference.host)
           (Example.args false true) (Example.env Example.tool_document)
           Example.logos Example.tool_run.1 Example.tool_run.2).
  - apply surjective_pairing.
  - right. vm_compute. reflexivity.
Defined.

Lemma staging_from_package_assets_aborts_witness :
  (exists e, Example.restaging_run.1 = Raise e) /\
  Forall staging_event (trace Example.restaging_run.2).
Proof.
  apply (staging_from_package_assets_aborts (H:=Reference.host)
           Example.restaging_args (Example.env Example.tool_document)
           Example.staged_logos Example.restaging_run.1
           Example.restaging_run.2).
  - vm_compute. reflexivity.
  - apply surjective_pairing.
Defined.

Lemma missing_destination_aborts_witness :
  (exists e, Example.no_destination_run.1 = Raise e) /\
  Forall staging_event (trace Example.no_destination_run.2).
Proof.
  apply (missing_destination_aborts (H:=Reference.host)
           (Example.args false true) (Example.env Example.tool_document)
           Example.no_destination Example.no_destination_run.1
           Example.no_destination_run.2).
  - vm_compute. reflexivity.
  - apply surjective_pairing.
Defined.

Lemma run_changes_only_destination_witness :
  files Example.tool_run.2 !! [lit "logos"; lit "logo_44x44.png"]
  = Example.logos !! [lit "logos"; lit "logo_44x44.png"].
Proof.
  apply (run_changes_only_destination (H:=Reference.host)
           (Example.args false true) (Example.env Example.tool_document)
           Example.logos Example.tool_run.1 Example.tool_run.2).
  - intros [k Hk]. vm_compute in Hk. discriminate Hk.
  - apply surjective_pairing.
Defined.

Lemma documents_name_the_same_package_witness :
  exists mdoc nm ar subject,
    json_load (Example.env Example.tool_document)
              (manifest (Example.args false true)) = Ok mdoc /\
    getitem3 mdoc (lit "AppManifest") (lit "Identity") (lit "Name") = Ok nm /\
    getitem3 mdoc (lit "AppManifest") (lit "Identity") (lit "Arch") = Ok ar /\
    (get_cert_subject (host:=Reference.host) (Example.args false true)
       (Example.env Example.tool_document) (mkWorld Example.logos [])).1
      = Ok subject /\
    package_identity Example.tool_descriptor =
      [Some nm; Some (PStr (app_version (Example.args false true)));
       Some (PStr subject); Some ar].
Proof.
  apply (documents_name_the_same_package (H:=Reference.host)
           (Example.args false true) (Example.env Example.tool_document)
           Example.logos Example.tool_run.1 Example.tool_run.2
           [lit "out"; lit "Tool.appinstaller"] Example.tool_descriptor).
  - apply surjective_pairing.
  - in_computed_list.
Defined.

Lemma completed_line_iff_success_witness :
  (Example.tool_run.1 = Ok tt <->
   EPrint completed_line ∈ trace Example.tool_run.2) /\
  (Example.tool_run.1 = Ok tt ->
   last (trace Example.tool_run.2) = Some (EPrint completed_line)).
Proof.
  apply (completed_line_iff_success (H:=Reference.host)
           (Example.args false true) (Example.env Example.tool_document)
           Example.logos Example.tool_run.1 Example.tool_run.2).
  apply surjective_pairing.
Defined.

Lemma manifest_file_is_serialized_document_witness :
  exists doc,
    EWriteXml [lit "out"; lit "AppxManifest.xml"] doc
      ∈ trace Example.manifest_only_run.2 /\
    tag doc = lit "Package" /\
    (Reference.write doc).2 = None /\
    files Example.manifest_only_run.2 !! [lit "out"; lit "AppxManifest.xml"]
      = Some (File (Reference.write doc).1).
Proof.
  apply (manifest_file_is_serialized_document (H:=Reference.host)
           (Example.args false false) (Example.env Example.tool_document)
           Example.logos Example.manifest_only_run.2).
  - reflexivity.
  - left. reflexivity.
  - transitivity (Example.manifest_only_run.1, Example.manifest_only_run.2);
      [apply surjective_pairing|].
    apply (f_equal (fun r => (r, Example.manifest_only_run.2))).
    vm_compute. reflexivity.
Defined.

Lemma nameless_installer_uri_aborts_witness :
  (exists e, Example.nameless_run.1 = Raise e) /\
  (forall p doc, EWriteXml p doc ∈ trace Example.nameless_run.2 ->
                 tag doc = lit "Package").
Proof.
  apply (nameless_installer_uri_aborts (H:=Reference.host)
           (Example.args false true) (Example.env Example.nameless_document)
           Example.logos Example.nameless_run.1 Example.nameless_run.2).
  - reflexivity.
  - vm_compute. reflexivity.
  - apply surjective_pairing.
Defined.

Lemma manifest_logos_are_staged_witness :
  exists big small d150 d44,
    logo_references Example.tool_manifest_xml
      = [Some (PStr big); Some (PStr big); Some (PStr small)] /\
    fs_node Example.logos (logo_150 [lit "logos"]) = Some (File d150) /\
    fs_node Example.logos (logo_44 [lit "logos"]) = Some (File d44) /\
    files Example.tool_run.2 !! ([lit "out"] ++ parse_path big)
      = Some (File d150) /\
    files Example.tool_run.2 !! ([lit "out"] ++ parse_path small)
      = Some (File d44).
Proof.
  apply (manifest_logos_are_staged (H:=Reference.host)
           (Example.args false true) (Example.env Example.tool_document)
           Example.logos Example.tool_run.1 Example.tool_run.2
           [lit "out"; lit "AppxManifest.xml"] Example.tool_manifest_xml).
  - apply surjective_pairing.
  - in_computed_list.
  - vm_compute. reflexivity.
Defined.

Lemma failed_descriptor_write_leaves_partial_file_witness :
  Example.numeric_run.1 = Raise TypeError /\
  files Example.numeric_run.2 !! [lit "out"; lit "Tool.appinstaller"]
    = Some (File (Reference.write Example.numeric_descriptor).1).
Proof.
  apply (failed_descriptor_write_leaves_partial_file (H:=Reference.host)
           (Example.args false true) (Example.env Example.numeric_document)
           Example.logos Example.numeric_run.1 Example.numeric_run.2
           [lit "out"; lit "Tool.appinstaller"] Example.numeric_descriptor
           TypeError).
  - apply surjective_pairing.
  - in_computed_list.
  - vm_compute. reflexivity.
  - vm_compute. reflexivity.
Defined.
